(** * fft3d_calc: the streaming FFT analysis of the Brusselator tutorial

    A shallow embedding of [Tutorial/brusselator/src/analysis/fft3d_calc.cpp]
    and the properties of its domain decomposition, its step loop, its
    staging loops and its output variable definitions.

    The program is one C++ [main].  It is embedded as
    - machine integers: [Z] with the 64-bit wrap-around of [std::size_t]
      written out, and [int] counters whose overflow is undefined;
    - arrays ([std::vector], the FFTW buffers): lists read and written by
      index, an access out of range being undefined behaviour ([None]); a
      vector holds [size()] entries, whatever its capacity;
    - the libraries it calls (ADIOS2, FFTW, MPI): an environment of oracles
      and a trace of the calls made, in program order. *)

From stdpp Require Import base numbers list strings.
From Stdlib Require Import ZArith Lia.

Local Open Scope Z_scope.

(** ** Machine integers *)

Module Mach.

(** [std::size_t] on the LP64 targets the tutorial builds for. *)
Definition SIZE_MOD : Z := 2 ^ 64.

Definition INT_MAX : Z := 2 ^ 31 - 1.

(** Conversion of an integer value to [std::size_t]; also the result of
    unsigned arithmetic on it. *)
Definition to_size_t (z : Z) : Z := z mod SIZE_MOD.

End Mach.
Import Mach.

(** ** Undefined behaviour as an error: the option monad *)

Notation "'do' x <- m ; k" :=
  (match m with Some x => k | None => None end)
  (at level 10, x pattern, m at level 100, k at level 200,
   format "'[v' 'do'  x  <-  m ; '/' k ']'").

(** ** Arrays *)

Module Arr.

(** A [double] is only ever copied by this program; it is represented by
    its 64-bit image, so that equality is equality bit for bit. *)
Definition double : Type := Z.

(** [fftw_complex] is [double[2]]: component 0 real, component 1 imaginary. *)
Definition fftw_complex : Type := double * double.

(** [v[i]] as an rvalue; outside the storage the behaviour is undefined. *)
Definition vec_get {A} (v : list A) (i : Z) : option A :=
  if i <? 0 then None else v !! Z.to_nat i.

(** [v[i] = x]; outside the storage the behaviour is undefined. *)
Definition vec_set {A} (v : list A) (i : Z) (x : A) : option (list A) :=
  if (0 <=? i) && (i <? Z.of_nat (length v))
  then Some (<[Z.to_nat i := x]> v) else None.

(** [buf[i][0] = x] and [buf[i][1] = x]. *)
Definition set_re (buf : list fftw_complex) (i : Z) (x : double)
  : option (list fftw_complex) :=
  do c <- vec_get buf i; vec_set buf i (x, c.2).

Definition set_im (buf : list fftw_complex) (i : Z) (x : double)
  : option (list fftw_complex) :=
  do c <- vec_get buf i; vec_set buf i (c.1, x).

(** [n] iterations of [body], the counter starting at [i]. *)
Fixpoint iterate {S} (n : nat) (i : Z) (body : Z -> S -> option S) (s : S)
  : option S :=
  match n with
  | O => Some s
  | S n' => do s' <- body i s; iterate n' (i + 1) body s'
  end.

(** [for (int i = 0; i < bound; i++) body], [bound] being a [size_t]: the
    comparison converts [i].  When [bound] exceeds [INT_MAX] the loop cannot
    end before [i++] overflows, which is undefined. *)
Definition for_int {S} (bound : Z) (body : Z -> S -> option S) (s : S)
  : option S :=
  if bound <=? INT_MAX then iterate (Z.to_nat bound) 0 body s else None.

(** [for (size_t i = 0; i < bound; i++) body]. *)
Definition for_size_t {S} (bound : Z) (body : Z -> S -> option S) (s : S)
  : option S :=
  iterate (Z.to_nat bound) 0 body s.

End Arr.
Import Arr.

(** ** The buffer stager: the loops of lines 270-281, 287-291, 295-306
    and 312-316 *)

Module Stager.

(** [size_t idx = i*shape[1]*shape[2] + j*shape[2] + k], in [size_t]
    arithmetic. *)
Definition flat_index (d1 d2 i j k : Z) : Z :=
  to_size_t (i * d1 * d2 + j * d2 + k).

(** The body of the innermost loop:
    [in[idx][0] = re[idx]; in[idx][1] = im[idx];]. *)
Definition stage_in_body (d1 d2 : Z) (re im : list double) (i j k : Z)
    (buf : list fftw_complex) : option (list fftw_complex) :=
  let idx := flat_index d1 d2 i j k in
  do r <- vec_get re idx;
  do buf1 <- set_re buf idx r;
  do m <- vec_get im idx;
  set_im buf1 idx m.

(** The three nested loops over [i < x_dim], [j < shape[1]], [k < shape[2]]
    that fill the transform input [in] from a pair of fields. *)
Definition stage_in (x_dim d1 d2 : Z) (re im : list double)
    (buf : list fftw_complex) : option (list fftw_complex) :=
  for_int x_dim (fun i =>
    for_int d1 (fun j =>
      for_int d2 (fun k => stage_in_body d1 d2 re im i j k))) buf.

(** The body of the output loop:
    [re[i] = out[i][0]; im[i] = out[i][1];]. *)
Definition stage_out_body (out : list fftw_complex) (i : Z)
    (s : list double * list double) : option (list double * list double) :=
  do c <- vec_get out i;
  do re' <- vec_set s.1 i c.1;
  do c' <- vec_get out i;
  do im' <- vec_set s.2 i c'.2;
  Some (re', im').

(** The loop over [i < alloc_local] that copies the transform output into
    a pair of result vectors. *)
Definition stage_out (alloc_local : Z) (out : list fftw_complex)
    (re im : list double) : option (list double * list double) :=
  for_size_t (to_size_t alloc_local) (stage_out_body out) (re, im).

End Stager.
Import Stager.

(** ** The decomposition calculator *)

Module Decomp.

(** Modelled from the spec: [get_starts_counts_3d_decomp] is declared in
    [decompose_utils.h], which is not among the sources.  The spec (4.1)
    asks for a balanced decomposition along dimension 0, the remainder
    going to the low-numbered ranks, dimensions 1 and 2 being owned in
    full by every rank.  The result is the pair of arrays [starts] and
    [counts] the caller passes in.  This is the arithmetic of the
    calculator, for a process group of at most [d0] ranks; what a call
    does with a larger group is in [decompose] below. *)
Definition get_starts_counts_3d_decomp
    (d0 d1 d2 : Z) (comm_size rank : Z) : (Z * Z * Z) * (Z * Z * Z) :=
  let q := d0 / comm_size in
  let rem := d0 mod comm_size in
  let start0 := rank * q + Z.min rank rem in
  let count0 := q + (if rank <? rem then 1 else 0) in
  ((start0, 0, 0), (count0, d1, d2)).

(** Dimension-0 entries of the two arrays. *)
Definition start0 (d0 d1 d2 P r : Z) : Z :=
  (get_starts_counts_3d_decomp d0 d1 d2 P r).1.1.1.

Definition count0 (d0 d1 d2 P r : Z) : Z :=
  (get_starts_counts_3d_decomp d0 d1 d2 P r).2.1.1.

(** Sum of [f] over the ranks [0 .. n-1]. *)
Fixpoint sum_ranks (f : Z -> Z) (n : nat) : Z :=
  match n with
  | O => 0
  | S n' => sum_ranks f n' + f (Z.of_nat n')
  end.

End Decomp.
Import Decomp.

(** ** The libraries the program calls *)

Module Env.

(** [adios2::StepStatus]. *)
Inductive StepStatus := OK | NotReady | EndOfStream | OtherError.

(** What the input stream holds in one step: the shape of each variable
    and, for a selection [(start, count)], the block delivered by [Get].
    The four variables are present in every step. *)
Record step_content := {
  Shape : string -> Z * Z * Z;
  Get : string -> Z * Z * Z -> Z * Z * Z -> list double
}.

(** The answer of one call of [reader_engine.BeginStep]. *)
Inductive reply :=
| Step (c : step_content)
| NoStepYet
| StreamEnded
| StreamError.

Definition status_of (r : reply) : StepStatus :=
  match r with
  | Step _ => OK
  | NoStepYet => NotReady
  | StreamEnded => EndOfStream
  | StreamError => OtherError
  end.

(** The process and the libraries around it: its rank [wrank] in
    [MPI_COMM_WORLD], its [rank] among the [comm_size] processes of the
    split communicator (MPI gives [0 <= rank < comm_size]), what FFTW
    reports as local size on the rank [r] of [MPI_COMM_WORLD]
    ([fftw_mpi_local_size_3d r]), whether the two [fftw_alloc_complex]
    calls succeed, the entry [i] of the transform of a buffer
    ([fftw_execute input i]) and the contents of the fresh arrays. *)
Record env := {
  wrank : Z;
  rank : Z;
  comm_size : Z;
  fftw_mpi_local_size_3d : Z -> Z -> Z -> Z -> Z;
  alloc_ok : bool;
  fftw_execute : list fftw_complex -> Z -> fftw_complex;
  fresh_complex : Z -> fftw_complex
}.

(** [MPI_Scan] with [MPI_SUM]: on rank [r], the sum of the contributions of
    the ranks [0 .. r], in 64-bit arithmetic. *)
Definition MPI_Scan_sum (contrib : Z -> Z) (r : Z) : Z :=
  to_size_t (sum_ranks contrib (Z.to_nat (r + 1))).

(** Freshly allocated storage of [n] elements, contents indeterminate. *)
Definition storage {A} (fresh : Z -> A) (n : Z) : list A :=
  fresh <$> seqZ 0 n.

End Env.
Import Env.

(** ** The trace of a run *)

Module Trace.

Inductive message :=
| MsgNotEnoughArguments
| MsgUsage
| MsgStep (n : Z)
| MsgShapeU (d0 : Z)
| MsgSizeMismatch (alloc_local : Z)
| MsgAllocFailed
| MsgTooManyProcesses.

Inductive engine := Reader | Writer.

(** The calls into the libraries and the output printed, in program order. *)
Inductive event :=
| EvPrint (m : message)
| EvAbort
| EvOpen (g : engine) (name : string)
| EvBeginStep (st : StepStatus)
| EvSleep (ms : Z)
| EvSetSelection (var : string) (start count : list Z)
| EvLocalSize (d0 d1 d2 : Z)
| EvAllocComplex (n : Z)
| EvReserve (var : string) (n : Z)
| EvPlan (d0 d1 d2 : Z)
| EvScan (x_dim : Z)
| EvDefineVariable (var : string) (shape start count : list Z)
| EvGet (var : string)
| EvEndStep
| EvExecute (input : list fftw_complex)
| EvWriterBeginStep
| EvPut (var : string) (data : list double)
| EvWriterEndStep
| EvClose (g : engine)
| EvFree
| EvDestroyPlan
| EvFinalize.

Inductive run_status := Running | Returned (code : Z) | Aborted | Undefined.

(** A computation that logs events and may stop the process. *)
Inductive result (A : Type) := Ok (a : A) | Halt (s : run_status).
Arguments Ok {A} a.
Arguments Halt {A} s.

Definition M (A : Type) : Type := list event * result A.

Definition ret {A} (a : A) : M A := ([], Ok a).

Definition bind {A B} (m : M A) (f : A -> M B) : M B :=
  match m with
  | (es, Ok a) => let '(es', r) := f a in (es ++ es', r)
  | (es, Halt s) => (es, Halt s)
  end.

Definition emit (es : list event) : M unit := (es, Ok tt).

Definition halt {A} (s : run_status) : M A := ([], Halt s).

(** A step whose behaviour may be undefined. *)
Definition defined {A} (o : option A) : M A :=
  match o with Some a => ret a | None => halt Undefined end.

End Trace.
Import Trace.

Notation "'let*' x := m 'in' k" := (bind m (fun x => k))
  (at level 10, x pattern, m at level 100, k at level 200,
   format "'[v' 'let*'  x  :=  m  'in' '/' k ']'").
Notation "m ;; k" := (bind m (fun _ => k))
  (at level 100, k at level 200, right associativity,
   format "'[v' m  ;; '/' k ']'").

(** ** The program *)

Module Analysis.

(** The variables assigned in the first-step block (lines 172-242) and the
    four result vectors (lines 95-98).  [in_buf] and [out_buf] are the
    arrays of [alloc_local] entries that [fftw_alloc_complex] returns.
    The result vectors are declared empty and only get
    [reserve(alloc_local)] (lines 192-195), which leaves [size()] at 0:
    each is the list of its [size()] entries. *)
Record workspace := {
  alloc_local : Z;
  in_buf : list fftw_complex;
  out_buf : list fftw_complex;
  x_dim : Z;
  x_off : Z;
  u_fft_real : list double;
  u_fft_imag : list double;
  v_fft_real : list double;
  v_fft_imag : list double
}.

(** The variables of [main] that live across iterations of the loop.
    [ws] is [None] while [in], [out], [plan], [alloc_local], [x_dim] and
    [x_off] are still uninitialised. *)
Record state := {
  status : run_status;
  step_num : Z;
  output_fft_only : bool;
  firstStep : bool;
  ws : option workspace
}.

Definition with_status (s : run_status) (st : state) : state :=
  {| status := s; step_num := step_num st;
     output_fft_only := output_fft_only st;
     firstStep := firstStep st; ws := ws st |}.

Definition printUsage : list event := [EvPrint MsgUsage].

Definition dims (t : Z * Z * Z) : list Z := [t.1.1; t.1.2; t.2].

(** Lines 47-117: the argument check, the flag and the two engines. *)
Definition startup (e : env) (argv : list string) : list event * state :=
  let argc := Z.of_nat (length argv) in
  if argc <? 3 then
    ([EvPrint MsgNotEnoughArguments]
       ++ (if rank e =? 0 then printUsage else []) ++ [EvAbort],
     {| status := Aborted; step_num := 0; output_fft_only := true;
        firstStep := true; ws := None |})
  else
    let in_filename := nth 1 argv EmptyString in
    let out_filename := nth 2 argv EmptyString in
    let fft_only :=
      if 4 <=? argc
      then (if String.eqb (nth 3 argv EmptyString) "0" then false else true)
      else true in
    ([EvOpen Reader in_filename; EvOpen Writer out_filename],
     {| status := Running; step_num := 0; output_fft_only := fft_only;
        firstStep := true; ws := None |}).

(** One of the four [DefineVariable] calls of lines 205-221. *)
Definition define_fft (var : string) (d0 d1 d2 x_off alloc_local : Z) : event :=
  EvDefineVariable var
    [to_size_t (d0 * d1 * d2)]
    [to_size_t (x_off * d1 * d2)]
    [to_size_t alloc_local].

(** One of the four [DefineVariable] calls of lines 224-239; the extent
    always takes [shape_u_real[1]] and [shape_u_real[2]]. *)
Definition define_copy (var : string) (shape : Z * Z * Z)
    (x_off x_dim d1 d2 : Z) : event :=
  EvDefineVariable var (dims shape) [x_off; 0; 0] [x_dim; d1; d2].

(** Lines 172-242, entered on the first step only.  [MPI_Scan] adds up the
    [x_dim] of the ranks of [MPI_COMM_WORLD], each of which runs this
    program on a stream of the same global shape.  [shape[1]] or [shape[2]]
    being 0, the division of line 200 is undefined.  [reserve] changes the
    capacity of a result vector, not its size. *)
Definition first_step_block (e : env) (fft_only : bool)
    (shape_u_real shape_v_real : Z * Z * Z) : M workspace :=
  let '(d0, d1, d2) := shape_u_real in
  let alloc_local := fftw_mpi_local_size_3d e (wrank e) d0 d1 d2 in
  let n := to_size_t alloc_local in
  emit [EvLocalSize d0 d1 d2; EvAllocComplex n; EvAllocComplex n;
        EvPrint (MsgShapeU d0)] ;;
  (if n =? to_size_t (d0 * d1 * d2) / to_size_t (comm_size e)
   then emit []
   else emit [EvPrint (MsgSizeMismatch alloc_local)]) ;;
  (if alloc_ok e then emit []
   else (emit [EvPrint MsgAllocFailed; EvAbort] ;; halt Aborted)) ;;
  emit [EvReserve "u_fft_real" n; EvReserve "u_fft_imag" n;
        EvReserve "v_fft_real" n; EvReserve "v_fft_imag" n;
        EvPlan d0 d1 d2] ;;
  (if (d1 =? 0) || (d2 =? 0) then halt Undefined else emit []) ;;
  let x_dim := n / d1 / d2 in
  let scan :=
    MPI_Scan_sum
      (fun r => to_size_t (fftw_mpi_local_size_3d e r d0 d1 d2) / d1 / d2)
      (wrank e) in
  let x_off := to_size_t (scan - x_dim) in
  emit [EvScan x_dim;
        define_fft "u_fft_real" d0 d1 d2 x_off alloc_local;
        define_fft "u_fft_imag" d0 d1 d2 x_off alloc_local;
        define_fft "v_fft_real" d0 d1 d2 x_off alloc_local;
        define_fft "v_fft_imag" d0 d1 d2 x_off alloc_local] ;;
  (if fft_only then emit []
   else emit [define_copy "u_real" shape_u_real x_off x_dim d1 d2;
              define_copy "u_imag" shape_u_real x_off x_dim d1 d2;
              define_copy "v_real" shape_v_real x_off x_dim d1 d2;
              define_copy "v_imag" shape_v_real x_off x_dim d1 d2]) ;;
  ret {| alloc_local := alloc_local;
         in_buf := storage (fresh_complex e) n;
         out_buf := storage (fresh_complex e) n;
         x_dim := x_dim; x_off := x_off;
         u_fft_real := []; u_fft_imag := [];
         v_fft_real := []; v_fft_imag := [] |}.

(** [fftw_execute(plan)]: the output buffer is overwritten entry by entry. *)
Definition execute (e : env) (input out : list fftw_complex)
  : list fftw_complex :=
  fftw_execute e input <$> seqZ 0 (Z.of_nat (length out)).

(** The four blocks read in a step. *)
Record fields := {
  u_real_data : list double;
  u_imag_data : list double;
  v_real_data : list double;
  v_imag_data : list double
}.

(** Lines 136-137: the step banner of rank 0. *)
Definition step_banner (e : env) (st : state) : M unit :=
  emit (if rank e =? 0 then [EvPrint (MsgStep (step_num st))] else []).

(** Modelled from the spec: lines 154-155 call the calculator, whose body
    is not among the sources.  A process group with more ranks than rows
    along dimension 0 is a configuration error, which is reported and
    aborts the process group (spec 4.1 and 7); otherwise the call returns
    the slab of this rank. *)
Definition decompose (e : env) (d0 d1 d2 : Z)
  : M ((Z * Z * Z) * (Z * Z * Z)) :=
  if d0 <? comm_size e
  then emit [EvPrint MsgTooManyProcesses; EvAbort] ;; halt Aborted
  else ret (get_starts_counts_3d_decomp d0 d1 d2 (comm_size e) (rank e)).

(** Lines 158-169: the four selections. *)
Definition select_inputs
    (starts_u counts_u starts_v counts_v : Z * Z * Z) : M unit :=
  emit [EvSetSelection "u_real" (dims starts_u) (dims counts_u);
        EvSetSelection "u_imag" (dims starts_u) (dims counts_u);
        EvSetSelection "v_real" (dims starts_v) (dims counts_v);
        EvSetSelection "v_imag" (dims starts_v) (dims counts_v)].

(** Lines 259-266: the four [Get] calls and [EndStep]. *)
Definition read_inputs (c : step_content)
    (starts_u counts_u starts_v counts_v : Z * Z * Z) : M fields :=
  emit [EvGet "u_real"; EvGet "u_imag"; EvGet "v_real"; EvGet "v_imag";
        EvEndStep] ;;
  ret {| u_real_data := Get c "u_real" starts_u counts_u;
         u_imag_data := Get c "u_imag" starts_u counts_u;
         v_real_data := Get c "v_real" starts_v counts_v;
         v_imag_data := Get c "v_imag" starts_v counts_v |}.

(** Lines 268-291 for u and 293-316 for v: stage in, transform, stage out.
    The result is [in], [out] and the pair of result vectors. *)
Definition transform_pair (e : env) (x_dim alloc_local d1 d2 : Z)
    (re_data im_data : list double) (input out : list fftw_complex)
    (fft_real fft_imag : list double)
  : M (list fftw_complex * list fftw_complex * (list double * list double)) :=
  let* input' := defined (stage_in x_dim d1 d2 re_data im_data input) in
  emit [EvExecute input'] ;;
  let out' := execute e input' out in
  let* fft := defined (stage_out alloc_local out' fft_real fft_imag) in
  ret (input', out', fft).

(** Line 172: the first-step block is entered while [firstStep] holds;
    later steps use the variables it assigned. *)
Definition step_workspace (e : env) (st : state)
    (shape_u_real shape_v_real : Z * Z * Z) : M workspace :=
  if firstStep st
  then first_step_block e (output_fft_only st) shape_u_real shape_v_real
  else defined (ws st).

(** Lines 158-316: what a step does with the slabs of its two field
    families, before it writes. *)
Definition process_slabs (e : env) (st : state) (c : step_content)
    (starts_u counts_u starts_v counts_v : Z * Z * Z)
  : M (workspace * fields) :=
  let shape_u_real := Shape c "u_real" in
  let shape_v_real := Shape c "v_real" in
  let '(u0, d1, d2) := shape_u_real in
  select_inputs starts_u counts_u starts_v counts_v ;;
  let* w := step_workspace e st shape_u_real shape_v_real in
  let* d := read_inputs c starts_u counts_u starts_v counts_v in
  let* (in_u, out_u, fft_u) :=
    transform_pair e (x_dim w) (alloc_local w) d1 d2
      (u_real_data d) (u_imag_data d) (in_buf w) (out_buf w)
      (u_fft_real w) (u_fft_imag w) in
  let* (in_v, out_v, fft_v) :=
    transform_pair e (x_dim w) (alloc_local w) d1 d2
      (v_real_data d) (v_imag_data d) in_u out_u
      (v_fft_real w) (v_fft_imag w) in
  ret ({| alloc_local := alloc_local w;
          in_buf := in_v; out_buf := out_v;
          x_dim := x_dim w; x_off := x_off w;
          u_fft_real := fft_u.1; u_fft_imag := fft_u.2;
          v_fft_real := fft_v.1; v_fft_imag := fft_v.2 |}, d).

(** Lines 136-316: everything a step does before it writes. *)
Definition compute_step (e : env) (st : state) (c : step_content)
  : M (workspace * fields) :=
  let '(u0, d1, d2) := Shape c "u_real" in
  let '(v0, v1, v2) := Shape c "v_real" in
  step_banner e st ;;
  let* (starts_u, counts_u) := decompose e u0 d1 d2 in
  let* (starts_v, counts_v) := decompose e v0 v1 v2 in
  process_slabs e st c starts_u counts_u starts_v counts_v.

(** Lines 318-330: the output step. *)
Definition write_step (fft_only : bool) (w : workspace) (d : fields) : M unit :=
  emit [EvWriterBeginStep;
        EvPut "u_fft_real" (u_fft_real w); EvPut "u_fft_imag" (u_fft_imag w);
        EvPut "v_fft_real" (v_fft_real w); EvPut "v_fft_imag" (v_fft_imag w)] ;;
  (if fft_only then emit []
   else emit [EvPut "u_real" (u_real_data d); EvPut "u_imag" (u_imag_data d);
              EvPut "v_real" (v_real_data d); EvPut "v_imag" (v_imag_data d)]) ;;
  emit [EvWriterEndStep].

(** Lines 136-330: one step of the stream, after [step_num ++]. *)
Definition step_body (e : env) (st : state) (c : step_content) : M state :=
  let* (w, d) := compute_step e st c in
  write_step (output_fft_only st) w d ;;
  ret {| status := Running; step_num := step_num st;
         output_fft_only := output_fft_only st;
         firstStep := false; ws := Some w |}.

(** Lines 333-343: what follows the loop.  With no step read, [in], [out]
    and [plan] were never assigned and [fftw_free(in)] reads an
    indeterminate pointer. *)
Definition shutdown (st : state) : list event * state :=
  match ws st with
  | Some _ =>
      ([EvClose Reader; EvClose Writer; EvFree; EvFree; EvDestroyPlan;
        EvFinalize],
       with_status (Returned 0) st)
  | None =>
      ([EvClose Reader; EvClose Writer], with_status Undefined st)
  end.

(** Lines 120-331: one iteration of [while(true)], given what [BeginStep]
    answers.  [step_num] is an [int]: its overflow is undefined. *)
Definition iteration (e : env) (st : state) (r : reply) : list event * state :=
  match r with
  | NoStepYet => ([EvBeginStep NotReady; EvSleep 1000], st)
  | StreamEnded | StreamError =>
      let '(es, st') := shutdown st in (EvBeginStep (status_of r) :: es, st')
  | Step c =>
      let st1 :=
        {| status := Running; step_num := step_num st + 1;
           output_fft_only := output_fft_only st;
           firstStep := firstStep st; ws := ws st |} in
      if INT_MAX <? step_num st1
      then ([EvBeginStep OK], with_status Undefined st1)
      else
        match step_body e st1 c with
        | (es, Ok st') => (EvBeginStep OK :: es, st')
        | (es, Halt s) => (EvBeginStep OK :: es, with_status s st1)
        end
  end.

(** The loop, for as many answers of [BeginStep] as [script] holds; a run
    still [Running] at the end is waiting in [BeginStep]. *)
Fixpoint loop (e : env) (st : state) (script : list reply)
  : list event * state :=
  match script with
  | [] => ([], st)
  | r :: rest =>
      let '(es, st') := iteration e st r in
      match status st' with
      | Running => let '(es', st'') := loop e st' rest in (es ++ es', st'')
      | _ => (es, st')
      end
  end.

Definition main (e : env) (argv : list string) (script : list reply)
  : list event * state :=
  let '(es0, st0) := startup e argv in
  match status st0 with
  | Running => let '(es, st) := loop e st0 script in (es0 ++ es, st)
  | _ => (es0, st0)
  end.

End Analysis.
Import Analysis.

(** ** Properties stated by the specification *)

Module Props.

(** The dimension-0 slabs of the ranks [0 .. P-1] cut [0, d0) into
    consecutive intervals of balanced length. *)
Definition balanced_tiling (d0 d1 d2 P : Z) : Prop :=
  let start := start0 d0 d1 d2 P in
  let count := count0 d0 d1 d2 P in
  sum_ranks count (Z.to_nat P) = d0
  /\ (forall r, 0 <= r < P -> start r = sum_ranks count (Z.to_nat r))
  /\ (forall r, 0 <= r < P ->
        Z.abs (count r - d0 / P) <= 1 /\ Z.abs (P * count r - d0) <= P)
  /\ start 0 = 0
  /\ (forall r, 0 <= r < P - 1 -> start (r + 1) = start r + count r)
  /\ start (P - 1) + count (P - 1) = d0
  /\ (forall x, 0 <= x < d0 ->
        exists r, 0 <= r < P
          /\ start r <= x < start r + count r
          /\ forall s, 0 <= s < P ->
               start s <= x < start s + count s -> s = r).

End Props.
Import Props.

Module StageProps.

(** [b] is [buf] with its first [p] entries replaced by the pairs of the
    entries of [re] and [im] at the same index. *)
Definition staged (re im : list double) (buf : list fftw_complex)
    (p : Z) (b : list fftw_complex) : Prop :=
  length b = length buf
  /\ (forall n, 0 <= n < p ->
        exists r m, vec_get re n = Some r /\ vec_get im n = Some m
                    /\ vec_get b n = Some (r, m))
  /\ (forall n, p <= n -> vec_get b n = vec_get buf n).

(** [(re', im')] is [(re, im)] with the first [p] entries replaced by the
    components of the entries of [out] at the same index. *)
Definition unstaged (out : list fftw_complex) (re im : list double)
    (p : Z) (s : list double * list double) : Prop :=
  length s.1 = length re /\ length s.2 = length im
  /\ (forall n, 0 <= n < p ->
        exists c, vec_get out n = Some c
                  /\ vec_get s.1 n = Some c.1 /\ vec_get s.2 n = Some c.2)
  /\ (forall n, p <= n ->
        vec_get s.1 n = vec_get re n /\ vec_get s.2 n = vec_get im n).

(** [buf'] is [buf] after the copy of a pair of fields over the local slab
    of extents [(x_dim, d1, d2)]: element [(i, j, k)] of [re] and of [im]
    is at flattened index [i*d1*d2 + j*d2 + k] of [buf'], real part in
    component 0 and imaginary part in component 1, and no entry of a row
    [i >= x_dim] was touched. *)
Definition copies_slab (x_dim d1 d2 : Z) (re im : list double)
    (buf buf' : list fftw_complex) : Prop :=
  length buf' = length buf
  /\ (forall i j k, 0 <= i < x_dim -> 0 <= j < d1 -> 0 <= k < d2 ->
        exists r m,
          vec_get re (i * d1 * d2 + j * d2 + k) = Some r
          /\ vec_get im (i * d1 * d2 + j * d2 + k) = Some m
          /\ vec_get buf' (i * d1 * d2 + j * d2 + k) = Some (r, m))
  /\ (forall i j k, x_dim <= i -> 0 <= j -> 0 <= k ->
        vec_get buf' (i * d1 * d2 + j * d2 + k)
        = vec_get buf (i * d1 * d2 + j * d2 + k)).

(** The inputs handed to [fftw_execute], in order. *)
Definition executes (es : list event) : list (list fftw_complex) :=
  omap (fun ev => match ev with EvExecute b => Some b | _ => None end) es.

End StageProps.
Import StageProps.

Module RunProps.

Definition is_sleep (ev : event) : bool :=
  match ev with EvSleep _ => true | _ => false end.

Definition is_begin (s : StepStatus) (ev : event) : bool :=
  match ev, s with
  | EvBeginStep OK, OK
  | EvBeginStep NotReady, NotReady
  | EvBeginStep EndOfStream, EndOfStream
  | EvBeginStep OtherError, OtherError => true
  | _, _ => false
  end.

Definition is_writer_begin (ev : event) : bool :=
  match ev with EvWriterBeginStep => true | _ => false end.

Definition is_abort (ev : event) : bool :=
  match ev with EvAbort => true | _ => false end.

Definition is_size_mismatch (ev : event) : bool :=
  match ev with EvPrint (MsgSizeMismatch _) => true | _ => false end.

Definition is_release (ev : event) : bool :=
  match ev with EvFree | EvDestroyPlan => true | _ => false end.

Definition is_end_step (ev : event) : bool :=
  match ev with EvEndStep => true | _ => false end.

Definition is_plan (ev : event) : bool :=
  match ev with EvPlan _ _ _ => true | _ => false end.

Definition is_alloc (ev : event) : bool :=
  match ev with EvAllocComplex _ => true | _ => false end.

Definition is_free (ev : event) : bool :=
  match ev with EvFree => true | _ => false end.

Definition is_destroy (ev : event) : bool :=
  match ev with EvDestroyPlan => true | _ => false end.

Definition is_open (ev : event) : bool :=
  match ev with EvOpen _ _ => true | _ => false end.

Definition is_poll (ev : event) : bool :=
  match ev with EvBeginStep _ => true | _ => false end.

Definition count (p : event -> bool) (es : list event) : nat :=
  length (List.filter p es).

(** The data handed to [Put] for [var], in order. *)
Definition data_put (var : string) (es : list event) : list (list double) :=
  omap (fun ev =>
          match ev with
          | EvPut v data => if String.eqb v var then Some data else None
          | _ => None
          end) es.

(** The selections set for [var], in order. *)
Definition selections_of (var : string) (es : list event)
  : list (list Z * list Z) :=
  omap (fun ev =>
          match ev with
          | EvSetSelection v start cnt =>
              if String.eqb v var then Some (start, cnt) else None
          | _ => None
          end) es.

(** The step numbers printed, in order. *)
Definition step_banners (es : list event) : list Z :=
  omap (fun ev => match ev with EvPrint (MsgStep n) => Some n | _ => None end)
    es.

(** The row counts handed to [MPI_Scan], in order. *)
Definition rows_scanned (es : list event) : list Z :=
  omap (fun ev => match ev with EvScan n => Some n | _ => None end) es.

(** The capacities asked of [reserve] for [var], in order. *)
Definition reserved (var : string) (es : list event) : list Z :=
  omap (fun ev =>
          match ev with
          | EvReserve v n => if String.eqb v var then Some n else None
          | _ => None
          end) es.

(** The backoff intervals slept, in order. *)
Definition sleeps (es : list event) : list Z :=
  omap (fun ev => match ev with EvSleep ms => Some ms | _ => None end) es.

(** The variables put in each step of the output stream: one list per
    [BeginStep] ... [EndStep] of the writer, [cur] being the step still
    open, if any. *)
Fixpoint written_vars (cur : option (list string)) (es : list event)
  : list (list string) :=
  match es with
  | [] => []
  | EvWriterBeginStep :: es' => written_vars (Some []) es'
  | EvPut v _ :: es' => written_vars ((fun l => l ++ [v]) <$> cur) es'
  | EvWriterEndStep :: es' =>
      match cur with
      | Some l => l :: written_vars None es'
      | None => written_vars None es'
      end
  | _ :: es' => written_vars cur es'
  end.

Definition fft_vars : list string :=
  ["u_fft_real"; "u_fft_imag"; "v_fft_real"; "v_fft_imag"].

Definition copy_vars : list string :=
  ["u_real"; "u_imag"; "v_real"; "v_imag"].

(** What a step writes, by the flag. *)
Definition vars_of_flag (fft_only : bool) : list string :=
  if fft_only then fft_vars else fft_vars ++ copy_vars.

(** The [(shape, start, count)] of each definition of [var], in order. *)
Definition definitions_of (var : string) (es : list event)
  : list (list Z * list Z * list Z) :=
  omap (fun ev =>
          match ev with
          | EvDefineVariable v shape start count =>
              if String.eqb v var then Some (shape, start, count) else None
          | _ => None
          end) es.

(** Events by the part of the program that issues them. *)
Inductive event_class := Polling | Writing | Defining | Transforming | Other.

Definition class_of (ev : event) : event_class :=
  match ev with
  | EvBeginStep _ | EvSleep _ => Polling
  | EvWriterBeginStep | EvPut _ _ | EvWriterEndStep => Writing
  | EvDefineVariable _ _ _ _ => Defining
  | EvExecute _ => Transforming
  | _ => Other
  end.

Definition plain (es : list event) : Prop :=
  Forall (fun ev => class_of ev = Other) es.

Definition plain_or_defining (es : list event) : Prop :=
  Forall (fun ev => class_of ev = Other \/ class_of ev = Defining) es.

Definition plain_or_transforming (es : list event) : Prop :=
  Forall (fun ev => class_of ev = Other \/ class_of ev = Transforming) es.

End RunProps.
Import RunProps.

Module DriverProps.

(** What the loop does while the producer is not ready, for a run started
    with the arguments [argv]:
    - a [NotReady] answer, wherever it comes in the sequence of answers
      (after [script], which has left the run in its loop, and before
      [more]): the run sleeps 1000 ms once and then goes on exactly as it
      would have without that answer, with the same events [rest] and the
      same final state, step counter included;
    - what follows the sleep is the next call of [BeginStep];
    - in every run, each [NotReady] answer is followed by one sleep of
      1000 ms, and [step_num] is the number of [OK] answers seen;
    - after [k] [NotReady] answers the run has logged [k] times
      [BeginStep], [sleep], is about to call [BeginStep] again and has
      not counted a step;
    - after [k] [NotReady] answers and one [OK], it has slept [k] times,
      all before the [OK], and has counted one step. *)
Definition polling_discipline (e : env) (argv : list string) : Prop :=
  (forall script more,
      status (main e argv script).2 = Running ->
      exists rest,
        (main e argv (script ++ more)).1 = (main e argv script).1 ++ rest
        /\ main e argv (script ++ NoStepYet :: more)
           = ((main e argv script).1
                ++ [EvBeginStep NotReady; EvSleep 1000] ++ rest,
              (main e argv (script ++ more)).2))
  /\ (forall script r more,
        status (main e argv script).2 = Running ->
        exists tl,
          (main e argv (script ++ NoStepYet :: r :: more)).1
          = (main e argv script).1
              ++ [EvBeginStep NotReady; EvSleep 1000;
                  EvBeginStep (status_of r)] ++ tl)
  /\ (forall script,
        let r := main e argv script in
        sleeps r.1 = repeat 1000 (count (is_begin NotReady) r.1)
        /\ step_num r.2 = Z.of_nat (count (is_begin OK) r.1))
  /\ (forall k,
        let r := main e argv (repeat NoStepYet k) in
        r.1 = (startup e argv).1
                ++ concat (repeat [EvBeginStep NotReady; EvSleep 1000] k)
        /\ status r.2 = Running /\ step_num r.2 = 0)
  /\ (forall k c,
        let r := main e argv (repeat NoStepYet k ++ [Step c]) in
        sleeps r.1 = repeat 1000 k /\ step_num r.2 = 1
        /\ exists tl,
             r.1 = (startup e argv).1
                     ++ concat (repeat [EvBeginStep NotReady; EvSleep 1000] k)
                     ++ EvBeginStep OK :: tl
             /\ sleeps tl = []).

(** The definition of a transform output the specification describes: a
    1-D variable of global length [d0*d1*d2], at offset [x_off*d1*d2]
    where [x_off] is the sum over the lower ranks of their row counts
    [alloc_local / (d1*d2)], of extent [alloc_local]; sizes are 64-bit. *)
Definition rows_of_rank (e : env) (d0 d1 d2 r : Z) : Z :=
  to_size_t (fftw_mpi_local_size_3d e r d0 d1 d2) / (d1 * d2).

Definition fft_definition (e : env) (d0 d1 d2 : Z)
  : list Z * list Z * list Z :=
  let alloc_local := fftw_mpi_local_size_3d e (wrank e) d0 d1 d2 in
  let x_off :=
    to_size_t (sum_ranks (rows_of_rank e d0 d1 d2) (Z.to_nat (wrank e))) in
  ([to_size_t (d0 * d1 * d2)],
   [to_size_t (x_off * d1 * d2)],
   [to_size_t alloc_local]).

(** Lines 154-155: the slabs of this rank, for the u and the v family of a
    step. *)
Definition slab_u (e : env) (c : step_content) : (Z * Z * Z) * (Z * Z * Z) :=
  let '(u0, d1, d2) := Shape c "u_real" in
  get_starts_counts_3d_decomp u0 d1 d2 (comm_size e) (rank e).

Definition slab_v (e : env) (c : step_content) : (Z * Z * Z) * (Z * Z * Z) :=
  let '(v0, v1, v2) := Shape c "v_real" in
  get_starts_counts_3d_decomp v0 v1 v2 (comm_size e) (rank e).

(** Lines 158-169 and 260-263: the four blocks that a step reads, each
    with the selection of the slab of its own family. *)
Definition step_blocks (e : env) (c : step_content) : fields :=
  {| u_real_data := Get c "u_real" (slab_u e c).1 (slab_u e c).2;
     u_imag_data := Get c "u_imag" (slab_u e c).1 (slab_u e c).2;
     v_real_data := Get c "v_real" (slab_v e c).1 (slab_v e c).2;
     v_imag_data := Get c "v_imag" (slab_v e c).1 (slab_v e c).2 |}.

(** The process group has no more ranks than the two field families of a
    step have rows. *)
Definition group_fits (e : env) (c : step_content) : Prop :=
  comm_size e <= (Shape c "u_real").1.1
  /\ comm_size e <= (Shape c "v_real").1.1.

(** So it is for every step the stream delivers. *)
Definition steps_fit (e : env) (script : list reply) : Prop :=
  Forall (fun r => match r with Step c => group_fits e c | _ => True end)
    script.

(** The same process when [fftw_alloc_complex] returns [NULL]. *)
Definition without_memory (e : env) : env :=
  {| wrank := wrank e; rank := rank e; comm_size := comm_size e;
     fftw_mpi_local_size_3d := fftw_mpi_local_size_3d e;
     alloc_ok := false; fftw_execute := fftw_execute e;
     fresh_complex := fresh_complex e |}.

(** What the loop keeps true of [step_num] and the workspace. *)
Definition counted (st : state) : Prop :=
  0 <= step_num st /\ (ws st <> None -> 1 <= step_num st).

(** The workspace exists exactly once the first-step block is behind. *)
Definition coherent (st : state) : Prop :=
  ws st = None <-> firstStep st = true.

(** The calls that end a run which returns. *)
Definition release_calls (t : StepStatus) : list event :=
  [EvBeginStep t; EvClose Reader; EvClose Writer; EvFree; EvFree;
   EvDestroyPlan; EvFinalize].

(** The first [p] entries exist in both fields and in the buffer. *)
Definition fits (re im : list double) (buf : list fftw_complex) (p : Z)
  : Prop :=
  p <= Z.of_nat (length re) /\ p <= Z.of_nat (length im)
  /\ p <= Z.of_nat (length buf).

End DriverProps.
Import DriverProps.

(** ** Events by the place of the program that issues them *)

Module Origin.

Inductive origin :=
| Startup | Abort | Poll | Setup | Banner | Decompose | Select | Read
| Transform | Output | Shutdown.

(** [Startup]: lines 59-117; [Abort]: the [MPI_Abort] calls; [Poll]:
    lines 123-133; [Setup]: the first-step block; [Banner]: line 137;
    [Decompose]: the report of the calculator; [Select]: lines 158-169;
    [Read]: lines 260-266; [Transform]: lines 284 and 309; [Output]:
    lines 319-330; [Shutdown]: lines 334-342. *)
Definition origin_of (ev : event) : origin :=
  match ev with
  | EvPrint MsgNotEnoughArguments | EvPrint MsgUsage | EvOpen _ _ => Startup
  | EvAbort => Abort
  | EvBeginStep _ | EvSleep _ => Poll
  | EvPrint (MsgShapeU _) | EvPrint (MsgSizeMismatch _)
  | EvPrint MsgAllocFailed
  | EvLocalSize _ _ _ | EvAllocComplex _ | EvReserve _ _ | EvPlan _ _ _
  | EvScan _ | EvDefineVariable _ _ _ _ => Setup
  | EvPrint (MsgStep _) => Banner
  | EvPrint MsgTooManyProcesses => Decompose
  | EvSetSelection _ _ _ => Select
  | EvGet _ | EvEndStep => Read
  | EvExecute _ => Transform
  | EvWriterBeginStep | EvPut _ _ | EvWriterEndStep => Output
  | EvClose _ | EvFree | EvDestroyPlan | EvFinalize => Shutdown
  end.

(** All the events of [es] come from the places [os]. *)
Definition from (os : list origin) (es : list event) : Prop :=
  Forall (fun ev => In (origin_of ev) os) es.

End Origin.
Import Origin.

(** ** Concrete runs *)

Module Sample.

(** A transport that delivers, for a selection, the row-major block of a
    field whose value at [(i, j, k)] is [1000*tag + (i*d1 + j)*d2 + k]. *)
Definition block (f : Z -> Z -> Z -> double) (start count : Z * Z * Z)
  : list double :=
  let '(s0, s1, s2) := start in
  let '(c0, c1, c2) := count in
  i ← seqZ 0 c0; j ← seqZ 0 c1; k ← seqZ 0 c2;
  [f (s0 + i) (s1 + j) (s2 + k)].

Definition tag (var : string) : Z :=
  if String.eqb var "u_real" then 1
  else if String.eqb var "u_imag" then 2
  else if String.eqb var "v_real" then 3 else 4.

Definition content (d0 d1 d2 : Z) : step_content :=
  {| Shape := fun _ => (d0, d1, d2);
     Get := fun var =>
       block (fun i j k => 1000 * tag var + (i * d1 + j) * d2 + k) |}.

(** A process of rank [r] among [P], FFTW reporting the local sizes
    [sizes] rank by rank; the transform is a stand-in that copies its
    input. *)
Definition process (r P : Z) (sizes : list Z) : env :=
  {| wrank := r; rank := r; comm_size := P;
     fftw_mpi_local_size_3d := fun r' _ _ _ => nth (Z.to_nat r') sizes 0;
     alloc_ok := true;
     fftw_execute := fun input i =>
       match vec_get input i with Some c => c | None => (0, 0) end;
     fresh_complex := fun _ => (0, 0) |}.

End Sample.

(** * Proofs *)

(** Closed comparisons of numerals are settled by evaluation. *)
Ltac concrete_bound :=
  repeat split; vm_compute; first [reflexivity | intro; discriminate].

(** ** Machine integers *)

Lemma to_size_t_range z : 0 <= to_size_t z < SIZE_MOD.
Proof. unfold to_size_t, SIZE_MOD. apply Z.mod_pos_bound. lia. Qed.

Lemma to_size_t_small z : 0 <= z < SIZE_MOD -> to_size_t z = z.
Proof. intros H. unfold to_size_t. apply Z.mod_small. exact H. Qed.

(** ** The decomposition calculator *)

Section DecompFacts.
Variables d0 d1 d2 P : Z.
Hypothesis P_pos : 0 < P.
Hypothesis d0_nonneg : 0 <= d0.

Let q := d0 / P.
Let rem := d0 mod P.

Lemma count0_eq r : count0 d0 d1 d2 P r = q + (if r <? rem then 1 else 0).
Proof. reflexivity. Qed.

Lemma start0_eq r : start0 d0 d1 d2 P r = r * q + Z.min r rem.
Proof. reflexivity. Qed.

Lemma rem_range : 0 <= rem < P.
Proof. apply Z.mod_pos_bound. exact P_pos. Qed.

Lemma q_nonneg : 0 <= q.
Proof. apply Z.div_pos; lia. Qed.

Lemma d0_split : d0 = P * q + rem.
Proof. apply Z.div_mod. lia. Qed.

Lemma start0_succ r :
  0 <= r -> start0 d0 d1 d2 P (r + 1) = start0 d0 d1 d2 P r + count0 d0 d1 d2 P r.
Proof.
  intros Hr. rewrite !start0_eq, count0_eq.
  destruct (Z.ltb_spec r rem); lia.
Qed.

Lemma start0_zero : start0 d0 d1 d2 P 0 = 0.
Proof. rewrite start0_eq. pose proof rem_range. lia. Qed.

Lemma start0_prefix_sum (n : nat) :
  start0 d0 d1 d2 P (Z.of_nat n) = sum_ranks (count0 d0 d1 d2 P) n.
Proof.
  induction n as [|n IH].
  - apply start0_zero.
  - cbn [sum_ranks]. rewrite <- IH.
    replace (Z.of_nat (S n)) with (Z.of_nat n + 1) by lia.
    apply start0_succ. lia.
Qed.

Lemma start0_top : start0 d0 d1 d2 P P = d0.
Proof.
  rewrite start0_eq. pose proof rem_range. pose proof d0_split. lia.
Qed.

Lemma count0_bounds r : q <= count0 d0 d1 d2 P r <= q + 1.
Proof. rewrite count0_eq. destruct (r <? rem); lia. Qed.

Lemma start0_mono r s :
  0 <= r -> r <= s -> start0 d0 d1 d2 P r <= start0 d0 d1 d2 P s.
Proof.
  intros Hr Hrs. rewrite !start0_eq. pose proof q_nonneg. nia.
Qed.

(** With no more ranks than rows, no rank is left without a row. *)
Lemma count0_pos r : P <= d0 -> 0 < count0 d0 d1 d2 P r.
Proof.
  intros HP. rewrite count0_eq.
  assert (1 <= q) by (apply Z.div_le_lower_bound; lia).
  destruct (r <? rem); lia.
Qed.

(** Every row below the start of rank [n] is in the slab of a lower rank. *)
Lemma row_owner_exists (n : nat) x :
  0 <= x < start0 d0 d1 d2 P (Z.of_nat n) ->
  exists r, 0 <= r < Z.of_nat n /\
    start0 d0 d1 d2 P r <= x < start0 d0 d1 d2 P r + count0 d0 d1 d2 P r.
Proof.
  induction n as [|n IH]; intros Hx.
  - change (Z.of_nat 0) with 0 in Hx. rewrite start0_zero in Hx. lia.
  - replace (Z.of_nat (S n)) with (Z.of_nat n + 1) in * by lia.
    rewrite start0_succ in Hx by lia.
    destruct (Z.lt_ge_cases x (start0 d0 d1 d2 P (Z.of_nat n))) as [Hlt|Hge].
    + destruct IH as (r & Hr & Hin); [lia|]. exists r. split; [lia|exact Hin].
    + exists (Z.of_nat n). split; lia.
Qed.

(** Slabs of different ranks do not share a row. *)
Lemma row_owner_unique r s x :
  0 <= r -> 0 <= s ->
  start0 d0 d1 d2 P r <= x < start0 d0 d1 d2 P r + count0 d0 d1 d2 P r ->
  start0 d0 d1 d2 P s <= x < start0 d0 d1 d2 P s + count0 d0 d1 d2 P s ->
  r = s.
Proof.
  intros Hr Hs Hxr Hxs.
  rewrite <- !start0_succ in * by lia.
  destruct (Z.lt_trichotomy r s) as [Hlt|[Heq|Hgt]]; [|exact Heq|].
  - pose proof (start0_mono (r + 1) s). lia.
  - pose proof (start0_mono (s + 1) r). lia.
Qed.

End DecompFacts.

(** C1.  For every global extent [d0] and process-group size [P] with
    [P <= d0] (a process group has at least one rank), the slabs returned
    by the decomposition calculator along dimension 0 satisfy: the counts
    of all ranks sum to [d0]; the start of a rank is the sum of the counts
    of the lower ranks; the count of a rank is within 1 of [d0 / P]; and
    the intervals [start, start + count) of consecutive ranks follow one
    another from 0 to [d0], so that every row of [0, d0) lies in the slab
    of exactly one rank. *)
Theorem decomposition_tiles_dimension0 (d0 d1 d2 P : Z) :
  0 < P -> P <= d0 -> balanced_tiling d0 d1 d2 P.
Proof.
  intros HP Hd. assert (Hd0 : 0 <= d0) by lia.
  unfold balanced_tiling. cbv zeta.
  repeat apply conj.
  - rewrite <- start0_prefix_sum, Z2Nat.id by lia.
    apply start0_top; assumption.
  - intros r Hr. rewrite <- start0_prefix_sum, Z2Nat.id by lia.
    reflexivity.
  - intros r Hr.
    pose proof (d0_split d0 P) as Hs.
    pose proof (rem_range d0 P) as Hrem.
    rewrite count0_eq. destruct (r <? d0 mod P); split; lia.
  - apply start0_zero; assumption.
  - intros r Hr. apply start0_succ; lia.
  - rewrite <- start0_succ by lia.
    replace (P - 1 + 1) with P by lia. apply start0_top; assumption.
  - intros x Hx.
    destruct (row_owner_exists d0 d1 d2 P HP (Z.to_nat P) x)
      as (r & Hr & Hin).
    { rewrite Z2Nat.id by lia. rewrite start0_top by assumption. exact Hx. }
    rewrite Z2Nat.id in Hr by lia.
    exists r. repeat split; try lia.
    intros s Hs Hsx.
    apply (row_owner_unique d0 d1 d2 P) with (x := x); (assumption || lia).
Qed.

Lemma decomposition_tiles_dimension0_witness :
  0 < 2 /\ 2 <= 9 /\ balanced_tiling 9 4 4 2.
Proof.
  split; [lia|]. split; [lia|].
  apply (decomposition_tiles_dimension0 9 4 4 2); lia.
Defined.

(** The scenarios of the specification for the calculator. *)
Example decomp_scenario_A :
  get_starts_counts_3d_decomp 8 4 4 2 0 = ((0, 0, 0), (4, 4, 4))
  /\ get_starts_counts_3d_decomp 8 4 4 2 1 = ((4, 0, 0), (4, 4, 4)).
Proof. split; reflexivity. Qed.

Example decomp_scenario_B :
  count0 9 1 1 2 0 = 5 /\ count0 9 1 1 2 1 = 4.
Proof. split; reflexivity. Qed.

(** ** Arrays and loops *)

Lemma vec_get_lookup {A} (v : list A) i :
  0 <= i -> vec_get v i = v !! Z.to_nat i.
Proof.
  intros Hi. unfold vec_get. destruct (Z.ltb_spec i 0); [lia|reflexivity].
Qed.

Lemma vec_get_in_range {A} (v : list A) i :
  0 <= i < Z.of_nat (length v) -> exists x, vec_get v i = Some x.
Proof.
  intros Hi. rewrite vec_get_lookup by lia.
  apply lookup_lt_is_Some_2. lia.
Qed.

Lemma vec_get_Some_range {A} (v : list A) i x :
  vec_get v i = Some x -> 0 <= i < Z.of_nat (length v).
Proof.
  unfold vec_get. destruct (Z.ltb_spec i 0) as [Hneg|Hpos]; [discriminate|].
  intros Hx. apply lookup_lt_Some in Hx. lia.
Qed.

Lemma vec_set_in_range {A} (v : list A) i x :
  0 <= i < Z.of_nat (length v) ->
  vec_set v i x = Some (<[Z.to_nat i := x]> v).
Proof.
  intros Hi. unfold vec_set.
  destruct (Z.leb_spec 0 i); [|lia].
  destruct (Z.ltb_spec i (Z.of_nat (length v))); [reflexivity|lia].
Qed.

Lemma vec_get_insert_eq {A} (v : list A) i x :
  0 <= i < Z.of_nat (length v) ->
  vec_get (<[Z.to_nat i := x]> v) i = Some x.
Proof.
  intros Hi. rewrite vec_get_lookup by lia.
  apply list_lookup_insert_eq. lia.
Qed.

Lemma vec_get_insert_ne {A} (v : list A) i n x :
  0 <= i -> i <> n ->
  vec_get (<[Z.to_nat i := x]> v) n = vec_get v n.
Proof.
  intros Hi Hne. unfold vec_get.
  destruct (Z.ltb_spec n 0); [reflexivity|].
  apply list_lookup_insert_ne. lia.
Qed.

(** The invariant rule of the counted loop. *)
Lemma iterate_invariant {S} (Inv : Z -> S -> Prop) (body : Z -> S -> option S) :
  forall (n : nat) (i : Z) (s : S),
    Inv i s ->
    (forall j t, i <= j < i + Z.of_nat n -> Inv j t ->
       exists t', body j t = Some t' /\ Inv (j + 1) t') ->
    exists s', iterate n i body s = Some s' /\ Inv (i + Z.of_nat n) s'.
Proof.
  induction n as [|n IH]; intros i s Hinv Hbody.
  - exists s. split; [reflexivity|]. replace (i + Z.of_nat 0) with i by lia.
    exact Hinv.
  - destruct (Hbody i s) as (t & Ht & Hinv'); [lia|exact Hinv|].
    destruct (IH (i + 1) t Hinv') as (s' & Hs' & Hfin).
    { intros j u Hj. apply Hbody. lia. }
    exists s'. split.
    + cbn [iterate]. rewrite Ht. exact Hs'.
    + replace (i + Z.of_nat (Datatypes.S n)) with (i + 1 + Z.of_nat n) by lia.
      exact Hfin.
Qed.

Lemma for_int_invariant {S} (Inv : Z -> S -> Prop) (body : Z -> S -> option S)
    (bound : Z) (s : S) :
  0 <= bound <= INT_MAX ->
  Inv 0 s ->
  (forall j t, 0 <= j < bound -> Inv j t ->
     exists t', body j t = Some t' /\ Inv (j + 1) t') ->
  exists s', for_int bound body s = Some s' /\ Inv bound s'.
Proof.
  intros Hb Hinv Hbody. unfold for_int.
  destruct (Z.leb_spec bound INT_MAX); [|lia].
  destruct (iterate_invariant Inv body (Z.to_nat bound) 0 s Hinv)
    as (s' & Hs' & Hfin).
  { intros j t Hj. apply Hbody. lia. }
  exists s'. split; [exact Hs'|].
  replace (0 + Z.of_nat (Z.to_nat bound)) with bound in Hfin by lia.
  exact Hfin.
Qed.

Lemma for_size_t_invariant {S} (Inv : Z -> S -> Prop)
    (body : Z -> S -> option S) (bound : Z) (s : S) :
  0 <= bound ->
  Inv 0 s ->
  (forall j t, 0 <= j < bound -> Inv j t ->
     exists t', body j t = Some t' /\ Inv (j + 1) t') ->
  exists s', for_size_t bound body s = Some s' /\ Inv bound s'.
Proof.
  intros Hb Hinv Hbody. unfold for_size_t.
  destruct (iterate_invariant Inv body (Z.to_nat bound) 0 s Hinv)
    as (s' & Hs' & Hfin).
  { intros j t Hj. apply Hbody. lia. }
  exists s'. split; [exact Hs'|].
  replace (0 + Z.of_nat (Z.to_nat bound)) with bound in Hfin by lia.
  exact Hfin.
Qed.

(** ** The buffer stager *)

Section StageIn.
Variables (d1 d2 : Z) (re im : list double) (buf : list fftw_complex).

Lemma staged_start : staged re im buf 0 buf.
Proof.
  split; [reflexivity|]. split; [intros n Hn; lia|reflexivity].
Qed.

(** One execution of the loop body stages the entry at its index. *)
Lemma stage_in_body_step i j k p b :
  p = i * d1 * d2 + j * d2 + k ->
  0 <= p < SIZE_MOD ->
  p < Z.of_nat (length re) -> p < Z.of_nat (length im) ->
  p < Z.of_nat (length buf) ->
  staged re im buf p b ->
  exists b', stage_in_body d1 d2 re im i j k b = Some b'
             /\ staged re im buf (p + 1) b'.
Proof.
  intros Hp Hrange Hre Him Hbuf (Hlen & Hlow & Hhigh).
  unfold stage_in_body, flat_index. rewrite <- Hp.
  rewrite to_size_t_small by exact Hrange.
  destruct (vec_get_in_range re p) as (r & Hr); [lia|].
  destruct (vec_get_in_range im p) as (m & Hm); [lia|].
  destruct (vec_get_in_range b p) as (c & Hc); [lia|].
  rewrite Hr. unfold set_re. rewrite Hc.
  rewrite vec_set_in_range by lia.
  rewrite Hm. unfold set_im.
  rewrite vec_get_insert_eq by lia.
  rewrite vec_set_in_range by (rewrite length_insert; lia).
  eexists. split; [reflexivity|].
  split; [rewrite !length_insert; exact Hlen|]. split.
  - intros n Hn. destruct (Z.eq_dec n p) as [->|Hne].
    + exists r, m. repeat split; try assumption.
      apply vec_get_insert_eq. rewrite length_insert. lia.
    + destruct (Hlow n) as (r' & m' & Hr' & Hm' & Hb'); [lia|].
      exists r', m'. repeat split; try assumption.
      rewrite !vec_get_insert_ne by lia. exact Hb'.
  - intros n Hn. rewrite !vec_get_insert_ne by lia. apply Hhigh. lia.
Qed.

End StageIn.

Lemma slab_index_bound x_dim d1 d2 i j k :
  0 <= i < x_dim -> 0 <= j < d1 -> 0 <= k < d2 ->
  0 <= i * d1 * d2 + j * d2 + k < x_dim * d1 * d2.
Proof.
  intros Hi Hj Hk.
  assert (0 <= j * d2 + k < d1 * d2) by nia.
  assert ((i + 1) * (d1 * d2) <= x_dim * (d1 * d2)) by nia.
  nia.
Qed.

(** The three nested loops stage the whole slab, in index order. *)
Lemma stage_in_staged (x_dim d1 d2 : Z) (re im : list double)
    (buf : list fftw_complex) :
  0 <= x_dim <= INT_MAX -> 0 <= d1 <= INT_MAX -> 0 <= d2 <= INT_MAX ->
  x_dim * d1 * d2 < SIZE_MOD ->
  x_dim * d1 * d2 <= Z.of_nat (length re) ->
  x_dim * d1 * d2 <= Z.of_nat (length im) ->
  x_dim * d1 * d2 <= Z.of_nat (length buf) ->
  exists buf', stage_in x_dim d1 d2 re im buf = Some buf'
               /\ staged re im buf (x_dim * d1 * d2) buf'.
Proof.
  intros Hx H1 H2 Hmod Hre Him Hbuf. unfold stage_in.
  apply (for_int_invariant
           (fun i b => staged re im buf (i * d1 * d2) b)); [exact Hx| |].
  { replace (0 * d1 * d2) with 0 by lia. apply staged_start. }
  intros i b Hi Hb.
  replace ((i + 1) * d1 * d2) with (i * d1 * d2 + d1 * d2) by lia.
  apply (for_int_invariant
           (fun j b => staged re im buf (i * d1 * d2 + j * d2) b));
    [exact H1| |].
  { replace (i * d1 * d2 + 0 * d2) with (i * d1 * d2) by lia. exact Hb. }
  intros j b' Hj Hb'.
  replace (i * d1 * d2 + (j + 1) * d2) with (i * d1 * d2 + j * d2 + d2) by lia.
  apply (for_int_invariant
           (fun k b => staged re im buf (i * d1 * d2 + j * d2 + k) b));
    [exact H2| |].
  { replace (i * d1 * d2 + j * d2 + 0) with (i * d1 * d2 + j * d2) by lia.
    exact Hb'. }
  intros k b'' Hk Hb''.
  pose proof (slab_index_bound x_dim d1 d2 i j k Hi Hj Hk) as Hidx.
  replace (i * d1 * d2 + j * d2 + (k + 1))
    with (i * d1 * d2 + j * d2 + k + 1) by lia.
  apply stage_in_body_step; try reflexivity; try assumption; lia.
Qed.

Section StageOut.
Variables (out : list fftw_complex) (re im : list double).

Lemma unstaged_start : unstaged out re im 0 (re, im).
Proof.
  repeat split; intros; lia.
Qed.

Lemma stage_out_body_step p s :
  0 <= p ->
  p < Z.of_nat (length out) ->
  p < Z.of_nat (length re) -> p < Z.of_nat (length im) ->
  unstaged out re im p s ->
  exists s', stage_out_body out p s = Some s'
             /\ unstaged out re im (p + 1) s'.
Proof.
  destruct s as [sr si].
  intros Hp Hout Hre Him (Hl1 & Hl2 & Hlow & Hhigh).
  unfold stage_out_body. cbn [fst snd] in *.
  destruct (vec_get_in_range out p) as (c & Hc); [lia|].
  rewrite Hc. rewrite !vec_set_in_range by lia.
  eexists. split; [reflexivity|]. unfold unstaged. cbn [fst snd].
  split; [rewrite length_insert; exact Hl1|].
  split; [rewrite length_insert; exact Hl2|]. split.
  - intros n Hn. destruct (Z.eq_dec n p) as [->|Hne].
    + exists c. rewrite !vec_get_insert_eq by lia. auto.
    + destruct (Hlow n) as (c' & Hc' & Hr' & Hm'); [lia|].
      exists c'. rewrite !vec_get_insert_ne by lia. auto.
  - intros n Hn. rewrite !vec_get_insert_ne by lia. apply Hhigh. lia.
Qed.

(** The output loop copies the whole local allocation. *)
Lemma stage_out_unstaged alloc_local :
  to_size_t alloc_local <= Z.of_nat (length out) ->
  to_size_t alloc_local <= Z.of_nat (length re) ->
  to_size_t alloc_local <= Z.of_nat (length im) ->
  exists s, stage_out alloc_local out re im = Some s
            /\ unstaged out re im (to_size_t alloc_local) s.
Proof.
  intros Hout Hre Him. unfold stage_out.
  pose proof (to_size_t_range alloc_local) as Hr.
  apply (for_size_t_invariant (unstaged out re im)); [lia| |].
  { apply unstaged_start. }
  intros j t Hj Ht. apply stage_out_body_step; try assumption; lia.
Qed.

End StageOut.

Lemma staged_copies_slab x_dim d1 d2 re im buf buf' :
  0 <= d1 -> 0 <= d2 ->
  staged re im buf (x_dim * d1 * d2) buf' ->
  copies_slab x_dim d1 d2 re im buf buf'.
Proof.
  intros H1 H2 (Hlen & Hlow & Hhigh).
  split; [exact Hlen|]. split.
  - intros i j k Hi Hj Hk. apply Hlow.
    apply slab_index_bound; assumption.
  - intros i j k Hi Hj Hk. apply Hhigh.
    assert (0 <= d1 * d2) by nia.
    assert (x_dim * (d1 * d2) <= i * (d1 * d2))
      by (apply Z.mul_le_mono_nonneg_r; lia).
    assert (0 <= j * d2) by nia.
    lia.
Qed.

(** X14.  Lines 270-281 and 295-306, as loops on arrays: when the extents
    are within [int] and the slab [x_dim * d1 * d2] is within the four
    fields and the buffer, the stage-in loops copy element (i,j,k) of the
    real field and of the imaginary field into the complex buffer at
    flattened index [i*d1*d2 + j*d2 + k], real part into component 0 and
    imaginary part into component 1; they cover the extents
    [(x_dim, d1, d2)] and touch no entry of a row [i >= x_dim].  This
    holds for the u pair and, on the buffer the u pair was staged into,
    for the v pair. *)
Theorem stage_in_copies_local_slab (x_dim d1 d2 : Z)
    (u_real_data u_imag_data v_real_data v_imag_data : list double)
    (buf : list fftw_complex) :
  0 <= x_dim <= INT_MAX -> 0 <= d1 <= INT_MAX -> 0 <= d2 <= INT_MAX ->
  x_dim * d1 * d2 < SIZE_MOD ->
  x_dim * d1 * d2 <= Z.of_nat (length u_real_data) ->
  x_dim * d1 * d2 <= Z.of_nat (length u_imag_data) ->
  x_dim * d1 * d2 <= Z.of_nat (length v_real_data) ->
  x_dim * d1 * d2 <= Z.of_nat (length v_imag_data) ->
  x_dim * d1 * d2 <= Z.of_nat (length buf) ->
  exists in_u in_v,
    stage_in x_dim d1 d2 u_real_data u_imag_data buf = Some in_u
    /\ copies_slab x_dim d1 d2 u_real_data u_imag_data buf in_u
    /\ stage_in x_dim d1 d2 v_real_data v_imag_data in_u = Some in_v
    /\ copies_slab x_dim d1 d2 v_real_data v_imag_data in_u in_v.
Proof.
  intros Hx H1 H2 Hmod Hur Hui Hvr Hvi Hbuf.
  destruct (stage_in_staged x_dim d1 d2 u_real_data u_imag_data buf)
    as (in_u & Hu & Hsu); try assumption.
  assert (Hlen : length in_u = length buf) by apply Hsu.
  destruct (stage_in_staged x_dim d1 d2 v_real_data v_imag_data in_u)
    as (in_v & Hv & Hsv); try assumption; [rewrite Hlen; exact Hbuf|].
  exists in_u, in_v.
  split; [exact Hu|]. split; [apply staged_copies_slab; (assumption || lia)|].
  split; [exact Hv|]. apply staged_copies_slab; (assumption || lia).
Qed.

Lemma stage_in_copies_local_slab_witness :
  exists in_u in_v,
    stage_in 2 2 2 [1; 2; 3; 4; 5; 6; 7; 8] [11; 12; 13; 14; 15; 16; 17; 18]
      (repeat (0, 0) 10) = Some in_u
    /\ copies_slab 2 2 2 [1; 2; 3; 4; 5; 6; 7; 8]
         [11; 12; 13; 14; 15; 16; 17; 18] (repeat (0, 0) 10) in_u
    /\ stage_in 2 2 2 [21; 22; 23; 24; 25; 26; 27; 28]
         [31; 32; 33; 34; 35; 36; 37; 38] in_u = Some in_v
    /\ copies_slab 2 2 2 [21; 22; 23; 24; 25; 26; 27; 28]
         [31; 32; 33; 34; 35; 36; 37; 38] in_u in_v.
Proof.
  apply (stage_in_copies_local_slab 2 2 2); concrete_bound.
Defined.

Example stage_in_example :
  stage_in 2 1 2 [1; 2; 3; 4] [5; 6; 7; 8] (repeat (0, 0) 5)
  = Some [(1, 5); (2, 6); (3, 7); (4, 8); (0, 0)].
Proof. reflexivity. Qed.

(** Reading past the end of a field is undefined. *)
Example stage_in_out_of_range :
  stage_in 2 1 2 [1; 2; 3] [5; 6; 7; 8] (repeat (0, 0) 5) = None.
Proof. reflexivity. Qed.

(** The row count the program derives from the local allocation never
    overruns the allocation. *)
Lemma x_dim_fits (n d1 d2 : Z) :
  0 <= n -> 0 < d1 -> 0 < d2 -> 0 <= n / d1 / d2 /\ n / d1 / d2 * d1 * d2 <= n.
Proof.
  intros Hn H1 H2.
  assert (0 <= n / d1) by (apply Z.div_pos; lia).
  assert (0 <= n / d1 / d2) by (apply Z.div_pos; lia).
  pose proof (Z.mul_div_le n d1 H1).
  pose proof (Z.mul_div_le (n / d1) d2 H2).
  split; [assumption|]. nia.
Qed.

(** C5.  For every pair of fields (f, g) of local slab extents
    [(x_dim, d1, d2)], staging them into the complex buffer and staging
    back reproduces (f, g) bit for bit over the local slab: for all
    [i < x_dim], [j < d1], [k < d2], the real and the imaginary output at
    flat index [i*d1*d2 + j*d2 + k] are the entries of f and of g at that
    index. *)
Theorem stage_round_trip (x_dim d1 d2 alloc_local : Z) (f g : list double)
    (buf : list fftw_complex) (re0 im0 : list double) :
  0 <= x_dim <= INT_MAX -> 0 <= d1 <= INT_MAX -> 0 <= d2 <= INT_MAX ->
  x_dim * d1 * d2 <= to_size_t alloc_local ->
  x_dim * d1 * d2 <= Z.of_nat (length f) ->
  x_dim * d1 * d2 <= Z.of_nat (length g) ->
  to_size_t alloc_local <= Z.of_nat (length buf) ->
  to_size_t alloc_local <= Z.of_nat (length re0) ->
  to_size_t alloc_local <= Z.of_nat (length im0) ->
  exists staged_buf re im,
    stage_in x_dim d1 d2 f g buf = Some staged_buf
    /\ stage_out alloc_local staged_buf re0 im0 = Some (re, im)
    /\ forall i j k, 0 <= i < x_dim -> 0 <= j < d1 -> 0 <= k < d2 ->
         exists r m,
           vec_get f (i * d1 * d2 + j * d2 + k) = Some r
           /\ vec_get g (i * d1 * d2 + j * d2 + k) = Some m
           /\ vec_get re (i * d1 * d2 + j * d2 + k) = Some r
           /\ vec_get im (i * d1 * d2 + j * d2 + k) = Some m.
Proof.
  intros Hx H1 H2 Hfit Hf Hg Hbuf Hre Him.
  pose proof (to_size_t_range alloc_local) as Hn.
  destruct (stage_in_staged x_dim d1 d2 f g buf)
    as (b & Hb & (Hlen & Hlow & _)); try assumption; try lia.
  destruct (stage_out_unstaged b re0 im0 alloc_local)
    as ([re im] & Hs & (_ & _ & Hcopy & _)); try assumption;
    [rewrite Hlen; exact Hbuf|].
  exists b, re, im. split; [exact Hb|]. split; [exact Hs|].
  intros i j k Hi Hj Hk.
  pose proof (slab_index_bound x_dim d1 d2 i j k Hi Hj Hk) as Hidx.
  destruct (Hlow _ Hidx) as (r & m & Hr & Hm & Hrm).
  destruct (Hcopy (i * d1 * d2 + j * d2 + k)) as (c & Hc & Hc1 & Hc2); [lia|].
  cbn [fst snd] in Hc1, Hc2.
  rewrite Hrm in Hc. injection Hc as <-.
  exists r, m. auto.
Qed.

Lemma stage_round_trip_witness :
  exists staged_buf re im,
    stage_in 2 2 2 [1; 2; 3; 4; 5; 6; 7; 8] [11; 12; 13; 14; 15; 16; 17; 18]
      (repeat (0, 0) 10) = Some staged_buf
    /\ stage_out 10 staged_buf (repeat 0 10) (repeat 0 10) = Some (re, im)
    /\ forall i j k, 0 <= i < 2 -> 0 <= j < 2 -> 0 <= k < 2 ->
         exists r m,
           vec_get [1; 2; 3; 4; 5; 6; 7; 8] (i * 2 * 2 + j * 2 + k) = Some r
           /\ vec_get [11; 12; 13; 14; 15; 16; 17; 18] (i * 2 * 2 + j * 2 + k)
              = Some m
           /\ vec_get re (i * 2 * 2 + j * 2 + k) = Some r
           /\ vec_get im (i * 2 * 2 + j * 2 + k) = Some m.
Proof.
  apply (stage_round_trip 2 2 2 10); concrete_bound.
Defined.

Example stage_round_trip_example :
  (do b <- stage_in 2 1 2 [1; 2; 3; 4] [5; 6; 7; 8] (repeat (0, 0) 5);
   stage_out 5 b (repeat 9 5) (repeat 9 5))
  = Some ([1; 2; 3; 4; 0], [5; 6; 7; 8; 0]).
Proof. reflexivity. Qed.

(** ** The staging loops: when they are defined *)

Lemma iterate_partial {S} (Inv : Z -> S -> Prop) (body : Z -> S -> option S) :
  forall (n : nat) (i : Z) (s s' : S),
    Inv i s ->
    (forall j t t', i <= j < i + Z.of_nat n -> Inv j t ->
       body j t = Some t' -> Inv (j + 1) t') ->
    iterate n i body s = Some s' -> Inv (i + Z.of_nat n) s'.
Proof.
  induction n as [|n IH]; intros i s s' Hinv Hbody.
  - cbn [iterate]. intros [= <-]. replace (i + Z.of_nat 0) with i by lia.
    exact Hinv.
  - cbn [iterate]. destruct (body i s) as [t|] eqn:Et; [|discriminate].
    intros Hrest.
    replace (i + Z.of_nat (Datatypes.S n)) with (i + 1 + Z.of_nat n) by lia.
    apply (IH (i + 1) t s'); [|intros j u u' Hj; apply Hbody; lia|exact Hrest].
    apply (Hbody i s t); [lia|exact Hinv|exact Et].
Qed.

Lemma for_int_partial {S} (Inv : Z -> S -> Prop) (body : Z -> S -> option S)
    (bound : Z) (s s' : S) :
  0 <= bound ->
  Inv 0 s ->
  (forall j t t', 0 <= j < bound -> Inv j t ->
     body j t = Some t' -> Inv (j + 1) t') ->
  for_int bound body s = Some s' -> Inv bound s'.
Proof.
  intros Hb Hinv Hbody. unfold for_int.
  destruct (bound <=? INT_MAX); [|discriminate]. intros Hit.
  replace bound with (0 + Z.of_nat (Z.to_nat bound)) at 1 by lia.
  apply (iterate_partial Inv body _ 0 s s' Hinv); [|exact Hit].
  intros j t t' Hj. apply Hbody. lia.
Qed.

Lemma for_int_bound {S} (body : Z -> S -> option S) (bound : Z) (s s' : S) :
  for_int bound body s = Some s' -> bound <= INT_MAX.
Proof.
  unfold for_int. destruct (Z.leb_spec bound INT_MAX); [auto|discriminate].
Qed.

Lemma vec_set_Some {A} (v v' : list A) i x :
  vec_set v i x = Some v' ->
  0 <= i < Z.of_nat (length v) /\ v' = <[Z.to_nat i := x]> v.
Proof.
  unfold vec_set.
  destruct (Z.leb_spec 0 i); [|discriminate].
  destruct (Z.ltb_spec i (Z.of_nat (length v))); [|discriminate].
  intros [= <-]. split; [lia|reflexivity].
Qed.

(** What one execution of the stage-in body needs, and what it keeps. *)
Lemma stage_in_body_Some d1 d2 re im i j k t t' :
  stage_in_body d1 d2 re im i j k t = Some t' ->
  let idx := flat_index d1 d2 i j k in
  idx < Z.of_nat (length re) /\ idx < Z.of_nat (length im)
  /\ idx < Z.of_nat (length t) /\ length t' = length t.
Proof.
  cbv zeta. unfold stage_in_body, set_re, set_im.
  destruct (vec_get re _) as [r|] eqn:Er; [|discriminate].
  destruct (vec_get t _) as [c|] eqn:Et; [|discriminate].
  destruct (vec_set t _ _) as [t1|] eqn:E1; [|discriminate].
  destruct (vec_get im _) as [m|] eqn:Em; [|discriminate].
  destruct (vec_get t1 _) as [c1|] eqn:Et1; [|discriminate].
  intros E2.
  apply vec_get_Some_range in Er, Em, Et.
  apply vec_set_Some in E1, E2. destruct E1 as [_ ->], E2 as [_ ->].
  rewrite !length_insert. lia.
Qed.

Lemma stage_out_body_Some out p s s' :
  stage_out_body out p s = Some s' ->
  p < Z.of_nat (length out) /\ p < Z.of_nat (length s.1)
  /\ p < Z.of_nat (length s.2)
  /\ length s'.1 = length s.1 /\ length s'.2 = length s.2.
Proof.
  destruct s as [sr si]. unfold stage_out_body. cbn [fst snd].
  destruct (vec_get out p) as [c|] eqn:Ec; [|discriminate].
  destruct (vec_set sr p _) as [re'|] eqn:Er; [|discriminate].
  destruct (vec_set si p _) as [im'|] eqn:Ei; [|discriminate].
  intros [= <-]. cbn [fst snd].
  apply vec_get_Some_range in Ec.
  apply vec_set_Some in Er, Ei. destruct Er as [? ->], Ei as [? ->].
  rewrite !length_insert. lia.
Qed.

(** The staging loops never change the size of what they write into. *)
Lemma stage_in_length x d1 d2 re im buf buf' :
  stage_in x d1 d2 re im buf = Some buf' -> length buf' = length buf.
Proof.
  unfold stage_in, for_int at 1.
  destruct (x <=? INT_MAX); [|discriminate].
  apply (iterate_partial (fun _ t => length t = length buf)); [reflexivity|].
  intros i t t' _ Ht. unfold for_int at 1.
  destruct (d1 <=? INT_MAX); [|discriminate].
  intros Hj.
  apply (iterate_partial (fun _ u => length u = length buf) _ _ 0 t t' Ht)
    in Hj; [exact Hj|].
  intros j u u' _ Hu. unfold for_int.
  destruct (d2 <=? INT_MAX); [|discriminate]. intros Hk.
  apply (iterate_partial (fun _ v => length v = length buf) _ _ 0 u u' Hu)
    in Hk; [exact Hk|].
  intros k v v' _ Hv Hbody. apply stage_in_body_Some in Hbody.
  destruct Hbody as (_ & _ & _ & ->). exact Hv.
Qed.

Lemma stage_out_length a out re im s :
  stage_out a out re im = Some s ->
  length s.1 = length re /\ length s.2 = length im.
Proof.
  unfold stage_out, for_size_t.
  apply (iterate_partial
           (fun _ t => length t.1 = length re /\ length t.2 = length im));
    [split; reflexivity|].
  intros j t t' _ [H1 H2] Hbody. apply stage_out_body_Some in Hbody.
  destruct Hbody as (_ & _ & _ & -> & ->). split; assumption.
Qed.

(** If the stage-in loops end, the whole slab was within the two fields
    and the buffer. *)
Lemma stage_in_needs_fit (x_dim d1 d2 : Z) (re im : list double)
    (buf buf' : list fftw_complex) :
  0 < x_dim -> 0 < d1 -> 0 < d2 -> x_dim * d1 * d2 < SIZE_MOD ->
  stage_in x_dim d1 d2 re im buf = Some buf' ->
  fits re im buf (x_dim * d1 * d2).
Proof.
  intros Hx H1 H2 Hmod Hsome.
  assert (Hgoal : length buf' = length buf
                  /\ (0 < x_dim -> fits re im buf (x_dim * d1 * d2)));
    [|apply Hgoal; exact Hx].
  revert Hsome. unfold stage_in.
  apply (for_int_partial
           (fun i t => length t = length buf
                       /\ (0 < i -> fits re im buf (i * d1 * d2))));
    [lia|split; [reflexivity|lia]|].
  intros i t t' Hi [Hlen _] Hj.
  assert (Hin : length t' = length buf
                /\ (0 < d1 -> fits re im buf (i * d1 * d2 + d1 * d2))).
  { revert Hj.
    apply (for_int_partial
             (fun j u => length u = length buf
                         /\ (0 < j -> fits re im buf (i * d1 * d2 + j * d2))));
      [lia|split; [exact Hlen|lia]|].
    intros j u u' Hj [Hlenu _] Hk.
    assert (Hk' : length u' = length buf
                  /\ (0 < d2 -> fits re im buf (i * d1 * d2 + j * d2 + d2))).
    { revert Hk.
      apply (for_int_partial
               (fun k v => length v = length buf
                           /\ (0 < k ->
                               fits re im buf (i * d1 * d2 + j * d2 + k))));
        [lia|split; [exact Hlenu|lia]|].
      intros k v v' Hk [Hlenv _] Hbody.
      apply stage_in_body_Some in Hbody. cbv zeta in Hbody.
      pose proof (slab_index_bound x_dim d1 d2 i j k Hi Hj Hk) as Hidx.
      unfold flat_index in Hbody. rewrite to_size_t_small in Hbody by lia.
      destruct Hbody as (Hre & Him & Hv & Hlen').
      split; [congruence|]. intros _. unfold fits. rewrite <- Hlenv. lia. }
    destruct Hk' as [Hl Hf]. split; [exact Hl|]. intros _.
    replace (i * d1 * d2 + (j + 1) * d2) with (i * d1 * d2 + j * d2 + d2)
      by lia.
    apply Hf. exact H2. }
  destruct Hin as [Hl Hf]. split; [exact Hl|]. intros _.
  replace ((i + 1) * d1 * d2) with (i * d1 * d2 + d1 * d2) by lia.
  apply Hf. exact H1.
Qed.

(** X7.  With positive extents within [int] and a slab of fewer than 2^64
    entries, the stage-in loops run to their end exactly when the slab
    [x_dim * d1 * d2] is within both fields and within the buffer; any
    shorter field or buffer is read or written past its end. *)
Theorem stage_in_defined_iff (x_dim d1 d2 : Z) (re im : list double)
    (buf : list fftw_complex) :
  0 < x_dim <= INT_MAX -> 0 < d1 <= INT_MAX -> 0 < d2 <= INT_MAX ->
  x_dim * d1 * d2 < SIZE_MOD ->
  (stage_in x_dim d1 d2 re im buf <> None
   <-> x_dim * d1 * d2 <= Z.of_nat (length re)
       /\ x_dim * d1 * d2 <= Z.of_nat (length im)
       /\ x_dim * d1 * d2 <= Z.of_nat (length buf)).
Proof.
  intros Hx H1 H2 Hmod. split.
  - destruct (stage_in x_dim d1 d2 re im buf) as [buf'|] eqn:E;
      [intros _|congruence].
    apply (stage_in_needs_fit x_dim d1 d2 re im buf buf'); (lia || assumption).
  - intros (Hre & Him & Hbuf).
    destruct (stage_in_staged x_dim d1 d2 re im buf) as (buf' & -> & _);
      (lia || assumption || discriminate).
Qed.

Lemma stage_in_defined_iff_witness :
  stage_in 2 1 2 [1; 2; 3] [5; 6; 7; 8] (repeat (0, 0) 5) <> None
  <-> 2 * 1 * 2 <= Z.of_nat (length [1; 2; 3])
      /\ 2 * 1 * 2 <= Z.of_nat (length [5; 6; 7; 8])
      /\ 2 * 1 * 2 <= Z.of_nat (length (repeat ((0, 0) : fftw_complex) 5)).
Proof.
  apply (stage_in_defined_iff 2 1 2 [1; 2; 3] [5; 6; 7; 8] (repeat (0, 0) 5));
    concrete_bound.
Defined.

(** ** The output loop (lines 287-291 and 312-316) *)

(** X8.  The output loop copies the whole local allocation, beyond the slab as
    well: every entry below [alloc_local] of the two result vectors is the
    real, resp. imaginary, part of the same entry of [out], the entries
    from [alloc_local] on are left alone and no vector changes size. *)
Theorem stage_out_copies_allocation (alloc_local : Z)
    (out : list fftw_complex) (re im : list double) :
  to_size_t alloc_local <= Z.of_nat (length out) ->
  to_size_t alloc_local <= Z.of_nat (length re) ->
  to_size_t alloc_local <= Z.of_nat (length im) ->
  exists re' im',
    stage_out alloc_local out re im = Some (re', im')
    /\ length re' = length re /\ length im' = length im
    /\ (forall p, 0 <= p < to_size_t alloc_local ->
          exists c, vec_get out p = Some c
                    /\ vec_get re' p = Some c.1 /\ vec_get im' p = Some c.2)
    /\ (forall p, to_size_t alloc_local <= p ->
          vec_get re' p = vec_get re p /\ vec_get im' p = vec_get im p).
Proof.
  intros Hout Hre Him.
  destruct (stage_out_unstaged out re im alloc_local Hout Hre Him)
    as ([re' im'] & Hs & H).
  exists re', im'. split; [exact Hs|exact H].
Qed.

Lemma stage_out_copies_allocation_witness :
  exists re' im',
    stage_out 3 [(1, 2); (3, 4); (5, 6); (7, 8)] [0; 0; 0; 9] [0; 0; 0; 9]
    = Some (re', im')
    /\ length re' = 4%nat /\ length im' = 4%nat
    /\ (forall p, 0 <= p < to_size_t 3 ->
          exists c, vec_get [(1, 2); (3, 4); (5, 6); (7, 8)] p = Some c
                    /\ vec_get re' p = Some c.1 /\ vec_get im' p = Some c.2)
    /\ (forall p, to_size_t 3 <= p ->
          vec_get re' p = vec_get [0; 0; 0; 9] p
          /\ vec_get im' p = vec_get [0; 0; 0; 9] p).
Proof.
  apply (stage_out_copies_allocation 3 [(1, 2); (3, 4); (5, 6); (7, 8)]
           [0; 0; 0; 9] [0; 0; 0; 9]); concrete_bound.
Defined.

(** ** One transform (lines 268-291 and 293-316) *)

Lemma storage_length {A} (fresh : Z -> A) n :
  length (storage fresh n) = Z.to_nat n.
Proof. unfold storage. rewrite length_fmap. apply length_seqZ. Qed.

Lemma execute_length e input out : length (execute e input out) = length out.
Proof.
  unfold execute. rewrite length_fmap, length_seqZ. apply Nat2Z.id.
Qed.

(** On vectors of exactly [alloc_local] entries the output loop leaves
    nothing of their former contents. *)
Lemma stage_out_full a (out : list fftw_complex) (re im : list double) :
  length out = Z.to_nat (to_size_t a) ->
  length re = Z.to_nat (to_size_t a) ->
  length im = Z.to_nat (to_size_t a) ->
  stage_out a out re im = Some (out.*1, out.*2).
Proof.
  intros Hout Hre Him. pose proof (to_size_t_range a) as Hn.
  destruct (stage_out_unstaged out re im a) as ([re' im'] & -> & H);
    try lia.
  destruct H as (Hl1 & Hl2 & Hcopy & _). cbn [fst snd] in *.
  f_equal. f_equal; apply list_eq; intros i; rewrite list_lookup_fmap.
  - destruct (Nat.lt_ge_cases i (length out)) as [Hi|Hi].
    + destruct (Hcopy (Z.of_nat i)) as (c & Hc & Hr & _); [lia|].
      rewrite vec_get_lookup in Hc by lia. rewrite vec_get_lookup in Hr by lia.
      rewrite Nat2Z.id in Hc, Hr.
      rewrite Hr. symmetry.
      transitivity (fst <$> Some c); [f_equal; exact Hc|reflexivity].
    + rewrite (lookup_ge_None_2 re') by (rewrite Hl1, Hre, <- Hout; exact Hi).
      symmetry.
      transitivity (fst <$> (None : option fftw_complex));
        [f_equal; apply lookup_ge_None_2; exact Hi|reflexivity].
  - destruct (Nat.lt_ge_cases i (length out)) as [Hi|Hi].
    + destruct (Hcopy (Z.of_nat i)) as (c & Hc & _ & Hm); [lia|].
      rewrite vec_get_lookup in Hc by lia. rewrite vec_get_lookup in Hm by lia.
      rewrite Nat2Z.id in Hc, Hm.
      rewrite Hm. symmetry.
      transitivity (snd <$> Some c); [f_equal; exact Hc|reflexivity].
    + rewrite (lookup_ge_None_2 im') by (rewrite Hl2, Him, <- Hout; exact Hi).
      symmetry.
      transitivity (snd <$> (None : option fftw_complex));
        [f_equal; apply lookup_ge_None_2; exact Hi|reflexivity].
Qed.

(** X9.  A transform that completes, on buffers and result vectors of
    [alloc_local] entries: the input buffer holds the staged pair, [out]
    is the transform of that buffer entry by entry, and the two result
    vectors are exactly the real and the imaginary parts of [out], over
    the whole allocation; nothing of their former contents is left. *)
Theorem transform_pair_outputs (e : env) (x_dim alloc_local d1 d2 : Z)
    (re_data im_data : list double) (input out input' out' : list fftw_complex)
    (fft_real fft_imag re im : list double) :
  length out = Z.to_nat (to_size_t alloc_local) ->
  length fft_real = Z.to_nat (to_size_t alloc_local) ->
  length fft_imag = Z.to_nat (to_size_t alloc_local) ->
  (transform_pair e x_dim alloc_local d1 d2 re_data im_data input out
     fft_real fft_imag).2 = Ok (input', out', (re, im)) ->
  stage_in x_dim d1 d2 re_data im_data input = Some input'
  /\ length input' = length input
  /\ out' = fftw_execute e input' <$> seqZ 0 (to_size_t alloc_local)
  /\ re = out'.*1 /\ im = out'.*2.
Proof.
  intros Hout Hre Him. unfold transform_pair.
  destruct (stage_in x_dim d1 d2 re_data im_data input) as [b|] eqn:Ein;
    [|discriminate].
  cbn [defined bind ret emit fst snd].
  rewrite stage_out_full by (rewrite ?execute_length; assumption).
  cbn [defined bind ret emit fst snd]. intros [= <- <- <- <-].
  pose proof (to_size_t_range alloc_local) as Hn.
  repeat split; try reflexivity.
  - apply stage_in_length in Ein. exact Ein.
  - unfold execute. rewrite Hout, Z2Nat.id by lia. reflexivity.
Qed.


Lemma transform_pair_outputs_witness :
  let staged := [(1, 5); (2, 6); (3, 7); (4, 8)] in
  stage_in 2 1 2 [1; 2; 3; 4] [5; 6; 7; 8] (repeat (0, 0) 4) = Some staged
  /\ length staged = length (repeat ((0, 0) : fftw_complex) 4)
  /\ staged
     = fftw_execute (Sample.process 0 1 [4]) staged <$> seqZ 0 (to_size_t 4)
  /\ [1; 2; 3; 4] = staged.*1 /\ [5; 6; 7; 8] = staged.*2.
Proof.
  cbv zeta.
  apply (transform_pair_outputs (Sample.process 0 1 [4]) 2 4 1 2
           [1; 2; 3; 4] [5; 6; 7; 8] (repeat (0, 0) 4) (repeat (0, 0) 4)
           [(1, 5); (2, 6); (3, 7); (4, 8)] [(1, 5); (2, 6); (3, 7); (4, 8)]
           (repeat 0 4) (repeat 0 4) [1; 2; 3; 4] [5; 6; 7; 8]);
    reflexivity.
Defined.

Example transform_pair_example :
  (transform_pair (Sample.process 0 1 [4]) 2 4 1 2 [1; 2; 3; 4] [5; 6; 7; 8]
     (repeat (0, 0) 4) (repeat (0, 0) 4) (repeat 0 4) (repeat 0 4)).2
  = Ok ([(1, 5); (2, 6); (3, 7); (4, 8)], [(1, 5); (2, 6); (3, 7); (4, 8)],
        ([1; 2; 3; 4], [5; 6; 7; 8])).
Proof. reflexivity. Qed.
(** ** Logged computations *)

Lemma bind_events {A B} (m : M A) (f : A -> M B) :
  (bind m f).1
  = m.1 ++ match m.2 with Ok a => (f a).1 | Halt _ => [] end.
Proof.
  destruct m as [es [a|s]]; cbn [bind fst snd].
  - destruct (f a); reflexivity.
  - symmetry. apply app_nil_r.
Qed.

Lemma bind_result {A B} (m : M A) (f : A -> M B) :
  (bind m f).2 = match m.2 with Ok a => (f a).2 | Halt s => Halt s end.
Proof.
  destruct m as [es [a|s]]; cbn [bind fst snd]; [|reflexivity].
  destruct (f a); reflexivity.
Qed.

Lemma bind_all {A B} (P : event -> Prop) (m : M A) (f : A -> M B) :
  Forall P m.1 -> (forall a, m.2 = Ok a -> Forall P (f a).1) ->
  Forall P (bind m f).1.
Proof.
  intros Hm Hf. rewrite bind_events. apply Forall_app. split; [exact Hm|].
  destruct m.2 as [a|s]; [apply Hf; reflexivity|constructor].
Qed.

Lemma defined_events {A} (o : option A) : (defined o).1 = [].
Proof. destruct o; reflexivity. Qed.

(** ** Events by class *)

Lemma plain_incl es : plain es -> plain_or_defining es.
Proof. induction 1; constructor; auto. Qed.

Lemma plain_incl_transforming es : plain es -> plain_or_transforming es.
Proof. induction 1; constructor; auto. Qed.

Lemma count_app p es es' : count p (es ++ es') = (count p es + count p es')%nat.
Proof. unfold count. rewrite List.filter_app. apply length_app. Qed.

Lemma count_not_class k p es :
  (forall ev, p ev = true -> class_of ev = k) ->
  Forall (fun ev => class_of ev <> k) es -> count p es = 0%nat.
Proof.
  intros Hp. induction 1 as [|ev es Hev _ IH]; [reflexivity|].
  unfold count in *. cbn [List.filter].
  destruct (p ev) eqn:E; [|exact IH].
  apply Hp in E. contradiction.
Qed.

Lemma is_writer_begin_writing ev :
  is_writer_begin ev = true -> class_of ev = Writing.
Proof. destruct ev; cbn; congruence. Qed.

Lemma is_sleep_polling ev : is_sleep ev = true -> class_of ev = Polling.
Proof. destruct ev; cbn; congruence. Qed.

Lemma is_begin_polling s ev : is_begin s ev = true -> class_of ev = Polling.
Proof. destruct ev, s; cbn; try congruence; destruct st; congruence. Qed.

Lemma sleeps_app es es' : sleeps (es ++ es') = sleeps es ++ sleeps es'.
Proof. apply omap_app. Qed.

Lemma sleeps_not_polling es :
  Forall (fun ev => class_of ev <> Polling) es -> sleeps es = [].
Proof.
  induction 1 as [|ev es Hev _ IH]; [reflexivity|].
  unfold sleeps in *. cbn [omap list_omap]. rewrite IH.
  destruct ev; try reflexivity. cbn in Hev. congruence.
Qed.

Lemma definitions_of_app var es es' :
  definitions_of var (es ++ es')
  = definitions_of var es ++ definitions_of var es'.
Proof. apply omap_app. Qed.

Lemma definitions_of_not_defining var es :
  Forall (fun ev => class_of ev <> Defining) es -> definitions_of var es = [].
Proof.
  induction 1 as [|ev es Hev _ IH]; [reflexivity|].
  unfold definitions_of in *. cbn [omap list_omap]. rewrite IH.
  destruct ev; try reflexivity. cbn in Hev. congruence.
Qed.

Lemma written_vars_not_writing cur es rest :
  Forall (fun ev => class_of ev <> Writing) es ->
  written_vars cur (es ++ rest) = written_vars cur rest.
Proof.
  induction 1 as [|ev es Hev _ IH]; [reflexivity|].
  cbn [app written_vars]. destruct ev; try exact IH; cbn in Hev; congruence.
Qed.


(** ** Events by origin *)

Lemma from_app os es es' : from os es -> from os es' -> from os (es ++ es').
Proof. intros H H'. apply Forall_app. split; assumption. Qed.

Lemma from_incl os os' es :
  (forall o, In o os -> In o os') -> from os es -> from os' es.
Proof. intros Hin. induction 1; constructor; auto. Qed.

Lemma count_cons p ev es :
  count p (ev :: es) = ((if p ev then 1 else 0) + count p es)%nat.
Proof. unfold count. cbn [List.filter]. destruct (p ev); reflexivity. Qed.

Lemma count_from p os es :
  (forall ev, In (origin_of ev) os -> p ev = false) ->
  from os es -> count p es = 0%nat.
Proof.
  intros Hp. induction 1 as [|ev es Hev _ IH]; [reflexivity|].
  rewrite count_cons, (Hp ev Hev). exact IH.
Qed.

Lemma omap_from {A} (g : event -> option A) os es :
  (forall ev, In (origin_of ev) os -> g ev = None) ->
  from os es -> omap g es = [].
Proof.
  intros Hg. induction 1 as [|ev es Hev _ IH]; [reflexivity|].
  cbn [omap list_omap]. rewrite (Hg ev Hev). exact IH.
Qed.

Lemma count_origin p o os es :
  (forall ev, p ev = true -> origin_of ev = o) ->
  ~ In o os -> from os es -> count p es = 0%nat.
Proof.
  intros Hp Hno. apply count_from. intros ev Hin.
  destruct (p ev) eqn:E; [|reflexivity].
  apply Hp in E. congruence.
Qed.

Lemma omap_origin {A} (g : event -> option A) o os es :
  (forall ev, origin_of ev <> o -> g ev = None) ->
  ~ In o os -> from os es -> omap g es = [].
Proof.
  intros Hg Hno. apply omap_from. intros ev Hin. apply Hg. congruence.
Qed.

Ltac by_cases_on_event :=
  let ev := fresh "ev" in
  intros ev;
  destruct ev as [[]| | | | | | | | | | | | | | | | | | | | |];
  cbn; congruence.

Lemma is_abort_origin ev : is_abort ev = true -> origin_of ev = Abort.
Proof. revert ev. by_cases_on_event. Qed.

Lemma is_plan_origin ev : is_plan ev = true -> origin_of ev = Setup.
Proof. revert ev. by_cases_on_event. Qed.

Lemma is_alloc_origin ev : is_alloc ev = true -> origin_of ev = Setup.
Proof. revert ev. by_cases_on_event. Qed.

Lemma is_end_step_origin ev : is_end_step ev = true -> origin_of ev = Read.
Proof. revert ev. by_cases_on_event. Qed.

Lemma is_writer_begin_origin ev :
  is_writer_begin ev = true -> origin_of ev = Output.
Proof. revert ev. by_cases_on_event. Qed.

Lemma executes_app es es' : executes (es ++ es') = executes es ++ executes es'.
Proof. apply omap_app. Qed.

Lemma data_put_app var es es' :
  data_put var (es ++ es') = data_put var es ++ data_put var es'.
Proof. apply omap_app. Qed.

Lemma step_banners_app es es' :
  step_banners (es ++ es') = step_banners es ++ step_banners es'.
Proof. apply omap_app. Qed.

Lemma executes_from os es : ~ In Transform os -> from os es -> executes es = [].
Proof. apply omap_origin. by_cases_on_event. Qed.

Lemma definitions_of_from var os es :
  ~ In Setup os -> from os es -> definitions_of var es = [].
Proof. apply omap_origin. by_cases_on_event. Qed.

Lemma step_banners_from os es :
  ~ In Banner os -> from os es -> step_banners es = [].
Proof. apply omap_origin. by_cases_on_event. Qed.

Lemma data_put_from var os es :
  ~ In Output os -> from os es -> data_put var es = [].
Proof. apply omap_origin. by_cases_on_event. Qed.

Lemma from_not_writing os es :
  ~ In Output os -> from os es ->
  Forall (fun ev => class_of ev <> Writing) es.
Proof.
  intros Hno. induction 1 as [|ev es Hev _ IH]; constructor; [|exact IH].
  intros Hw. apply Hno.
  destruct ev; cbn in Hw; try discriminate; exact Hev.
Qed.

Lemma from_not_polling os es :
  ~ In Poll os -> from os es ->
  Forall (fun ev => class_of ev <> Polling) es.
Proof.
  intros Hno. induction 1 as [|ev es Hev _ IH]; constructor; [|exact IH].
  intros Hw. apply Hno.
  destruct ev; cbn in Hw; try discriminate; exact Hev.
Qed.

Lemma from_not_defining os es :
  ~ In Setup os -> from os es ->
  Forall (fun ev => class_of ev <> Defining) es.
Proof.
  intros Hno. induction 1 as [|ev es Hev _ IH]; constructor; [|exact IH].
  intros Hw. apply Hno.
  destruct ev; cbn in Hw; try discriminate; exact Hev.
Qed.

Ltac not_in := cbn; intuition discriminate.

Ltac origin_list :=
  unfold from; cbn [emit halt ret fst];
  repeat (constructor; [cbn; tauto|]);
  try constructor.

(** ** The parts of a step *)

Lemma step_banner_from e st : from [Banner] (step_banner e st).1.
Proof. unfold step_banner. destruct (rank e =? 0); origin_list. Qed.

Lemma select_inputs_from su cu sv cv :
  from [Select] (select_inputs su cu sv cv).1.
Proof. origin_list. Qed.

Lemma read_inputs_from c su cu sv cv :
  from [Read; Transform] (read_inputs c su cu sv cv).1.
Proof. origin_list. Qed.

Lemma transform_pair_from e x a d1 d2 re im input out fr fi :
  from [Read; Transform]
    (transform_pair e x a d1 d2 re im input out fr fi).1.
Proof.
  unfold transform_pair.
  destruct (stage_in x d1 d2 re im input) as [input'|]; [|constructor].
  cbn [defined bind ret emit fst snd app].
  destruct (stage_out a _ fr fi) as [fft|]; origin_list.
Qed.

Lemma write_step_events fft_only w d :
  (write_step fft_only w d).1
  = [EvWriterBeginStep;
     EvPut "u_fft_real" (u_fft_real w); EvPut "u_fft_imag" (u_fft_imag w);
     EvPut "v_fft_real" (v_fft_real w); EvPut "v_fft_imag" (v_fft_imag w)]
    ++ (if fft_only then []
        else [EvPut "u_real" (u_real_data d); EvPut "u_imag" (u_imag_data d);
              EvPut "v_real" (v_real_data d); EvPut "v_imag" (v_imag_data d)])
    ++ [EvWriterEndStep].
Proof. destruct fft_only; reflexivity. Qed.

Lemma write_step_result fft_only w d : (write_step fft_only w d).2 = Ok tt.
Proof. destruct fft_only; reflexivity. Qed.

Lemma write_step_from fft_only w d :
  from [Output] (write_step fft_only w d).1.
Proof. rewrite write_step_events. destruct fft_only; origin_list. Qed.

Lemma first_step_block_from e fft_only su sv :
  from [Setup; Abort] (first_step_block e fft_only su sv).1.
Proof.
  destruct su as [[d0 d1] d2]. unfold first_step_block. cbv zeta.
  apply bind_all; [origin_list|intros _ _].
  apply bind_all; [destruct (_ =? _); origin_list|intros _ _].
  apply bind_all; [|intros _ _].
  { destruct (alloc_ok e); [origin_list|].
    apply bind_all; [origin_list|intros _ _; origin_list]. }
  apply bind_all; [origin_list|intros _ _].
  apply bind_all; [destruct (_ || _); origin_list|intros _ _].
  apply bind_all; [origin_list|intros _ _].
  apply bind_all; [destruct fft_only; origin_list|intros _ _].
  origin_list.
Qed.

Lemma first_step_block_from_ok e fft_only su sv :
  alloc_ok e = true -> from [Setup] (first_step_block e fft_only su sv).1.
Proof.
  intros Hok. destruct su as [[d0 d1] d2]. unfold first_step_block.
  rewrite Hok. cbv zeta.
  apply bind_all; [origin_list|intros _ _].
  apply bind_all; [destruct (_ =? _); origin_list|intros _ _].
  apply bind_all; [origin_list|intros _ _].
  apply bind_all; [origin_list|intros _ _].
  apply bind_all; [destruct (_ || _); origin_list|intros _ _].
  apply bind_all; [origin_list|intros _ _].
  apply bind_all; [destruct fft_only; origin_list|intros _ _].
  origin_list.
Qed.

Lemma step_workspace_from e st su sv :
  from [Setup; Abort] (step_workspace e st su sv).1.
Proof.
  unfold step_workspace. destruct (firstStep st).
  - apply first_step_block_from.
  - rewrite defined_events. constructor.
Qed.

(** The events of a step after the decomposition: the selections, the
    first-step block if it is entered, and the reading and transforming. *)
Lemma process_slabs_from e st c su cu sv cv :
  exists post,
    (process_slabs e st c su cu sv cv).1
    = (select_inputs su cu sv cv).1
        ++ (step_workspace e st (Shape c "u_real") (Shape c "v_real")).1
        ++ post
    /\ from [Read; Transform] post
    /\ (forall s,
          (step_workspace e st (Shape c "u_real") (Shape c "v_real")).2
          = Halt s ->
          post = [] /\ (process_slabs e st c su cu sv cv).2 = Halt s).
Proof.
  unfold process_slabs. cbv zeta.
  destruct (Shape c "u_real") as [[u0 d1] d2] eqn:Eu.
  rewrite !bind_events, !bind_result. cbn [select_inputs emit snd].
  eexists. split; [reflexivity|].
  destruct (step_workspace e st _ _).2 as [w|s].
  - split; [|discriminate].
    apply bind_all; [apply read_inputs_from|]. intros d _.
    apply bind_all; [apply transform_pair_from|].
    intros [[in_u out_u] fft_u] _.
    apply bind_all; [apply transform_pair_from|].
    intros [[in_v out_v] fft_v] _.
    constructor.
  - split; [constructor|]. intros s' [= <-]. split; reflexivity.
Qed.

(** A step is stopped by the calculator, for a process group larger than
    dimension 0 of one of the two families, or goes on with the slabs of
    this rank. *)
Lemma compute_step_cases e st c :
  (~ group_fits e c
   /\ compute_step e st c
      = ((step_banner e st).1 ++ [EvPrint MsgTooManyProcesses; EvAbort],
         Halt Aborted))
  \/ (group_fits e c
      /\ compute_step e st c
         = ((step_banner e st).1
              ++ (process_slabs e st c (slab_u e c).1 (slab_u e c).2
                    (slab_v e c).1 (slab_v e c).2).1,
            (process_slabs e st c (slab_u e c).1 (slab_u e c).2
               (slab_v e c).1 (slab_v e c).2).2)).
Proof.
  unfold group_fits, slab_u, slab_v, compute_step, decompose.
  destruct (Shape c "u_real") as [[u0 d1] d2].
  destruct (Shape c "v_real") as [[v0 v1] v2]. cbn [fst snd].
  destruct (Z.ltb_spec u0 (comm_size e)) as [Hu|Hu].
  { left. split; [lia|]. unfold step_banner.
    destruct (rank e =? 0); reflexivity. }
  destruct (Z.ltb_spec v0 (comm_size e)) as [Hv|Hv].
  { left. split; [lia|]. unfold step_banner.
    destruct (get_starts_counts_3d_decomp u0 d1 d2 _ _) as [su cu].
    destruct (rank e =? 0); reflexivity. }
  right. split; [lia|].
  destruct (get_starts_counts_3d_decomp u0 d1 d2 _ _) as [su cu].
  destruct (get_starts_counts_3d_decomp v0 v1 v2 _ _) as [sv cv].
  cbn [fst snd ret bind]. unfold step_banner.
  destruct (process_slabs e st c su cu sv cv) as [es r].
  destruct (rank e =? 0); cbn [emit bind fst snd app]; destruct r; reflexivity.
Qed.

(** The events of the computing part of a step, by origin. *)
Lemma compute_step_from e st c :
  exists tl,
    (compute_step e st c).1 = (step_banner e st).1 ++ tl
    /\ ((~ group_fits e c
         /\ tl = [EvPrint MsgTooManyProcesses; EvAbort]
         /\ (compute_step e st c).2 = Halt Aborted)
        \/ (group_fits e c
            /\ exists sels post,
                 tl = sels
                        ++ (step_workspace e st (Shape c "u_real")
                              (Shape c "v_real")).1
                        ++ post
                 /\ from [Select] sels /\ from [Read; Transform] post
                 /\ (forall s,
                       (step_workspace e st (Shape c "u_real")
                          (Shape c "v_real")).2 = Halt s ->
                       post = [] /\ (compute_step e st c).2 = Halt s))).
Proof.
  destruct (compute_step_cases e st c) as [[Hno ->]|[Hfit ->]].
  - eexists. split; [reflexivity|]. left. repeat split. exact Hno.
  - eexists. split; [reflexivity|]. right. split; [exact Hfit|].
    destruct (process_slabs_from e st c (slab_u e c).1 (slab_u e c).2
                (slab_v e c).1 (slab_v e c).2) as (post & -> & Hpost & Hhalt).
    exists (select_inputs (slab_u e c).1 (slab_u e c).2
              (slab_v e c).1 (slab_v e c).2).1, post.
    split; [reflexivity|]. split; [apply select_inputs_from|].
    split; [exact Hpost|]. cbn [snd]. exact Hhalt.
Qed.

Lemma compute_step_origins e st c :
  from [Banner; Decompose; Select; Read; Transform; Setup; Abort]
    (compute_step e st c).1.
Proof.
  destruct (compute_step_from e st c) as (tl & -> & Htl).
  pose proof (step_banner_from e st) as Hb.
  pose proof (step_workspace_from e st (Shape c "u_real") (Shape c "v_real"))
    as Hw.
  apply from_app; [revert Hb; apply from_incl; cbn; tauto|].
  destruct Htl as [(_ & -> & _)|(_ & sels & post & -> & Hsel & Hpost & _)].
  - origin_list.
  - repeat apply from_app.
    + revert Hsel. apply from_incl. cbn. tauto.
    + revert Hw. apply from_incl. cbn. tauto.
    + revert Hpost. apply from_incl. cbn. tauto.
Qed.

Lemma compute_step_not_polling e st c :
  Forall (fun ev => class_of ev <> Polling) (compute_step e st c).1.
Proof.
  generalize (compute_step_origins e st c). apply from_not_polling. not_in.
Qed.

Lemma compute_step_not_writing e st c :
  Forall (fun ev => class_of ev <> Writing) (compute_step e st c).1.
Proof.
  generalize (compute_step_origins e st c). apply from_not_writing. not_in.
Qed.

(** ** How a step can stop the process *)

Lemma bind_halt_with {A B} (P : run_status -> Prop) (m : M A) (f : A -> M B) :
  (forall s, m.2 = Halt s -> P s) ->
  (forall a s, (f a).2 = Halt s -> P s) ->
  forall s, (bind m f).2 = Halt s -> P s.
Proof.
  intros Hm Hf s. rewrite bind_result.
  destruct m.2 as [a|s'] eqn:E; [apply Hf|].
  intros [= <-]. apply Hm. reflexivity.
Qed.

Ltac never_halts := intros ?; cbn [emit ret snd]; discriminate.

Lemma defined_halt {A} (o : option A) s :
  (defined o).2 = Halt s -> s = Undefined.
Proof. destruct o; cbn; [discriminate|]. intros [= <-]. reflexivity. Qed.

(** The first-step block stops the process for a failed allocation
    ([Aborted]) or a zero extent ([Undefined]) only. *)
Lemma first_step_block_halt e fft_only su sv s :
  (first_step_block e fft_only su sv).2 = Halt s ->
  s = Undefined \/ (s = Aborted /\ alloc_ok e = false).
Proof.
  destruct su as [[d0 d1] d2]. unfold first_step_block. cbv zeta.
  revert s.
  apply bind_halt_with; [never_halts|intros _].
  apply bind_halt_with; [destruct (_ =? _); never_halts|intros _].
  apply bind_halt_with; [|intros _].
  { destruct (alloc_ok e); [never_halts|].
    apply bind_halt_with; [never_halts|intros _].
    cbn [halt snd]. intros s [= <-]. right. split; reflexivity. }
  apply bind_halt_with; [never_halts|intros _].
  apply bind_halt_with; [|intros _].
  { destruct (_ || _); [|never_halts]. cbn [halt snd]. intros s [= <-].
    left. reflexivity. }
  apply bind_halt_with; [never_halts|intros _].
  apply bind_halt_with; [destruct fft_only; never_halts|intros _].
  never_halts.
Qed.

Lemma transform_pair_halt e x a d1 d2 re im input out fr fi s :
  (transform_pair e x a d1 d2 re im input out fr fi).2 = Halt s ->
  s = Undefined.
Proof.
  unfold transform_pair. revert s.
  apply bind_halt_with; [intros s; apply defined_halt|intros input'].
  apply bind_halt_with; [never_halts|intros _].
  apply bind_halt_with; [intros s; apply defined_halt|intros fft].
  never_halts.
Qed.

Lemma process_slabs_halt e st c su cu sv cv s :
  (process_slabs e st c su cu sv cv).2 = Halt s ->
  s = Undefined
  \/ (s = Aborted /\ alloc_ok e = false /\ firstStep st = true).
Proof.
  unfold process_slabs. cbv zeta.
  destruct (Shape c "u_real") as [[u0 d1] d2].
  revert s.
  apply bind_halt_with; [never_halts|intros _].
  apply bind_halt_with; [|intros w].
  { intros s. unfold step_workspace. destruct (firstStep st).
    - intros H. apply first_step_block_halt in H. tauto.
    - intros H. apply defined_halt in H. tauto. }
  apply bind_halt_with; [never_halts|intros d].
  apply bind_halt_with;
    [intros s H; apply transform_pair_halt in H; tauto|].
  intros [[in_u out_u] fft_u].
  apply bind_halt_with;
    [intros s H; apply transform_pair_halt in H; tauto|].
  intros [[in_v out_v] fft_v].
  never_halts.
Qed.

(** A step stops the process as undefined, or by one of two calls of
    [MPI_Abort]: that of the calculator or that of line 189. *)
Lemma compute_step_halt e st c s :
  (compute_step e st c).2 = Halt s ->
  s = Undefined
  \/ (s = Aborted /\ ~ group_fits e c)
  \/ (s = Aborted /\ group_fits e c /\ alloc_ok e = false
      /\ firstStep st = true).
Proof.
  destruct (compute_step_cases e st c) as [[Hno ->]|[Hfit ->]]; cbn [snd].
  - intros [= <-]. right. left. split; [reflexivity|exact Hno].
  - intros H. apply process_slabs_halt in H.
    destruct H as [->|(-> & Hok & Hfirst)]; [left; reflexivity|].
    right. right. split; [reflexivity|]. split; [exact Hfit|].
    split; assumption.
Qed.

(** A computation that stops the process never leaves it [Running]. *)
Lemma compute_step_halts e st c s :
  (compute_step e st c).2 = Halt s -> s <> Running.
Proof.
  intros H. apply compute_step_halt in H.
  destruct H as [->|[(-> & _)|(-> & _)]]; discriminate.
Qed.

(** A step that gets as far as writing had its group within the rows and
    its first-step block, if entered, completed. *)
Lemma compute_step_ok e st c w d :
  (compute_step e st c).2 = Ok (w, d) ->
  group_fits e c
  /\ exists w0,
       (step_workspace e st (Shape c "u_real") (Shape c "v_real")).2 = Ok w0.
Proof.
  destruct (compute_step_from e st c) as (tl & _ & Htl).
  destruct Htl as [(_ & _ & ->)|(Hfit & sels & post & _ & _ & _ & Hhalt)];
    [discriminate|].
  intros Hok. split; [exact Hfit|].
  destruct (step_workspace e st _ _).2 as [w0|s] eqn:E;
    [exists w0; reflexivity|].
  destruct (Hhalt s eq_refl) as [_ Hs]. congruence.
Qed.

Lemma step_body_events e st c :
  (step_body e st c).1
  = (compute_step e st c).1
    ++ match (compute_step e st c).2 with
       | Ok (w, d) => (write_step (output_fft_only st) w d).1
       | Halt _ => []
       end.
Proof.
  unfold step_body. rewrite bind_events.
  destruct (compute_step e st c).2 as [[w d]|s]; [|reflexivity].
  rewrite bind_events, write_step_result. cbn [ret fst]. rewrite app_nil_r.
  reflexivity.
Qed.

Lemma step_body_result e st c :
  (step_body e st c).2
  = match (compute_step e st c).2 with
    | Ok (w, d) =>
        Ok {| status := Running; step_num := step_num st;
              output_fft_only := output_fft_only st;
              firstStep := false; ws := Some w |}
    | Halt s => Halt s
    end.
Proof.
  unfold step_body. rewrite bind_result.
  destruct (compute_step e st c).2 as [[w d]|s]; [|reflexivity].
  rewrite bind_result, write_step_result. reflexivity.
Qed.

Lemma step_body_origins e st c :
  from [Banner; Decompose; Select; Read; Transform; Setup; Abort; Output]
    (step_body e st c).1.
Proof.
  rewrite step_body_events. apply from_app.
  - generalize (compute_step_origins e st c). apply from_incl. cbn. tauto.
  - destruct (compute_step e st c).2 as [[w d]|s]; [|constructor].
    generalize (write_step_from (output_fft_only st) w d).
    apply from_incl. cbn. tauto.
Qed.

Lemma step_body_not_polling e st c :
  Forall (fun ev => class_of ev <> Polling) (step_body e st c).1.
Proof.
  generalize (step_body_origins e st c). apply from_not_polling. not_in.
Qed.
(** ** One iteration of the loop *)

(** The state a step starts from, its counter advanced. *)
Lemma iteration_step e st c :
  let st1 := {| status := Running; step_num := step_num st + 1;
                output_fft_only := output_fft_only st;
                firstStep := firstStep st; ws := ws st |} in
  iteration e st (Step c)
  = if INT_MAX <? step_num st + 1
    then ([EvBeginStep OK], with_status Undefined st1)
    else (EvBeginStep OK :: (step_body e st1 c).1,
          match (step_body e st1 c).2 with
          | Ok st' => st'
          | Halt s => with_status s st1
          end).
Proof.
  cbv zeta. unfold iteration. cbn [step_num].
  destruct (INT_MAX <? step_num st + 1); [reflexivity|].
  destruct (step_body e _ c) as [es [st'|s]]; reflexivity.
Qed.

Lemma iteration_head e st r :
  exists tl, (iteration e st r).1 = EvBeginStep (status_of r) :: tl
    /\ match r with
       | NoStepYet => tl = [EvSleep 1000]
       | _ => Forall (fun ev => class_of ev <> Polling) tl
       end.
Proof.
  destruct r as [c| | |].
  - rewrite iteration_step. cbv zeta.
    destruct (INT_MAX <? step_num st + 1); cbn [fst status_of].
    + eexists. split; [reflexivity|constructor].
    + eexists. split; [reflexivity|apply step_body_not_polling].
  - eexists. split; reflexivity.
  - unfold iteration, shutdown. destruct (ws st); cbn [fst status_of];
      eexists; (split; [reflexivity|]); repeat constructor; discriminate.
  - unfold iteration, shutdown. destruct (ws st); cbn [fst status_of];
      eexists; (split; [reflexivity|]); repeat constructor; discriminate.
Qed.

Lemma iteration_step_num e st r :
  step_num (iteration e st r).2
  = step_num st + match r with Step _ => 1 | _ => 0 end.
Proof.
  destruct r as [c| | |].
  - rewrite iteration_step. cbv zeta.
    destruct (INT_MAX <? step_num st + 1); [reflexivity|]. cbn [snd].
    rewrite step_body_result.
    destruct (compute_step e _ c).2 as [[w d]|s]; reflexivity.
  - cbn. lia.
  - unfold iteration, shutdown. destruct (ws st); cbn; lia.
  - unfold iteration, shutdown. destruct (ws st); cbn; lia.
Qed.

Lemma iteration_flag e st r :
  output_fft_only (iteration e st r).2 = output_fft_only st.
Proof.
  destruct r as [c| | |].
  - rewrite iteration_step. cbv zeta.
    destruct (INT_MAX <? step_num st + 1); [reflexivity|]. cbn [snd].
    rewrite step_body_result.
    destruct (compute_step e _ c).2 as [[w d]|s]; reflexivity.
  - reflexivity.
  - unfold iteration, shutdown. destruct (ws st); reflexivity.
  - unfold iteration, shutdown. destruct (ws st); reflexivity.
Qed.

(** A run goes on only after a step or a wait. *)
Lemma iteration_running e st r :
  status (iteration e st r).2 = Running ->
  match r with
  | Step _ => firstStep (iteration e st r).2 = false
  | NoStepYet => iteration e st r = ([EvBeginStep NotReady; EvSleep 1000], st)
  | _ => False
  end.
Proof.
  destruct r as [c| | |].
  - rewrite iteration_step. cbv zeta.
    destruct (INT_MAX <? step_num st + 1); [discriminate|]. cbn [snd].
    rewrite step_body_result.
    destruct (compute_step e _ c).2 as [[w d]|s] eqn:E; [reflexivity|].
    cbn [with_status status]. intros ->.
    apply compute_step_halts in E. contradiction.
  - reflexivity.
  - unfold iteration, shutdown. destruct (ws st); discriminate.
  - unfold iteration, shutdown. destruct (ws st); discriminate.
Qed.

(** ** The loop *)

Lemma loop_cons e st r rest :
  loop e st (r :: rest)
  = match status (iteration e st r).2 with
    | Running =>
        ((iteration e st r).1 ++ (loop e (iteration e st r).2 rest).1,
         (loop e (iteration e st r).2 rest).2)
    | _ => iteration e st r
    end.
Proof.
  cbn [loop]. destruct (iteration e st r) as [es st']. cbn [fst snd].
  destruct (status st'); try reflexivity.
  destruct (loop e st' rest); reflexivity.
Qed.

Lemma startup_valid e argv :
  (3 <= length argv)%nat ->
  startup e argv
  = ([EvOpen Reader (nth 1 argv EmptyString); EvOpen Writer (nth 2 argv EmptyString)],
     {| status := Running; step_num := 0;
        output_fft_only :=
          if 4 <=? Z.of_nat (length argv)
          then (if String.eqb (nth 3 argv EmptyString) "0" then false else true)
          else true;
        firstStep := true; ws := None |}).
Proof.
  intros H. unfold startup.
  destruct (Z.ltb_spec (Z.of_nat (length argv)) 3); [lia|reflexivity].
Qed.

Lemma main_valid e argv script :
  (3 <= length argv)%nat ->
  main e argv script
  = ((startup e argv).1 ++ (loop e (startup e argv).2 script).1,
     (loop e (startup e argv).2 script).2).
Proof.
  intros H. unfold main. rewrite (startup_valid e argv H). cbn [status fst snd].
  destruct (loop e _ script); reflexivity.
Qed.

(** ** Waiting for the producer *)

Lemma iteration_polling e st r :
  sleeps (iteration e st r).1
  = repeat 1000 (count (is_begin NotReady) (iteration e st r).1)
  /\ Z.of_nat (count (is_begin OK) (iteration e st r).1)
     = match r with Step _ => 1 | _ => 0 end.
Proof.
  destruct (iteration_head e st r) as (tl & -> & Htl).
  rewrite !count_cons.
  destruct r as [c| | |]; cbn [status_of is_begin]; subst;
    try (split; reflexivity);
    rewrite !(count_not_class _ _ tl (is_begin_polling _) Htl);
    change (sleeps (EvBeginStep ?s :: tl)) with (sleeps tl);
    rewrite (sleeps_not_polling tl) by assumption; split; reflexivity.
Qed.

Lemma loop_polling e script :
  forall st,
    sleeps (loop e st script).1
    = repeat 1000 (count (is_begin NotReady) (loop e st script).1)
    /\ step_num (loop e st script).2
       = step_num st + Z.of_nat (count (is_begin OK) (loop e st script).1).
Proof.
  induction script as [|r rest IH]; intros st.
  - cbn. split; [reflexivity|lia].
  - rewrite loop_cons.
    destruct (iteration_polling e st r) as [Hs Hc].
    pose proof (iteration_step_num e st r) as Hn.
    destruct (status (iteration e st r).2);
      try (split; [exact Hs|lia]).
    cbn [fst snd]. destruct (IH (iteration e st r).2) as [IHs IHn].
    rewrite sleeps_app, !count_app, List.repeat_app, Hs, IHs.
    split; [reflexivity|lia].
Qed.

Lemma loop_waiting e st k :
  loop e st (repeat NoStepYet k)
  = (concat (repeat [EvBeginStep NotReady; EvSleep 1000] k), st)
    \/ status st <> Running.
Proof.
  destruct (status st) eqn:E; try (right; discriminate). left.
  induction k as [|k IH]; [reflexivity|].
  cbn [repeat]. rewrite loop_cons. cbn [iteration fst snd]. rewrite E, IH.
  reflexivity.
Qed.

Lemma loop_app_waiting e st k script :
  status st = Running ->
  loop e st (repeat NoStepYet k ++ script)
  = (concat (repeat [EvBeginStep NotReady; EvSleep 1000] k)
       ++ (loop e st script).1,
     (loop e st script).2).
Proof.
  intros E. induction k as [|k IH].
  - cbn [repeat concat app]. destruct (loop e st script); reflexivity.
  - cbn [repeat app]. rewrite loop_cons. cbn [iteration fst snd].
    rewrite E, IH. cbn [fst snd concat]. rewrite <- app_assoc. reflexivity.
Qed.

Lemma sleeps_waiting k :
  sleeps (concat (repeat [EvBeginStep NotReady; EvSleep 1000] k))
  = repeat 1000 k.
Proof. induction k as [|k IH]; [reflexivity|]. cbn. f_equal. exact IH. Qed.

Lemma loop_single e st r :
  (loop e st [r]).1 = (iteration e st r).1
  /\ (loop e st [r]).2 = (iteration e st r).2.
Proof.
  rewrite loop_cons. destruct (status (iteration e st r).2);
    cbn [loop fst snd]; rewrite ?app_nil_r; split; reflexivity.
Qed.

Lemma loop_app e s1 s2 :
  forall st, status st = Running ->
    loop e st (s1 ++ s2)
    = match status (loop e st s1).2 with
      | Running =>
          ((loop e st s1).1 ++ (loop e (loop e st s1).2 s2).1,
           (loop e (loop e st s1).2 s2).2)
      | _ => loop e st s1
      end.
Proof.
  induction s1 as [|r rest IH]; intros st Hrun.
  - cbn [app loop fst snd]. rewrite Hrun. destruct (loop e st s2); reflexivity.
  - cbn [app]. rewrite !loop_cons.
    destruct (status (iteration e st r).2) eqn:E;
      try (rewrite E; reflexivity).
    rewrite IH by exact E. cbn [fst snd].
    destruct (status (loop e (iteration e st r).2 rest).2);
      cbn [fst snd]; rewrite ?app_assoc; reflexivity.
Qed.

(** A [NotReady] answer in the middle of a run: one sleep, and the run
    goes on as without it. *)
Lemma main_not_ready e argv script more :
  (3 <= length argv)%nat ->
  status (main e argv script).2 = Running ->
  (main e argv (script ++ more)).1
  = (main e argv script).1
      ++ (loop e (main e argv script).2 more).1
  /\ main e argv (script ++ NoStepYet :: more)
     = ((main e argv script).1
          ++ [EvBeginStep NotReady; EvSleep 1000]
          ++ (loop e (main e argv script).2 more).1,
        (main e argv (script ++ more)).2).
Proof.
  intros Hargs. rewrite !main_valid by exact Hargs. cbn [fst snd].
  intros Hrun.
  assert (Hst : status (startup e argv).2 = Running)
    by (rewrite startup_valid by exact Hargs; reflexivity).
  rewrite !loop_app by exact Hst. rewrite Hrun. cbn [fst snd].
  rewrite loop_cons. cbn [iteration fst snd]. rewrite Hrun. cbn [fst snd].
  rewrite !app_assoc. split; reflexivity.
Qed.

(** C4.  For every sequence of BeginStep results: whenever the input
    transport reports NotReady, the driver sleeps a fixed interval of
    1000 ms and then calls BeginStep again, the run going on exactly as it
    would have without that answer; the step counter is not advanced
    before an OK status is seen: in every run the counter equals the
    number of OK answers and the sleeps are as many as the NotReady
    answers; after k consecutive NotReady answers followed by OK the
    driver has slept k times and the counter has advanced exactly once. *)
Theorem backoff_until_ready (e : env) (argv : list string) :
  (3 <= length argv)%nat -> polling_discipline e argv.
Proof.
  intros Hargs.
  assert (Hrun : status (startup e argv).2 = Running)
    by (rewrite startup_valid by exact Hargs; reflexivity).
  assert (Hzero : step_num (startup e argv).2 = 0)
    by (rewrite startup_valid by exact Hargs; reflexivity).
  assert (Hopen : sleeps (startup e argv).1 = []
                  /\ forall s, count (is_begin s) (startup e argv).1 = 0%nat).
  { rewrite startup_valid by exact Hargs. split; [reflexivity|].
    intros s. destruct s; reflexivity. }
  destruct Hopen as [Hsl Hcnt].
  repeat apply conj.
  - intros script more Hgo.
    destruct (main_not_ready e argv script more Hargs Hgo) as [H1 H2].
    exists (loop e (main e argv script).2 more).1. split; assumption.
  - intros script r more Hgo.
    destruct (main_not_ready e argv script (r :: more) Hargs Hgo)
      as [_ ->]. cbn [fst].
    destruct (iteration_head e (main e argv script).2 r) as (tl & Htl & _).
    rewrite loop_cons.
    destruct (status (iteration e (main e argv script).2 r).2);
      cbn [fst]; rewrite Htl; eexists; reflexivity.
  - intros script r. subst r. rewrite main_valid by exact Hargs.
    cbn [fst snd].
    destruct (loop_polling e script (startup e argv).2) as [Hs Hn].
    rewrite sleeps_app, !count_app, Hsl, !Hcnt, Hs, Hn, Hzero.
    split; [reflexivity|lia].
  - intros k r. subst r. rewrite main_valid by exact Hargs. cbn [fst snd].
    destruct (loop_waiting e (startup e argv).2 k) as [-> |]; [|contradiction].
    cbn [fst snd]. auto.
  - intros k c r. subst r. rewrite main_valid by exact Hargs.
    rewrite loop_app_waiting by exact Hrun. cbn [fst snd].
    destruct (loop_single e (startup e argv).2 (Step c)) as [-> ->].
    destruct (iteration_head e (startup e argv).2 (Step c))
      as (tl & Htl & Hquiet).
    rewrite iteration_step_num, Hzero, Htl, !sleeps_app, Hsl, sleeps_waiting.
    change (sleeps (EvBeginStep (status_of (Step c)) :: tl)) with (sleeps tl).
    rewrite (sleeps_not_polling tl Hquiet), app_nil_r.
    repeat split. exists tl. split; [reflexivity|].
    apply sleeps_not_polling. exact Hquiet.
Qed.

Lemma backoff_until_ready_witness :
  (3 <= length ["analysis"; "gs.bp"; "fft.bp"])%nat
  /\ polling_discipline (Sample.process 0 2 [32; 32])
       ["analysis"; "gs.bp"; "fft.bp"].
Proof.
  split; [cbn [length]; lia|].
  apply (backoff_until_ready (Sample.process 0 2 [32; 32])
           ["analysis"; "gs.bp"; "fft.bp"]).
  cbn [length]. lia.
Defined.

(** Scenario C of the specification: NotReady three times, then OK. *)
Example scenario_C :
  let r := main (Sample.process 0 2 [32; 32]) ["analysis"; "gs.bp"; "fft.bp"]
             [NoStepYet; NoStepYet; NoStepYet; Step (Sample.content 4 4 4)] in
  sleeps r.1 = [1000; 1000; 1000] /\ step_num r.2 = 1
  /\ count (is_begin OK) r.1 = 1%nat.
Proof. vm_compute. repeat split. Qed.

(** A NotReady answer between two steps of a run that goes on. *)
Example not_ready_between_steps :
  let e := Sample.process 0 2 [0; 0] in
  let c := Sample.content 4 2 2 in
  let argv := ["analysis"; "gs.bp"; "fft.bp"] in
  status (main e argv [Step c]).2 = Running
  /\ step_num (main e argv [Step c; NoStepYet]).2 = 1
  /\ status (main e argv [Step c; NoStepYet]).2 = Running
  /\ sleeps (main e argv [Step c; NoStepYet; Step c]).1 = [1000]
  /\ step_num (main e argv [Step c; NoStepYet; Step c]).2 = 2.
Proof. vm_compute. repeat split. Qed.

(** ** What a step writes *)

Ltac plain_list := unfold plain; repeat constructor.

Lemma plain_not k es :
  k <> Other -> plain es -> Forall (fun ev => class_of ev <> k) es.
Proof. intros Hk. induction 1; constructor; congruence. Qed.

Lemma write_step_written fft_only w d rest :
  written_vars None ((write_step fft_only w d).1 ++ rest)
  = vars_of_flag fft_only :: written_vars None rest.
Proof. rewrite write_step_events. destruct fft_only; reflexivity. Qed.

Lemma write_step_count fft_only w d :
  count is_writer_begin (write_step fft_only w d).1 = 1%nat.
Proof. rewrite write_step_events. destruct fft_only; reflexivity. Qed.

(** The output steps of one iteration: none, or one with the variables the
    flag selects. *)
Lemma iteration_written e st r :
  exists blocks,
    (forall rest,
        written_vars None ((iteration e st r).1 ++ rest)
        = blocks ++ written_vars None rest)
    /\ Forall (eq (vars_of_flag (output_fft_only st))) blocks
    /\ length blocks = count is_writer_begin (iteration e st r).1.
Proof.
  destruct r as [c| | |].
  - rewrite iteration_step. cbv zeta.
    destruct (INT_MAX <? step_num st + 1).
    { exists []. repeat split. constructor. }
    cbn [fst]. rewrite step_body_events. cbn [output_fft_only].
    match goal with |- context [compute_step e ?s c] => set (st1 := s) end.
    pose proof (compute_step_not_writing e st1 c) as Hquiet.
    destruct (compute_step e st1 c).2 as [[w d]|s].
    + exists [vars_of_flag (output_fft_only st)]. split; [|split].
      * intros rest. cbn [app written_vars].
        rewrite <- app_assoc, written_vars_not_writing by exact Hquiet.
        apply write_step_written.
      * repeat constructor.
      * rewrite count_cons, count_app, write_step_count.
        rewrite (count_not_class Writing) by
          (auto using is_writer_begin_writing).
        reflexivity.
    + exists []. split; [|split].
      * intros rest. cbn [app written_vars]. rewrite app_nil_r.
        apply written_vars_not_writing. exact Hquiet.
      * constructor.
      * rewrite count_cons, app_nil_r.
        rewrite (count_not_class Writing) by
          (auto using is_writer_begin_writing).
        reflexivity.
  - exists []. repeat split. constructor.
  - exists []. unfold iteration, shutdown.
    destruct (ws st); repeat split; constructor.
  - exists []. unfold iteration, shutdown.
    destruct (ws st); repeat split; constructor.
Qed.

Lemma loop_written e script :
  forall st,
    Forall (eq (vars_of_flag (output_fft_only st)))
      (written_vars None (loop e st script).1)
    /\ length (written_vars None (loop e st script).1)
       = count is_writer_begin (loop e st script).1.
Proof.
  induction script as [|r rest IH]; intros st.
  - split; [constructor|reflexivity].
  - rewrite loop_cons.
    destruct (iteration_written e st r) as (blocks & Hb & Hall & Hlen).
    pose proof (Hb []) as Hb0. cbn [written_vars] in Hb0.
    rewrite !app_nil_r in Hb0.
    destruct (status (iteration e st r).2) eqn:E;
      try (rewrite Hb0; split; assumption).
    cbn [fst snd]. destruct (IH (iteration e st r).2) as [IHall IHlen].
    rewrite iteration_flag in IHall.
    rewrite Hb, count_app, length_app. split; [|lia].
    apply Forall_app. split; assumption.
Qed.

Lemma startup_plain e argv : plain (startup e argv).1.
Proof.
  unfold startup. destruct (_ <? 3); [|plain_list].
  cbn [fst]. destruct (rank e =? 0); plain_list.
Qed.

Lemma main_written e argv script :
  (3 <= length argv)%nat ->
  Forall (eq (vars_of_flag (output_fft_only (startup e argv).2)))
    (written_vars None (main e argv script).1)
  /\ length (written_vars None (main e argv script).1)
     = count is_writer_begin (main e argv script).1.
Proof.
  intros Hargs. rewrite main_valid by exact Hargs. cbn [fst].
  pose proof (startup_plain e argv) as Hst.
  rewrite written_vars_not_writing by (apply plain_not; [discriminate|exact Hst]).
  rewrite count_app, (count_not_class Writing), Nat.add_0_l;
    [apply loop_written|apply is_writer_begin_writing|].
  apply plain_not; [discriminate|exact Hst].
Qed.

(** ** The third argument *)

Lemma startup_other_flag e prog input output x more :
  x <> "0" ->
  startup e (prog :: input :: output :: x :: more)
  = startup e [prog; input; output].
Proof.
  intros Hx.
  rewrite !startup_valid by (cbn [length]; lia). cbn [nth].
  replace (4 <=? _) with true
    by (symmetry; apply Z.leb_le; cbn [length]; lia).
  apply String.eqb_neq in Hx. rewrite Hx. reflexivity.
Qed.

(** C10.  A third command-line argument other than the string 0 (1, true,
    the empty string, ...) leaves the passthrough disabled exactly as if
    the argument were absent: the run is the same, event for event, so
    nothing more is printed, and each output step holds the 4 transform
    outputs only. *)
Theorem other_third_argument_ignored (e : env) (prog input output x : string)
    (more : list string) (script : list reply) :
  x <> "0" ->
  main e (prog :: input :: output :: x :: more) script
  = main e [prog; input; output] script
  /\ Forall (eq fft_vars)
       (written_vars None
          (main e (prog :: input :: output :: x :: more) script).1).
Proof.
  intros Hx.
  assert (Heq : main e (prog :: input :: output :: x :: more) script
                = main e [prog; input; output] script).
  { unfold main. rewrite startup_other_flag by exact Hx. reflexivity. }
  split; [exact Heq|]. rewrite Heq.
  apply (main_written e [prog; input; output] script). cbn [length]. lia.
Qed.

Lemma other_third_argument_ignored_witness :
  "1" <> "0"
  /\ main (Sample.process 0 2 [8; 8]) ["analysis"; "gs.bp"; "fft.bp"; "1"]
       [Step (Sample.content 4 2 2); StreamEnded]
     = main (Sample.process 0 2 [8; 8]) ["analysis"; "gs.bp"; "fft.bp"]
         [Step (Sample.content 4 2 2); StreamEnded].
Proof.
  split; [discriminate|].
  apply (other_third_argument_ignored (Sample.process 0 2 [8; 8])
           "analysis" "gs.bp" "fft.bp" "1" []
           [Step (Sample.content 4 2 2); StreamEnded]).
  discriminate.
Defined.

(** A run still in its loop has written one output step for each step it
    counted. *)
Lemma iteration_steps_written e st r :
  status (iteration e st r).2 = Running ->
  Z.of_nat (count is_writer_begin (iteration e st r).1)
  = step_num (iteration e st r).2 - step_num st.
Proof.
  destruct r as [c| | |].
  - rewrite iteration_step. cbv zeta.
    destruct (INT_MAX <? step_num st + 1); [discriminate|]. cbn [fst snd].
    rewrite step_body_result, step_body_events, count_cons, count_app.
    rewrite (count_not_class Writing)
      by (auto using is_writer_begin_writing, compute_step_not_writing).
    destruct (compute_step e _ c).2 as [[w d]|s] eqn:E.
    + rewrite write_step_count. cbn [is_writer_begin step_num]. lia.
    + cbn [with_status status]. intros ->.
      apply compute_step_halts in E. contradiction.
  - cbn. lia.
  - unfold iteration, shutdown. destruct (ws st); discriminate.
  - unfold iteration, shutdown. destruct (ws st); discriminate.
Qed.

Lemma loop_steps_written e script :
  forall st,
    status (loop e st script).2 = Running ->
    Z.of_nat (count is_writer_begin (loop e st script).1)
    = step_num (loop e st script).2 - step_num st.
Proof.
  induction script as [|r rest IH]; intros st.
  - cbn. lia.
  - rewrite loop_cons.
    destruct (status (iteration e st r).2) eqn:E; try (intros; congruence).
    cbn [fst snd]. intros Hrun. rewrite count_app.
    pose proof (iteration_steps_written e st r E).
    pose proof (IH _ Hrun). lia.
Qed.

(** X15.  Lines 72-77 and 319-330: the output steps of a run started with
    at least the two required arguments.  Every output step that is begun
    holds, in this order, the 4 transform outputs, followed by u_real,
    u_imag, v_real, v_imag exactly when the third argument is the string
    0; and a run that is still in its loop has written one such output
    step for every step it has counted. *)
Theorem output_steps_follow_the_flag (e : env) (argv : list string)
    (script : list reply) :
  (3 <= length argv)%nat ->
  let r := main e argv script in
  let vars :=
    match argv with
    | _ :: _ :: _ :: "0"%string :: _ => fft_vars ++ copy_vars
    | _ => fft_vars
    end in
  Forall (eq vars) (written_vars None r.1)
  /\ length (written_vars None r.1) = count is_writer_begin r.1
  /\ (status r.2 = Running ->
      written_vars None r.1 = repeat vars (Z.to_nat (step_num r.2))).
Proof.
  intros Hargs. cbv zeta.
  assert (Hvars : vars_of_flag (output_fft_only (startup e argv).2)
                  = match argv with
                    | _ :: _ :: _ :: "0"%string :: _ => fft_vars ++ copy_vars
                    | _ => fft_vars
                    end).
  { rewrite startup_valid by exact Hargs. cbn [snd output_fft_only].
    destruct argv as [|a0 [|a1 [|a2 [|x more]]]];
      try (cbn [length] in Hargs; lia); [reflexivity|].
    replace (4 <=? _) with true
      by (symmetry; apply Z.leb_le; cbn [length]; lia).
    cbn [nth]. destruct (String.eqb_spec x "0") as [->|Hne]; [reflexivity|].
    cbn [vars_of_flag].
    destruct x as [|[[] [] [] [] [] [] [] []] [|? ?]]; try reflexivity.
    contradiction Hne. reflexivity. }
  rewrite <- Hvars.
  destruct (main_written e argv script Hargs) as [Hall Hlen].
  split; [exact Hall|]. split; [exact Hlen|]. intros Hgo.
  assert (Hn : length (written_vars None (main e argv script).1)
               = Z.to_nat (step_num (main e argv script).2)).
  { rewrite Hlen. rewrite main_valid in * by exact Hargs. cbn [fst snd] in *.
    rewrite count_app, (count_not_class Writing), Nat.add_0_l;
      [|apply is_writer_begin_writing
       |apply plain_not; [discriminate|apply startup_plain]].
    pose proof (loop_steps_written e script _ Hgo) as H.
    rewrite (startup_valid e argv Hargs) in H at 3. cbn [snd step_num] in H.
    lia. }
  rewrite <- Hn. clear Hn Hlen.
  induction Hall as [|b bs <- _ IH]; [reflexivity|].
  cbn [length repeat]. f_equal. exact IH.
Qed.

Lemma output_steps_follow_the_flag_witness :
  let r := main (Sample.process 0 2 [0; 0])
             ["analysis"; "gs.bp"; "fft.bp"; "0"]
             [Step (Sample.content 4 2 2); NoStepYet;
              Step (Sample.content 4 2 2)] in
  Forall (eq (fft_vars ++ copy_vars)) (written_vars None r.1)
  /\ length (written_vars None r.1) = count is_writer_begin r.1
  /\ (status r.2 = Running ->
      written_vars None r.1
      = repeat (fft_vars ++ copy_vars) (Z.to_nat (step_num r.2))).
Proof.
  cbv zeta.
  apply (output_steps_follow_the_flag (Sample.process 0 2 [0; 0])
           ["analysis"; "gs.bp"; "fft.bp"; "0"]
           [Step (Sample.content 4 2 2); NoStepYet;
            Step (Sample.content 4 2 2)]).
  cbn [length]. lia.
Defined.

Example output_steps_example :
  let r := main (Sample.process 0 2 [0; 0])
             ["analysis"; "gs.bp"; "fft.bp"; "0"]
             [Step (Sample.content 4 2 2); NoStepYet;
              Step (Sample.content 4 2 2)] in
  status r.2 = Running /\ step_num r.2 = 2
  /\ written_vars None r.1 = [fft_vars ++ copy_vars; fft_vars ++ copy_vars].
Proof. vm_compute. repeat split. Qed.

(** ** The definitions of the output variables *)

Lemma sum_ranks_ext f g n :
  (forall r, 0 <= r -> f r = g r) -> sum_ranks f n = sum_ranks g n.
Proof.
  intros H. induction n as [|n IH]; [reflexivity|].
  cbn [sum_ranks]. rewrite IH, H by lia. reflexivity.
Qed.

(** [x_off = x_off - x_dim] after the scan leaves the sum over the lower
    ranks. *)
Lemma scan_exclusive f r :
  0 <= r ->
  to_size_t (MPI_Scan_sum f r - f r) = to_size_t (sum_ranks f (Z.to_nat r)).
Proof.
  intros Hr. unfold MPI_Scan_sum, to_size_t.
  replace (Z.to_nat (r + 1)) with (S (Z.to_nat r)) by lia.
  cbn [sum_ranks]. rewrite Z2Nat.id by exact Hr.
  rewrite Zminus_mod_idemp_l. f_equal. lia.
Qed.

Lemma first_step_block_events e fft_only d0 d1 d2 sv :
  alloc_ok e = true -> d1 <> 0 -> d2 <> 0 ->
  let alloc_local := fftw_mpi_local_size_3d e (wrank e) d0 d1 d2 in
  let x_dim := to_size_t alloc_local / d1 / d2 in
  let x_off :=
    to_size_t
      (MPI_Scan_sum
         (fun r => to_size_t (fftw_mpi_local_size_3d e r d0 d1 d2) / d1 / d2)
         (wrank e) - x_dim) in
  exists pre,
    plain pre
    /\ (first_step_block e fft_only (d0, d1, d2) sv).1
       = pre
         ++ [define_fft "u_fft_real" d0 d1 d2 x_off alloc_local;
             define_fft "u_fft_imag" d0 d1 d2 x_off alloc_local;
             define_fft "v_fft_real" d0 d1 d2 x_off alloc_local;
             define_fft "v_fft_imag" d0 d1 d2 x_off alloc_local]
         ++ (if fft_only then []
             else [define_copy "u_real" (d0, d1, d2) x_off x_dim d1 d2;
                   define_copy "u_imag" (d0, d1, d2) x_off x_dim d1 d2;
                   define_copy "v_real" sv x_off x_dim d1 d2;
                   define_copy "v_imag" sv x_off x_dim d1 d2]).
Proof.
  intros Hok H1 H2. cbv zeta. unfold first_step_block. rewrite Hok.
  replace ((d1 =? 0) || (d2 =? 0)) with false
    by (symmetry; apply orb_false_iff; split; apply Z.eqb_neq; assumption).
  repeat rewrite bind_events. cbn [emit ret fst snd].
  set (n := to_size_t (fftw_mpi_local_size_3d e (wrank e) d0 d1 d2)).
  exists ([EvLocalSize d0 d1 d2; EvAllocComplex n; EvAllocComplex n;
           EvPrint (MsgShapeU d0)]
          ++ (if n =? to_size_t (d0 * d1 * d2) / to_size_t (comm_size e)
              then []
              else [EvPrint (MsgSizeMismatch
                               (fftw_mpi_local_size_3d e (wrank e) d0 d1 d2))])
          ++ [EvReserve "u_fft_real" n; EvReserve "u_fft_imag" n;
              EvReserve "v_fft_real" n; EvReserve "v_fft_imag" n;
              EvPlan d0 d1 d2; EvScan (n / d1 / d2)]).
  destruct (_ =? _ / _), fft_only; cbn [emit fst snd app];
    (split; [plain_list|reflexivity]).
Qed.

Lemma step_body_definitions var e st c :
  group_fits e c ->
  definitions_of var (step_body e st c).1
  = definitions_of var
      (step_workspace e st (Shape c "u_real") (Shape c "v_real")).1.
Proof.
  intros Hfit. rewrite step_body_events, definitions_of_app.
  destruct (compute_step_from e st c) as (tl & -> & Htl).
  destruct Htl as [(Hno & _)|(_ & sels & post & -> & Hsel & Hpost & _)];
    [contradiction|].
  rewrite !definitions_of_app.
  rewrite (definitions_of_from var [Banner] _ ltac:(not_in)
             (step_banner_from e st)).
  rewrite (definitions_of_from var [Select] sels ltac:(not_in) Hsel).
  rewrite (definitions_of_from var [Read; Transform] post ltac:(not_in) Hpost).
  cbn [app]. rewrite app_nil_r.
  match goal with |- _ ++ definitions_of var ?l = _ =>
    assert (Hw : definitions_of var l = []) end.
  { destruct (_ : result (workspace * fields)) as [[w d]|s]; [|reflexivity].
    apply (definitions_of_from var [Output]); [not_in|apply write_step_from]. }
  rewrite Hw. apply app_nil_r.
Qed.

(** Once the first-step block is behind, a step defines nothing. *)
Lemma step_body_no_definitions var e st c :
  firstStep st = false -> definitions_of var (step_body e st c).1 = [].
Proof.
  intros Hfirst. rewrite step_body_events, definitions_of_app.
  assert (Hw : definitions_of var
                 match (compute_step e st c).2 with
                 | Ok (w, d) => (write_step (output_fft_only st) w d).1
                 | Halt _ => []
                 end = []).
  { destruct (compute_step e st c).2 as [[w d]|s]; [|reflexivity].
    apply (definitions_of_from var [Output]); [not_in|apply write_step_from]. }
  rewrite Hw, app_nil_r.
  destruct (compute_step_from e st c) as (tl & -> & Htl).
  rewrite definitions_of_app.
  rewrite (definitions_of_from var [Banner] _ ltac:(not_in)
             (step_banner_from e st)).
  destruct Htl as [(_ & -> & _)|(_ & sels & post & -> & Hsel & Hpost & _)];
    [reflexivity|].
  rewrite !definitions_of_app.
  rewrite (definitions_of_from var [Select] sels ltac:(not_in) Hsel).
  rewrite (definitions_of_from var [Read; Transform] post ltac:(not_in) Hpost).
  unfold step_workspace. rewrite Hfirst, defined_events. reflexivity.
Qed.

(** The four transform outputs, as the first-step block defines them. *)
Lemma first_step_block_definitions var e fft_only d0 d1 d2 sv :
  In var fft_vars ->
  alloc_ok e = true -> 0 < d1 -> 0 < d2 -> 0 <= wrank e ->
  definitions_of var (first_step_block e fft_only (d0, d1, d2) sv).1
  = [fft_definition e d0 d1 d2].
Proof.
  intros Hvar Hok H1 H2 Hr.
  destruct (first_step_block_events e fft_only d0 d1 d2 sv Hok)
    as (pre & Hpre & ->); [lia|lia|].
  rewrite !definitions_of_app.
  rewrite (definitions_of_not_defining var pre)
    by (apply plain_not; [discriminate|exact Hpre]).
  assert (Hoff :
    to_size_t
      (MPI_Scan_sum
         (fun r => to_size_t (fftw_mpi_local_size_3d e r d0 d1 d2) / d1 / d2)
         (wrank e)
       - to_size_t (fftw_mpi_local_size_3d e (wrank e) d0 d1 d2) / d1 / d2)
    = to_size_t (sum_ranks (rows_of_rank e d0 d1 d2) (Z.to_nat (wrank e)))).
  { rewrite (scan_exclusive
               (fun r => to_size_t (fftw_mpi_local_size_3d e r d0 d1 d2)
                         / d1 / d2)) by exact Hr.
    f_equal. apply sum_ranks_ext. intros r _. unfold rows_of_rank.
    apply Z.div_div; lia. }
  rewrite Hoff. unfold fft_definition, define_fft, define_copy.
  cbn [In fft_vars] in Hvar.
  destruct Hvar as [<-|[<-|[<-|[<-|[]]]]]; destruct fft_only; reflexivity.
Qed.

Lemma iteration_first_definitions var e st c d0 d1 d2 :
  Shape c "u_real" = (d0, d1, d2) -> group_fits e c ->
  firstStep st = true -> step_num st + 1 <= INT_MAX ->
  In var fft_vars ->
  alloc_ok e = true -> 0 < d1 -> 0 < d2 -> 0 <= wrank e ->
  definitions_of var (iteration e st (Step c)).1
  = [fft_definition e d0 d1 d2].
Proof.
  intros Hshape Hfit Hfirst Hn Hvar Hok H1 H2 Hr.
  rewrite iteration_step. cbv zeta.
  destruct (Z.ltb_spec INT_MAX (step_num st + 1)); [lia|]. cbn [fst].
  change (definitions_of var (EvBeginStep OK :: ?l))
    with (definitions_of var l).
  rewrite step_body_definitions by exact Hfit. unfold step_workspace.
  cbn [firstStep output_fft_only]. rewrite Hfirst, Hshape.
  apply first_step_block_definitions; assumption.
Qed.

Lemma iteration_later_definitions var e st r :
  firstStep st = false ->
  definitions_of var (iteration e st r).1 = [].
Proof.
  intros Hfirst. destruct r as [c| | |].
  - rewrite iteration_step. cbv zeta.
    destruct (INT_MAX <? step_num st + 1); [reflexivity|]. cbn [fst].
    change (definitions_of var (EvBeginStep OK :: ?l))
      with (definitions_of var l).
    apply step_body_no_definitions. exact Hfirst.
  - reflexivity.
  - unfold iteration, shutdown. destruct (ws st); reflexivity.
  - unfold iteration, shutdown. destruct (ws st); reflexivity.
Qed.

Lemma iteration_keeps_first_done e st r :
  firstStep st = false -> firstStep (iteration e st r).2 = false.
Proof.
  intros Hfirst. destruct r as [c| | |].
  - rewrite iteration_step. cbv zeta.
    destruct (INT_MAX <? step_num st + 1); [exact Hfirst|]. cbn [snd].
    rewrite step_body_result.
    destruct (compute_step e _ c).2 as [[w d]|s]; [reflexivity|exact Hfirst].
  - exact Hfirst.
  - unfold iteration, shutdown. destruct (ws st); exact Hfirst.
  - unfold iteration, shutdown. destruct (ws st); exact Hfirst.
Qed.

(** Once the first step is behind, nothing is defined any more. *)
Lemma loop_later_definitions var e script :
  forall st, firstStep st = false ->
    definitions_of var (loop e st script).1 = [].
Proof.
  induction script as [|r rest IH]; intros st Hfirst; [reflexivity|].
  rewrite loop_cons.
  pose proof (iteration_later_definitions var e st r Hfirst) as Hit.
  destruct (status (iteration e st r).2); try exact Hit.
  cbn [fst]. rewrite definitions_of_app, Hit.
  apply IH, iteration_keeps_first_done, Hfirst.
Qed.

Lemma definitions_of_waiting var k :
  definitions_of var (concat (repeat [EvBeginStep NotReady; EvSleep 1000] k))
  = [].
Proof. induction k as [|k IH]; [reflexivity|exact IH]. Qed.

(** C8.  In a run whose first step (after any number of NotReady answers)
    has the shape (d0, d1, d2), whose process group is no larger than the
    rows of the fields and whose buffers could be allocated, each of
    u_fft_real, u_fft_imag, v_fft_real and v_fft_imag is defined exactly
    once, as a 1-D variable of global length d0*d1*d2, at the offset
    x_off*d1*d2 where x_off is the sum over the lower ranks of the row
    counts alloc_local/(d1*d2) that FFTW reports for them, and of extent
    alloc_local.  Sizes are 64-bit. *)
Theorem fft_outputs_defined_once (e : env) (argv : list string) (k : nat)
    (c : step_content) (later : list reply) (var : string) (d0 d1 d2 : Z) :
  (3 <= length argv)%nat ->
  Shape c "u_real" = (d0, d1, d2) -> 0 < d1 -> 0 < d2 ->
  group_fits e c ->
  alloc_ok e = true -> 0 <= wrank e ->
  In var fft_vars ->
  definitions_of var
    (main e argv (repeat NoStepYet k ++ Step c :: later)).1
  = [fft_definition e d0 d1 d2].
Proof.
  intros Hargs Hshape H1 H2 Hfit Hok Hr Hvar.
  rewrite main_valid by exact Hargs. cbn [fst].
  rewrite loop_app_waiting by (rewrite startup_valid by exact Hargs; reflexivity).
  cbn [fst]. rewrite !definitions_of_app, definitions_of_waiting.
  rewrite (definitions_of_not_defining var (startup e argv).1)
    by (apply plain_not; [discriminate|apply startup_plain]).
  cbn [app]. rewrite loop_cons.
  assert (Hdef : definitions_of var
                   (iteration e (startup e argv).2 (Step c)).1
                 = [fft_definition e d0 d1 d2]).
  { apply iteration_first_definitions; try assumption;
      rewrite startup_valid by exact Hargs; [reflexivity|].
    cbn [snd step_num]. vm_compute. discriminate. }
  destruct (status (iteration e (startup e argv).2 (Step c)).2) eqn:E;
    try exact Hdef.
  cbn [fst]. rewrite definitions_of_app, Hdef.
  rewrite loop_later_definitions; [reflexivity|].
  apply (iteration_running e _ (Step c)). exact E.
Qed.

Lemma fft_outputs_defined_once_witness :
  definitions_of "u_fft_real"
    (main (Sample.process 1 2 [8; 8]) ["analysis"; "gs.bp"; "fft.bp"]
       (repeat NoStepYet 1 ++ Step (Sample.content 4 2 2) :: [StreamEnded])).1
  = [fft_definition (Sample.process 1 2 [8; 8]) 4 2 2].
Proof.
  apply (fft_outputs_defined_once (Sample.process 1 2 [8; 8])
           ["analysis"; "gs.bp"; "fft.bp"] 1 (Sample.content 4 2 2)
           [StreamEnded] "u_fft_real" 4 2 2);
    first [reflexivity | (cbn [length]; lia) | lia | (cbn; lia)
          | (left; reflexivity) | (split; cbn; lia)].
Defined.

Example fft_definition_example :
  fft_definition (Sample.process 1 2 [8; 8]) 4 2 2 = ([16], [8], [8])
  /\ fft_definition (Sample.process 3 4 [48; 48; 48; 16]) 10 4 4
     = ([160], [144], [16]).
Proof. split; reflexivity. Qed.

(** With no step read nothing is defined at all. *)
Example no_step_no_definition :
  definitions_of "u_fft_real"
    (main (Sample.process 0 2 [8; 8]) ["analysis"; "gs.bp"; "fft.bp"]
       [NoStepYet; StreamEnded]).1 = [].
Proof. reflexivity. Qed.

(** ** The size check of the first step *)

(** C2, on the code.  Rank 0 of 2 reads a first step of shape (9, 4, 4);
    FFTW reports a local allocation of 80 entries, which differs from
    (9*4*4)/2 = 72.  The program prints the message of line 182 and goes
    on: it does not abort, makes the plan, defines the outputs, reads the
    step and runs the transform of the u pair.  (The run then ends as
    undefined in the output loop of line 287, as every step of a
    non-empty allocation does.) *)
Theorem size_mismatch_is_not_fatal :
  let e := Sample.process 0 2 [80; 64] in
  let r := main e ["analysis"; "gs.bp"; "fft.bp"]
             [Step (Sample.content 9 4 4); StreamEnded] in
  (to_size_t (fftw_mpi_local_size_3d e 0 9 4 4)
     =? to_size_t (9 * 4 * 4) / to_size_t (comm_size e)) = false
  /\ count is_size_mismatch r.1 = 1%nat
  /\ count is_abort r.1 = 0%nat
  /\ definitions_of "u_fft_real" r.1 = [([144], [0], [80])]
  /\ count is_plan r.1 = 1%nat
  /\ count is_end_step r.1 = 1%nat
  /\ length (executes r.1) = 1%nat
  /\ status r.2 = Undefined.
Proof. vm_compute. repeat split. Qed.

(** ** The geometry of the passthrough variables *)

(** Whatever the decomposition calculator returns, the passthrough
    variables are defined on the rows FFTW reports. *)
Lemma passthrough_definitions e d0 d1 d2 sv :
  alloc_ok e = true -> d1 <> 0 -> d2 <> 0 ->
  let x_dim := to_size_t (fftw_mpi_local_size_3d e (wrank e) d0 d1 d2)
               / d1 / d2 in
  let x_off :=
    to_size_t
      (MPI_Scan_sum
         (fun r => to_size_t (fftw_mpi_local_size_3d e r d0 d1 d2) / d1 / d2)
         (wrank e) - x_dim) in
  definitions_of "u_real" (first_step_block e false (d0, d1, d2) sv).1
  = [([d0; d1; d2], [x_off; 0; 0], [x_dim; d1; d2])]
  /\ definitions_of "v_real" (first_step_block e false (d0, d1, d2) sv).1
     = [(dims sv, [x_off; 0; 0], [x_dim; d1; d2])].
Proof.
  intros Hok H1 H2. cbv zeta.
  destruct (first_step_block_events e false d0 d1 d2 sv Hok H1 H2)
    as (pre & Hpre & ->).
  rewrite !definitions_of_app.
  rewrite !(definitions_of_not_defining _ pre)
    by (apply plain_not; [discriminate|exact Hpre]).
  split; reflexivity.
Qed.

(** C3, on the code.  Rank 3 of 4 reads a first step of shape (10, 4, 4)
    with the passthrough enabled.  The decomposition calculator gives it
    the rows 8 and 9 (start 8, count 2), which is what it selects and
    reads; FFTW reports one row (16 entries) after the 9 rows of the lower
    ranks.  The four mirrored variables are defined at offset (9,0,0) with
    extent (1,4,4): from the transform's row distribution, not from the
    calculator's slab; the block read for each holds 32 values. *)
Theorem passthrough_uses_transform_rows :
  let e := Sample.process 3 4 [48; 48; 48; 16] in
  let r := main e ["analysis"; "gs.bp"; "fft.bp"; "0"]
             [Step (Sample.content 10 4 4)] in
  get_starts_counts_3d_decomp 10 4 4 (comm_size e) (rank e)
  = ((8, 0, 0), (2, 4, 4))
  /\ selections_of "u_real" r.1 = [([8; 0; 0], [2; 4; 4])]
  /\ definitions_of "u_real" r.1 = [([10; 4; 4], [9; 0; 0], [1; 4; 4])]
  /\ definitions_of "u_imag" r.1 = [([10; 4; 4], [9; 0; 0], [1; 4; 4])]
  /\ definitions_of "v_real" r.1 = [([10; 4; 4], [9; 0; 0], [1; 4; 4])]
  /\ definitions_of "v_imag" r.1 = [([10; 4; 4], [9; 0; 0], [1; 4; 4])]
  /\ length (u_real_data (step_blocks e (Sample.content 10 4 4))) = 32%nat.
Proof. vm_compute. repeat split. Qed.

(** ** The end of the stream *)

(** C9, on the code.  The stream ends before any step was read: the loop
    is left and both engines are closed, but [in], [out] and [plan] were
    never assigned, so that the release that follows reads indeterminate
    pointers: the run does not reach [return 0]. *)
Theorem end_of_stream_before_first_step :
  let r := main (Sample.process 0 2 [8; 8]) ["analysis"; "gs.bp"; "fft.bp"]
             [StreamEnded] in
  r.1 = [EvOpen Reader "gs.bp"; EvOpen Writer "fft.bp";
         EvBeginStep EndOfStream; EvClose Reader; EvClose Writer]
  /\ ws r.2 = None
  /\ status r.2 = Undefined.
Proof. vm_compute. repeat split. Qed.

(** ** The stage-in loops in a step *)

(** C6, on the code.  Two first steps.
    Rank 2 of 4 reads a step of shape (10, 4, 4): the calculator gives it
    the rows 6 and 7, so each block read holds 32 values, while FFTW
    reports 48 entries, that is [x_dim] = 3 rows.  The size check of line
    181 prints its message and the run goes on; the stage-in loops of
    the u pair run over (3, 4, 4) and read [u_real_data[32]], past the end
    of the block: the behaviour is undefined and nothing is transformed.
    Rank 0 of 2 reads a step of shape (8, 4, 4), FFTW reporting the 64
    entries of its 4 rows: the u pair is staged as the specification
    says, entry by entry over (4, 4, 4), and transformed; the run then
    ends as undefined in the output loop of line 287, so that the stage-in
    loops of the v pair are not reached. *)
Theorem stage_in_overruns_block_read :
  let argv := ["analysis"; "gs.bp"; "fft.bp"] in
  let e := Sample.process 2 4 [48; 48; 48; 16] in
  let c := Sample.content 10 4 4 in
  let r := main e argv [Step c] in
  let e' := Sample.process 0 2 [64; 64] in
  let c' := Sample.content 8 4 4 in
  let r' := main e' argv [Step c'] in
  (selections_of "u_real" r.1 = [([6; 0; 0], [2; 4; 4])]
   /\ count is_size_mismatch r.1 = 1%nat
   /\ count is_abort r.1 = 0%nat
   /\ length (u_real_data (step_blocks e c)) = 32%nat
   /\ length (u_imag_data (step_blocks e c)) = 32%nat
   /\ rows_scanned r.1 = [3]
   /\ stage_in 3 4 4 (u_real_data (step_blocks e c))
        (u_imag_data (step_blocks e c)) (storage (fresh_complex e) 48)
      = None
   /\ count is_end_step r.1 = 1%nat
   /\ executes r.1 = []
   /\ status r.2 = Undefined)
  /\ (count is_size_mismatch r'.1 = 0%nat
      /\ rows_scanned r'.1 = [4]
      /\ (exists in_u,
             stage_in 4 4 4 (u_real_data (step_blocks e' c'))
               (u_imag_data (step_blocks e' c'))
               (storage (fresh_complex e') 64) = Some in_u
             /\ executes r'.1 = [in_u])
      /\ status r'.2 = Undefined).
Proof.
  cbv zeta. split.
  - vm_compute. repeat split.
  - split; [reflexivity|]. split; [reflexivity|]. split; [|reflexivity].
    eexists. split; vm_compute; reflexivity.
Qed.

(** ** The result vectors *)

(** The output loop on a vector that holds no entry. *)
Lemma stage_out_empty a (out : list fftw_complex) (im : list double) :
  to_size_t a <> 0 -> stage_out a out [] im = None.
Proof.
  intros Hn. pose proof (to_size_t_range a) as Hr.
  unfold stage_out, for_size_t.
  destruct (Z.to_nat (to_size_t a)) as [|k] eqn:Ek; [lia|].
  cbn [iterate]. unfold stage_out_body. cbn [fst snd].
  destruct (vec_get out 0); reflexivity.
Qed.

(** C7, on the code.  Scenario D on the shapes of scenario A: rank 0 of 2
    is given one step of shape (8, 4, 4) and then the end of the stream;
    FFTW reports the 64 entries of its 4 rows, so that all sizes agree.
    The four result vectors are declared empty (lines 95-98) and only get
    [reserve(64)] (lines 192-195), which leaves them without an entry.
    The step is counted, read and its u pair transformed; the output loop
    then writes [u_fft_real[0]] (line 289) in a vector of size 0, which is
    undefined.  This comes before the output step is begun: with the
    third argument absent as with the third argument 0, the run has put no
    variable for the step when its behaviour stops being defined, where 4
    and 8 are expected. *)
Theorem accepted_step_is_not_written :
  let e := Sample.process 0 2 [64; 64] in
  let script := [Step (Sample.content 8 4 4); StreamEnded] in
  let absent := main e ["analysis"; "gs.bp"; "fft.bp"] script in
  let zero := main e ["analysis"; "gs.bp"; "fft.bp"; "0"] script in
  (forall out im, stage_out 64 out [] im = None)
  /\ (count (is_begin OK) absent.1 = 1%nat /\ step_num absent.2 = 1
      /\ count is_size_mismatch absent.1 = 0%nat
      /\ reserved "u_fft_real" absent.1 = [64]
      /\ count is_end_step absent.1 = 1%nat
      /\ length (executes absent.1) = 1%nat
      /\ count is_writer_begin absent.1 = 0%nat
      /\ written_vars None absent.1 = []
      /\ status absent.2 = Undefined)
  /\ (count (is_begin OK) zero.1 = 1%nat /\ step_num zero.2 = 1
      /\ count is_size_mismatch zero.1 = 0%nat
      /\ reserved "u_fft_real" zero.1 = [64]
      /\ count is_end_step zero.1 = 1%nat
      /\ length (executes zero.1) = 1%nat
      /\ count is_writer_begin zero.1 = 0%nat
      /\ written_vars None zero.1 = []
      /\ status zero.2 = Undefined).
Proof.
  cbv zeta. split.
  - intros out im. apply stage_out_empty. vm_compute. discriminate.
  - split; vm_compute; repeat split.
Qed.

(** Scenario E of the specification: the stream ends at the fifth
    [BeginStep].  The first step ends the run. *)
Example scenario_E :
  let c := Sample.content 8 4 4 in
  let r := main (Sample.process 0 2 [64; 64]) ["analysis"; "gs.bp"; "fft.bp"]
             [Step c; Step c; Step c; Step c; StreamEnded] in
  step_num r.2 = 1 /\ status r.2 = Undefined
  /\ written_vars None r.1 = [] /\ count is_release r.1 = 0%nat.
Proof. vm_compute. repeat split. Qed.

(** * Further properties of the program *)

(** ** Too few arguments (lines 59-65, [printUsage]) *)

Lemma main_invalid e argv script :
  (length argv < 3)%nat ->
  main e argv script = startup e argv /\ status (startup e argv).2 = Aborted.
Proof.
  intros Hargs. unfold main, startup.
  destruct (Z.ltb_spec (Z.of_nat (length argv)) 3); [|lia].
  split; reflexivity.
Qed.

(** X1.  With fewer than the two required arguments the run consists of
    the complaint, the usage text on rank 0 only, and [MPI_Abort], in this
    order and nothing else: no engine is opened and the input stream is
    never polled, whatever it holds. *)
Theorem missing_arguments_abort (e : env) (argv : list string)
    (script : list reply) :
  (length argv < 3)%nat ->
  let r := main e argv script in
  status r.2 = Aborted
  /\ r.1 = [EvPrint MsgNotEnoughArguments]
             ++ (if rank e =? 0 then [EvPrint MsgUsage] else [])
             ++ [EvAbort]
  /\ count is_open r.1 = 0%nat
  /\ count is_poll r.1 = 0%nat
  /\ r = main e argv [].
Proof.
  intros Hargs. cbv zeta. unfold main, startup.
  destruct (Z.ltb_spec (Z.of_nat (length argv)) 3); [|lia].
  cbn [status fst snd]. destruct (rank e =? 0); repeat split.
Qed.

Lemma missing_arguments_abort_witness :
  let r := main (Sample.process 1 2 [8; 8]) ["analysis"; "gs.bp"]
             [Step (Sample.content 4 2 2)] in
  status r.2 = Aborted
  /\ r.1 = [EvPrint MsgNotEnoughArguments]
             ++ (if rank (Sample.process 1 2 [8; 8]) =? 0
                 then [EvPrint MsgUsage] else [])
             ++ [EvAbort]
  /\ count is_open r.1 = 0%nat
  /\ count is_poll r.1 = 0%nat
  /\ r = main (Sample.process 1 2 [8; 8]) ["analysis"; "gs.bp"] [].
Proof.
  cbv zeta.
  apply (missing_arguments_abort (Sample.process 1 2 [8; 8])
           ["analysis"; "gs.bp"] [Step (Sample.content 4 2 2)]).
  cbn [length]. lia.
Defined.

(** ** [MPI_Abort] (lines 64 and 189, and the calculator) *)

Lemma step_body_from_ok e st c :
  (firstStep st = true -> alloc_ok e = true) -> group_fits e c ->
  from [Banner; Select; Read; Transform; Setup; Output]
    (step_body e st c).1.
Proof.
  intros Hok Hfit. rewrite step_body_events. apply from_app.
  - destruct (compute_step_from e st c) as (tl & -> & Htl).
    apply from_app;
      [generalize (step_banner_from e st); apply from_incl; cbn; tauto|].
    destruct Htl as [(Hno & _)|(_ & sels & post & -> & Hsel & Hpost & _)];
      [contradiction|].
    repeat apply from_app.
    + revert Hsel. apply from_incl. cbn. tauto.
    + unfold step_workspace. destruct (firstStep st).
      * generalize (first_step_block_from_ok e (output_fft_only st)
                      (Shape c "u_real") (Shape c "v_real") (Hok eq_refl)).
        apply from_incl. cbn. tauto.
      * rewrite defined_events. constructor.
    + revert Hpost. apply from_incl. cbn. tauto.
  - destruct (compute_step e st c).2 as [[w d]|s]; [|constructor].
    generalize (write_step_from (output_fft_only st) w d).
    apply from_incl. cbn. tauto.
Qed.

Lemma iteration_never_aborts e st r :
  alloc_ok e = true ->
  match r with Step c => group_fits e c | _ => True end ->
  count is_abort (iteration e st r).1 = 0%nat
  /\ (status st <> Aborted -> status (iteration e st r).2 <> Aborted).
Proof.
  intros Hok Hfit. destruct r as [c| | |].
  - rewrite iteration_step. cbv zeta.
    destruct (INT_MAX <? step_num st + 1); [split; [reflexivity|discriminate]|].
    cbn [fst snd]. rewrite count_cons. cbn [is_abort Nat.add]. split.
    + apply (count_origin is_abort Abort
               [Banner; Select; Read; Transform; Setup; Output]);
        [apply is_abort_origin|not_in
        |apply step_body_from_ok; [intros _; exact Hok|exact Hfit]].
    + intros _. rewrite step_body_result.
      destruct (compute_step e _ c).2 as [[w d]|s] eqn:E; [discriminate|].
      apply compute_step_halt in E. cbn [with_status status].
      destruct E as [-> |[(_ & Hno)|(_ & _ & Hno & _)]];
        [discriminate|contradiction|congruence].
  - split; [reflexivity|]. cbn [iteration snd]. auto.
  - unfold iteration, shutdown.
    destruct (ws st); (split; [reflexivity|discriminate]).
  - unfold iteration, shutdown.
    destruct (ws st); (split; [reflexivity|discriminate]).
Qed.

Lemma loop_never_aborts e script :
  alloc_ok e = true -> steps_fit e script ->
  forall st,
    count is_abort (loop e st script).1 = 0%nat
    /\ (status st <> Aborted -> status (loop e st script).2 <> Aborted).
Proof.
  intros Hok. induction 1 as [|r rest Hr _ IH]; intros st.
  - split; [reflexivity|auto].
  - rewrite loop_cons.
    destruct (iteration_never_aborts e st r Hok Hr) as [Hc Hs].
    destruct (status (iteration e st r).2) eqn:E;
      try (split; [exact Hc|rewrite E; exact Hs]).
    cbn [fst snd]. destruct (IH (iteration e st r).2) as [IHc IHs].
    rewrite count_app, Hc, IHc. split; [reflexivity|].
    intros _. apply IHs. rewrite E. discriminate.
Qed.

(** X3.  With the two required arguments given, the FFTW buffers
    allocated and a process group that has no more ranks than the fields
    of each step have rows, no run calls [MPI_Abort], whatever the stream
    answers and whatever FFTW reports as local size. *)
Theorem no_abort_with_arguments_and_memory (e : env) (argv : list string)
    (script : list reply) :
  (3 <= length argv)%nat -> alloc_ok e = true -> steps_fit e script ->
  count is_abort (main e argv script).1 = 0%nat
  /\ status (main e argv script).2 <> Aborted.
Proof.
  intros Hargs Hok Hfit. rewrite main_valid by exact Hargs. cbn [fst snd].
  destruct (loop_never_aborts e script Hok Hfit (startup e argv).2)
    as [Hc Hs].
  rewrite count_app, Hc. split.
  - rewrite startup_valid by exact Hargs. reflexivity.
  - apply Hs. rewrite startup_valid by exact Hargs. discriminate.
Qed.

Lemma no_abort_with_arguments_and_memory_witness :
  count is_abort
    (main (Sample.process 0 2 [80; 64]) ["analysis"; "gs.bp"; "fft.bp"]
       [Step (Sample.content 9 4 4); StreamEnded]).1 = 0%nat
  /\ status
       (main (Sample.process 0 2 [80; 64]) ["analysis"; "gs.bp"; "fft.bp"]
          [Step (Sample.content 9 4 4); StreamEnded]).2 <> Aborted.
Proof.
  apply (no_abort_with_arguments_and_memory (Sample.process 0 2 [80; 64])
           ["analysis"; "gs.bp"; "fft.bp"]
           [Step (Sample.content 9 4 4); StreamEnded]);
    [cbn [length]; lia|reflexivity|].
  repeat constructor; cbn; lia.
Defined.

(** A process group with more ranks than rows. *)
Example too_many_processes :
  let r := main (Sample.process 0 4 [8; 8; 8; 8])
             ["analysis"; "gs.bp"; "fft.bp"]
             [Step (Sample.content 2 4 4); StreamEnded] in
  r.1 = [EvOpen Reader "gs.bp"; EvOpen Writer "fft.bp"; EvBeginStep OK;
         EvPrint (MsgStep 1); EvPrint MsgTooManyProcesses; EvAbort]
  /\ status r.2 = Aborted.
Proof. vm_compute. repeat split. Qed.

(** ** The first step of a run *)

(** A run whose stream delivers a first step after [k] waits. *)
Lemma first_step_run e argv k c later :
  (3 <= length argv)%nat ->
  let st0 := (startup e argv).2 in
  let waits := concat (repeat [EvBeginStep NotReady; EvSleep 1000] k) in
  main e argv (repeat NoStepYet k ++ Step c :: later)
  = match status (iteration e st0 (Step c)).2 with
    | Running =>
        ((startup e argv).1 ++ waits ++ (iteration e st0 (Step c)).1
           ++ (loop e (iteration e st0 (Step c)).2 later).1,
         (loop e (iteration e st0 (Step c)).2 later).2)
    | _ =>
        ((startup e argv).1 ++ waits ++ (iteration e st0 (Step c)).1,
         (iteration e st0 (Step c)).2)
    end.
Proof.
  intros Hargs. cbv zeta. rewrite main_valid by exact Hargs.
  rewrite loop_app_waiting
    by (rewrite startup_valid by exact Hargs; reflexivity).
  cbn [fst snd]. rewrite loop_cons.
  destruct (status (iteration e (startup e argv).2 (Step c)).2);
    reflexivity.
Qed.

Lemma startup_from e argv : from [Startup; Abort] (startup e argv).1.
Proof.
  unfold startup. destruct (_ <? 3); [|origin_list].
  cbn [fst]. destruct (rank e =? 0); origin_list.
Qed.

Lemma startup_from_valid e argv :
  (3 <= length argv)%nat -> from [Startup] (startup e argv).1.
Proof. intros H. rewrite startup_valid by exact H. origin_list. Qed.

Lemma waits_from k :
  from [Poll] (concat (repeat [EvBeginStep NotReady; EvSleep 1000] k)).
Proof. induction k as [|k IH]; [constructor|]. cbn. origin_list. exact IH. Qed.

(** ** Failure to allocate the FFTW buffers (lines 176-190) *)

Lemma first_step_block_alloc_failed e fft_only d0 d1 d2 sv :
  alloc_ok e = false ->
  let alloc_local := fftw_mpi_local_size_3d e (wrank e) d0 d1 d2 in
  let n := to_size_t alloc_local in
  first_step_block e fft_only (d0, d1, d2) sv
  = ([EvLocalSize d0 d1 d2; EvAllocComplex n; EvAllocComplex n;
      EvPrint (MsgShapeU d0)]
       ++ (if n =? to_size_t (d0 * d1 * d2) / to_size_t (comm_size e)
           then [] else [EvPrint (MsgSizeMismatch alloc_local)])
       ++ [EvPrint MsgAllocFailed; EvAbort],
     Halt Aborted).
Proof.
  intros Hno. cbv zeta. unfold first_step_block. rewrite Hno.
  destruct (_ =? _ / _); reflexivity.
Qed.

(** The first step of a process that cannot allocate: what precedes the
    call of [MPI_Abort] that ends it. *)
Lemma iteration_alloc_failed e st c :
  alloc_ok e = false -> firstStep st = true -> step_num st + 1 <= INT_MAX ->
  exists pre,
    (iteration e st (Step c)).1 = pre ++ [EvAbort]
    /\ from [Poll; Banner; Decompose; Select; Setup] pre
    /\ count is_plan pre = 0%nat
    /\ (forall var, definitions_of var pre = [])
    /\ status (iteration e st (Step c)).2 = Aborted
    /\ step_num (iteration e st (Step c)).2 = step_num st + 1.
Proof.
  intros Hno Hfirst Hn. rewrite iteration_step. cbv zeta.
  destruct (Z.ltb_spec INT_MAX (step_num st + 1)); [lia|].
  cbn [fst snd]. rewrite step_body_result, step_body_events.
  match goal with |- context [compute_step e ?s c] => set (st1 := s) end.
  pose proof (step_banner_from e st1) as Hb.
  destruct (compute_step_from e st1 c) as (tl & Hev & Htl).
  destruct Htl as [(_ & -> & Hres)
                  |(_ & sels & post & -> & Hsel & _ & Hhalt)].
  - rewrite Hres, Hev, app_nil_r.
    exists (EvBeginStep OK
              :: (step_banner e st1).1 ++ [EvPrint MsgTooManyProcesses]).
    split; [cbn [app]; rewrite <- app_assoc; reflexivity|].
    assert (Hfrom : from [Poll; Banner; Decompose; Select; Setup]
                      (EvBeginStep OK :: (step_banner e st1).1
                         ++ [EvPrint MsgTooManyProcesses])).
    { constructor; [cbn; tauto|]. apply from_app; [|origin_list].
      revert Hb. apply from_incl. cbn. tauto. }
    split; [exact Hfrom|].
    assert (Hquiet : from [Poll; Banner; Decompose]
                       (EvBeginStep OK :: (step_banner e st1).1
                          ++ [EvPrint MsgTooManyProcesses])).
    { constructor; [cbn; tauto|]. apply from_app; [|origin_list].
      revert Hb. apply from_incl. cbn. tauto. }
    split; [|split; [|split; reflexivity]].
    + revert Hquiet. apply count_origin with (o := Setup);
        [apply is_plan_origin|not_in].
    + intros var. revert Hquiet. apply definitions_of_from. not_in.
  - unfold step_workspace in Hev, Hhalt.
    cbn [firstStep output_fft_only step_num st1] in Hev, Hhalt.
    rewrite Hfirst in Hev, Hhalt.
    destruct (Shape c "u_real") as [[d0 d1] d2].
    rewrite first_step_block_alloc_failed in Hev, Hhalt by exact Hno.
    destruct (Hhalt Aborted eq_refl) as [-> Hres].
    rewrite Hres, Hev, !app_nil_r. cbn [fst].
    set (n := to_size_t (fftw_mpi_local_size_3d e (wrank e) d0 d1 d2)).
    set (note := if n =? _ then _ else _).
    assert (Hnote : from [Setup] note /\ count is_plan note = 0%nat
                    /\ forall var, definitions_of var note = []).
    { subst note. destruct (n =? _); repeat split; origin_list. }
    destruct Hnote as (Hnote & Hnp & Hnd).
    exists (EvBeginStep OK
              :: (step_banner e st1).1 ++ sels
              ++ [EvLocalSize d0 d1 d2; EvAllocComplex n; EvAllocComplex n;
                  EvPrint (MsgShapeU d0)] ++ note ++ [EvPrint MsgAllocFailed]).
    split.
    { cbn [app]. rewrite <- !app_assoc. cbn [app]. rewrite <- !app_assoc.
      reflexivity. }
    split.
    { constructor; [cbn; tauto|].
      repeat apply from_app;
        [revert Hb|revert Hsel| |revert Hnote|];
        try (apply from_incl; cbn; tauto); origin_list. }
    split; [|split; [|split; reflexivity]].
    + rewrite count_cons, !count_app, Hnp.
      rewrite (count_origin is_plan Setup [Banner] _ is_plan_origin
                 ltac:(not_in) Hb),
        (count_origin is_plan Setup [Select] _ is_plan_origin
           ltac:(not_in) Hsel).
      reflexivity.
    + intros var.
      change (EvBeginStep OK :: ?l) with ([EvBeginStep OK] ++ l).
      rewrite !definitions_of_app, Hnd.
      rewrite (definitions_of_from var [Banner] _ ltac:(not_in) Hb),
        (definitions_of_from var [Select] _ ltac:(not_in) Hsel).
      reflexivity.
Qed.

(** X4.  When FFTW cannot allocate its buffers on the first step, the process
    group is aborted there: the step is counted but never read, no plan
    is made, no variable is defined, nothing is transformed
    or written, and [MPI_Abort] is the last call of the run. *)
Theorem allocation_failure_aborts (e : env) (argv : list string) (k : nat)
    (c : step_content) (later : list reply) :
  (3 <= length argv)%nat -> alloc_ok e = false ->
  let r := main e argv (repeat NoStepYet k ++ Step c :: later) in
  status r.2 = Aborted
  /\ step_num r.2 = 1
  /\ last r.1 = Some EvAbort
  /\ count is_abort r.1 = 1%nat
  /\ count is_plan r.1 = 0%nat
  /\ count is_end_step r.1 = 0%nat
  /\ executes r.1 = []
  /\ written_vars None r.1 = []
  /\ forall var, definitions_of var r.1 = [].
Proof.
  intros Hargs Hno. cbv zeta.
  rewrite first_step_run by exact Hargs. cbv zeta.
  destruct (iteration_alloc_failed e (startup e argv).2 c)
    as (pre & Hev & Hpre & Hplan & Hdef & Hst & Hnum); try assumption;
    try (rewrite startup_valid by exact Hargs; reflexivity).
  { rewrite startup_valid by exact Hargs. vm_compute. discriminate. }
  rewrite Hst. cbn [fst snd]. rewrite Hst, Hnum, Hev.
  pose proof (startup_from_valid e argv Hargs) as Hstart.
  pose proof (waits_from k) as Hw.
  set (waits := concat (repeat [EvBeginStep NotReady; EvSleep 1000] k)) in *.
  assert (Htr : from [Startup; Poll; Banner; Decompose; Select; Setup]
                  ((startup e argv).1 ++ waits ++ pre)).
  { repeat apply from_app; [revert Hstart|revert Hw|revert Hpre];
      apply from_incl; cbn; tauto. }
  replace ((startup e argv).1 ++ waits ++ pre ++ [EvAbort])
    with (((startup e argv).1 ++ waits ++ pre) ++ [EvAbort])
    by (rewrite <- !app_assoc; reflexivity).
  set (trace := (startup e argv).1 ++ waits ++ pre) in *.
  split; [reflexivity|].
  split; [rewrite startup_valid by exact Hargs; reflexivity|].
  split; [apply last_snoc|].
  split.
  { rewrite count_app.
    rewrite (count_origin is_abort Abort
               [Startup; Poll; Banner; Decompose; Select; Setup] trace
               is_abort_origin ltac:(not_in) Htr). reflexivity. }
  split.
  { rewrite count_app. subst trace. rewrite !count_app, Hplan.
    rewrite (count_origin is_plan Setup [Startup] _ is_plan_origin
               ltac:(not_in) Hstart),
      (count_origin is_plan Setup [Poll] _ is_plan_origin ltac:(not_in) Hw).
    reflexivity. }
  split.
  { rewrite count_app.
    rewrite (count_origin is_end_step Read
               [Startup; Poll; Banner; Decompose; Select; Setup] trace
               is_end_step_origin ltac:(not_in) Htr). reflexivity. }
  split.
  { rewrite executes_app.
    rewrite (executes_from
               [Startup; Poll; Banner; Decompose; Select; Setup] trace
               ltac:(not_in) Htr). reflexivity. }
  split.
  { rewrite written_vars_not_writing; [reflexivity|].
    revert Htr. apply from_not_writing. not_in. }
  intros var. subst trace. rewrite !definitions_of_app, Hdef.
  rewrite (definitions_of_from var [Startup] _ ltac:(not_in) Hstart),
    (definitions_of_from var [Poll] _ ltac:(not_in) Hw).
  reflexivity.
Qed.

Lemma allocation_failure_aborts_witness :
  let e := without_memory (Sample.process 0 2 [8; 8]) in
  let r := main e ["analysis"; "gs.bp"; "fft.bp"]
             (repeat NoStepYet 1
                ++ Step (Sample.content 4 2 2) :: [StreamEnded]) in
  status r.2 = Aborted
  /\ step_num r.2 = 1
  /\ last r.1 = Some EvAbort
  /\ count is_abort r.1 = 1%nat
  /\ count is_plan r.1 = 0%nat
  /\ count is_end_step r.1 = 0%nat
  /\ executes r.1 = []
  /\ written_vars None r.1 = []
  /\ forall var, definitions_of var r.1 = [].
Proof.
  cbv zeta.
  apply (allocation_failure_aborts
           (without_memory (Sample.process 0 2 [8; 8]))
           ["analysis"; "gs.bp"; "fft.bp"] 1 (Sample.content 4 2 2)
           [StreamEnded]); [cbn [length]; lia|reflexivity].
Defined.

(** ** The step counter and its banner (lines 135-137) *)

Lemma iteration_banners e st r :
  step_banners (iteration e st r).1
  = match r with
    | Step _ =>
        if INT_MAX <? step_num st + 1 then []
        else if rank e =? 0 then [step_num st + 1] else []
    | _ => []
    end.
Proof.
  destruct r as [c| | |].
  - rewrite iteration_step. cbv zeta.
    destruct (INT_MAX <? step_num st + 1); [reflexivity|]. cbn [fst].
    change (step_banners (EvBeginStep OK :: ?l)) with (step_banners l).
    rewrite step_body_events.
    match goal with |- context [compute_step e ?s c] => set (st1 := s) end.
    assert (Hwr : step_banners
                    match (compute_step e st1 c).2 with
                    | Ok (w, d) => (write_step (output_fft_only st1) w d).1
                    | Halt _ => []
                    end = []).
    { destruct (compute_step e st1 c).2 as [[w d]|s]; [|reflexivity].
      apply (step_banners_from [Output]); [not_in|apply write_step_from]. }
    rewrite step_banners_app, Hwr, app_nil_r.
    destruct (compute_step_from e st1 c) as (tl & -> & Htl).
    assert (Htl' : from [Decompose; Abort; Select; Setup; Read; Transform] tl).
    { pose proof (step_workspace_from e st1 (Shape c "u_real")
                    (Shape c "v_real")) as Hw.
      destruct Htl as [(_ & -> & _)|(_ & sels & post & -> & Hsel & Hpost & _)];
        [origin_list|].
      repeat apply from_app; [revert Hsel|revert Hw|revert Hpost];
        apply from_incl; cbn; tauto. }
    rewrite step_banners_app.
    rewrite (step_banners_from
               [Decompose; Abort; Select; Setup; Read; Transform] tl
               ltac:(not_in) Htl'), app_nil_r.
    unfold step_banner. cbn [step_num st1].
    destruct (rank e =? 0); reflexivity.
  - reflexivity.
  - unfold iteration, shutdown. destruct (ws st); reflexivity.
  - unfold iteration, shutdown. destruct (ws st); reflexivity.
Qed.

Lemma loop_step_num_grows e script st :
  step_num st <= step_num (loop e st script).2.
Proof. destruct (loop_polling e script st) as [_ ->]. lia. Qed.

Lemma loop_banners e script :
  forall st,
    step_num (loop e st script).2 <= INT_MAX ->
    step_banners (loop e st script).1
    = if rank e =? 0
      then seqZ (step_num st + 1) (step_num (loop e st script).2 - step_num st)
      else [].
Proof.
  induction script as [|r rest IH]; intros st Hmax.
  - cbn [loop fst snd]. rewrite Z.sub_diag. destruct (rank e =? 0); reflexivity.
  - rewrite loop_cons in *.
    pose proof (iteration_banners e st r) as Hb.
    pose proof (iteration_step_num e st r) as Hn.
    assert (Hit : step_num (iteration e st r).2 <= INT_MAX ->
                  step_banners (iteration e st r).1
                  = if rank e =? 0
                    then seqZ (step_num st + 1)
                           (step_num (iteration e st r).2 - step_num st)
                    else []).
    { intros Hle. rewrite Hb, Hn. destruct r as [c| | |];
        try (replace (step_num st + 0 - step_num st) with 0 by lia;
             destruct (rank e =? 0); reflexivity).
      destruct (Z.ltb_spec INT_MAX (step_num st + 1)); [lia|].
      replace (step_num st + 1 - step_num st) with 1 by lia.
      destruct (rank e =? 0); reflexivity. }
    destruct (status (iteration e st r).2) eqn:E; try (apply Hit; exact Hmax).
    cbn [fst snd] in *.
    pose proof (loop_step_num_grows e rest (iteration e st r).2) as Hgrow.
    assert (Hup : step_num st <= step_num (iteration e st r).2)
      by (rewrite Hn; destruct r; lia).
    rewrite step_banners_app, Hit by lia.
    rewrite IH by exact Hmax.
    destruct (rank e =? 0); [|reflexivity].
    replace (step_num (loop e (iteration e st r).2 rest).2 - step_num st)
      with ((step_num (iteration e st r).2 - step_num st)
            + (step_num (loop e (iteration e st r).2 rest).2
               - step_num (iteration e st r).2)) by lia.
    rewrite seqZ_app by lia. f_equal. f_equal. lia.
Qed.

(** X5.  Steps are numbered from 1 without gap or repetition: on rank 0 the
    numbers printed are 1, 2, ..., [step_num] in this order, and the other
    ranks print none. *)
Theorem step_numbers_printed (e : env) (argv : list string)
    (script : list reply) :
  (3 <= length argv)%nat ->
  step_num (main e argv script).2 <= INT_MAX ->
  step_banners (main e argv script).1
  = if rank e =? 0 then seqZ 1 (step_num (main e argv script).2) else [].
Proof.
  intros Hargs. rewrite main_valid by exact Hargs. cbn [fst snd]. intros Hmax.
  rewrite step_banners_app, loop_banners by exact Hmax.
  rewrite (step_banners_from [Startup]);
    [|not_in|apply startup_from_valid; exact Hargs].
  rewrite (startup_valid e argv Hargs) at 1 3. cbn [snd step_num app].
  rewrite Z.sub_0_r. reflexivity.
Qed.

Lemma step_numbers_printed_witness :
  step_banners
    (main (Sample.process 0 2 [0; 0]) ["analysis"; "gs.bp"; "fft.bp"]
       [Step (Sample.content 4 2 2); NoStepYet;
        Step (Sample.content 4 2 2); Step (Sample.content 4 2 2)]).1
  = [1; 2; 3].
Proof.
  rewrite (step_numbers_printed (Sample.process 0 2 [0; 0])
             ["analysis"; "gs.bp"; "fft.bp"]
             [Step (Sample.content 4 2 2); NoStepYet;
              Step (Sample.content 4 2 2); Step (Sample.content 4 2 2)]).
  - vm_compute. reflexivity.
  - cbn [length]. lia.
  - vm_compute. discriminate.
Defined.


(** ** What the first-step block leaves behind *)

Lemma first_step_block_ok e fft_only d0 d1 d2 sv w :
  (first_step_block e fft_only (d0, d1, d2) sv).2 = Ok w ->
  alloc_ok e = true /\ d1 <> 0 /\ d2 <> 0
  /\ let n := to_size_t (fftw_mpi_local_size_3d e (wrank e) d0 d1 d2) in
     alloc_local w = fftw_mpi_local_size_3d e (wrank e) d0 d1 d2
     /\ x_dim w = n / d1 / d2
     /\ in_buf w = storage (fresh_complex e) n
     /\ out_buf w = storage (fresh_complex e) n
     /\ u_fft_real w = [] /\ u_fft_imag w = []
     /\ v_fft_real w = [] /\ v_fft_imag w = [].
Proof.
  unfold first_step_block. cbv zeta. rewrite !bind_result.
  cbn [emit snd].
  destruct (_ =? _ / _); cbn [emit snd];
    (destruct (alloc_ok e); [|discriminate]);
    cbn [emit snd]; rewrite ?bind_result; cbn [emit snd];
    destruct (Z.eqb_spec d1 0); try discriminate;
    destruct (Z.eqb_spec d2 0); try discriminate;
    cbn [orb emit snd]; rewrite ?bind_result; cbn [emit snd];
    destruct fft_only; cbn [emit ret snd]; intros [= <-];
    repeat split; (assumption || reflexivity).
Qed.

(** ** Returning from [main] (lines 130-133 and 334-343) *)

Lemma iteration_counted e st r :
  counted st -> counted (iteration e st r).2.
Proof.
  intros Hc. destruct r as [c| | |].
  - assert (Hn : step_num (iteration e st (Step c)).2 = step_num st + 1)
      by apply iteration_step_num.
    destruct Hc as [H0 _]. split; [lia|intros _; lia].
  - exact Hc.
  - unfold iteration, shutdown. destruct (ws st); exact Hc.
  - unfold iteration, shutdown. destruct (ws st); exact Hc.
Qed.


Lemma iteration_running_from e st r :
  status (iteration e st r).2 = Running ->
  from [Poll; Banner; Select; Read; Transform; Setup; Output]
    (iteration e st r).1.
Proof.
  destruct r as [c| | |].
  - rewrite iteration_step. cbv zeta.
    destruct (INT_MAX <? step_num st + 1); [discriminate|]. cbn [fst snd].
    rewrite step_body_result. intros Hrun.
    match goal with |- context [step_body e ?s c] => set (st1 := s) in * end.
    constructor; [cbn; tauto|].
    destruct (compute_step e st1 c).2 as [[w d]|s] eqn:E.
    2:{ apply compute_step_halts in E. cbn [with_status status] in Hrun.
        contradiction. }
    destruct (compute_step_ok e st1 c w d E) as (Hfit & w0 & Hw0).
    assert (Hok : firstStep st1 = true -> alloc_ok e = true).
    { intros Hfirst. unfold step_workspace in Hw0. rewrite Hfirst in Hw0.
      destruct (Shape c "u_real") as [[d0 d1] d2].
      apply first_step_block_ok in Hw0. apply Hw0. }
    generalize (step_body_from_ok e st1 c Hok Hfit).
    apply from_incl. cbn. tauto.
  - intros _. origin_list.
  - unfold iteration, shutdown. destruct (ws st); discriminate.
  - unfold iteration, shutdown. destruct (ws st); discriminate.
Qed.

Lemma iteration_returned e st r code :
  status st = Running ->
  status (iteration e st r).2 = Returned code ->
  code = 0 /\ ws st <> None
  /\ (status_of r = EndOfStream \/ status_of r = OtherError)
  /\ (iteration e st r).1 = release_calls (status_of r)
  /\ step_num (iteration e st r).2 = step_num st.
Proof.
  intros Hrun. destruct r as [c| | |].
  - rewrite iteration_step. cbv zeta.
    destruct (INT_MAX <? step_num st + 1); [discriminate|]. cbn [snd].
    rewrite step_body_result.
    destruct (compute_step e _ c).2 as [[w d]|s] eqn:E; [discriminate|].
    apply compute_step_halt in E. cbn [with_status status].
    destruct E as [-> | [(-> & _) | (-> & _)]]; discriminate.
  - cbn [iteration snd]. congruence.
  - unfold iteration, shutdown. destruct (ws st); [|discriminate].
    cbn. intros [= <-]. repeat split; auto; discriminate.
  - unfold iteration, shutdown. destruct (ws st); [|discriminate].
    cbn. intros [= <-]. repeat split; auto; discriminate.
Qed.

Lemma loop_returned e script code :
  forall st, counted st -> status st = Running ->
    status (loop e st script).2 = Returned code ->
    code = 0
    /\ exists pre t,
         (loop e st script).1 = pre ++ release_calls t
         /\ (t = EndOfStream \/ t = OtherError)
         /\ 1 <= step_num (loop e st script).2
         /\ from [Poll; Banner; Select; Read; Transform; Setup; Output] pre.
Proof.
  induction script as [|r rest IH]; intros st Hcnt Hrun.
  - cbn [loop snd]. congruence.
  - rewrite loop_cons.
    destruct (status (iteration e st r).2) eqn:E.
    + cbn [fst snd]. intros Hret.
      destruct (IH _ (iteration_counted e st r Hcnt) E Hret)
        as (-> & pre & t & Hev & Ht & Hn & Hpre).
      split; [reflexivity|].
      exists ((iteration e st r).1 ++ pre), t. rewrite Hev, app_assoc.
      repeat split; try assumption.
      apply from_app; [|exact Hpre].
      apply iteration_running_from. exact E.
    + intros Hret.
      destruct (iteration_returned e st r code Hrun Hret)
        as (-> & Hws & Ht & Hev & Hn).
      split; [reflexivity|]. exists [], (status_of r).
      rewrite Hev, Hn. repeat split; try assumption.
      * apply Hcnt. exact Hws.
      * constructor.
    + intros Hret. congruence.
    + intros Hret. congruence.
Qed.

(** X6.  [main] returns only 0, and only by this path: at least one step was
    counted, the last answer of [BeginStep] was the end of the stream or
    an error of the transport, and the run ends with the two [Close], the
    release of [in], [out] and the plan and [MPI_Finalize]; nothing was
    released and [MPI_Abort] was not called before. *)
Theorem return_means_clean_shutdown (e : env) (argv : list string)
    (script : list reply) (code : Z) :
  status (main e argv script).2 = Returned code ->
  code = 0
  /\ 1 <= step_num (main e argv script).2
  /\ exists pre t,
       (main e argv script).1 = pre ++ release_calls t
       /\ (t = EndOfStream \/ t = OtherError)
       /\ count is_release pre = 0%nat
       /\ count is_abort pre = 0%nat.
Proof.
  destruct (le_lt_dec 3 (length argv)) as [Hargs|Hargs].
  - rewrite main_valid by exact Hargs. cbn [fst snd]. intros Hret.
    assert (Hc : counted (startup e argv).2).
    { rewrite startup_valid by exact Hargs. split; [cbn; lia|].
      intros H. contradiction H. reflexivity. }
    assert (Hrun : status (startup e argv).2 = Running)
      by (rewrite startup_valid by exact Hargs; reflexivity).
    destruct (loop_returned e script code (startup e argv).2 Hc Hrun Hret)
      as (-> & pre & t & Hev & Ht & Hn & Hpre).
    split; [reflexivity|]. split; [exact Hn|].
    exists ((startup e argv).1 ++ pre), t. rewrite Hev, app_assoc.
    split; [reflexivity|]. split; [exact Ht|].
    assert (Hall : from [Startup; Poll; Banner; Select; Read; Transform;
                         Setup; Output] ((startup e argv).1 ++ pre)).
    { apply from_app.
      - generalize (startup_from_valid e argv Hargs). apply from_incl.
        cbn. tauto.
      - revert Hpre. apply from_incl. cbn. tauto. }
    split.
    + revert Hall. apply count_origin with (o := Shutdown); [|not_in].
      by_cases_on_event.
    + revert Hall. apply count_origin with (o := Abort);
        [apply is_abort_origin|not_in].
  - destruct (main_invalid e argv script Hargs) as (-> & Hab). congruence.
Qed.

Lemma return_means_clean_shutdown_witness :
  let r := main (Sample.process 0 2 [0; 0]) ["analysis"; "gs.bp"; "fft.bp"]
             [Step (Sample.content 4 2 2); StreamError] in
  1 <= step_num r.2
  /\ exists pre t, r.1 = pre ++ release_calls t
                   /\ (t = EndOfStream \/ t = OtherError)
                   /\ count is_release pre = 0%nat
                   /\ count is_abort pre = 0%nat.
Proof.
  cbv zeta.
  apply (return_means_clean_shutdown (Sample.process 0 2 [0; 0])
           ["analysis"; "gs.bp"; "fft.bp"]
           [Step (Sample.content 4 2 2); StreamError] 0).
  vm_compute. reflexivity.
Defined.

(** ** What a run acquires and what it releases *)

Lemma startup_coherent e argv : coherent (startup e argv).2.
Proof.
  unfold startup, coherent. destruct (_ <? 3); cbn [snd ws firstStep];
    split; reflexivity.
Qed.

Lemma iteration_coherent e st r :
  coherent st -> coherent (iteration e st r).2.
Proof.
  intros Hc. destruct r as [c| | |].
  - rewrite iteration_step. cbv zeta.
    destruct (INT_MAX <? step_num st + 1); [exact Hc|]. cbn [snd].
    rewrite step_body_result.
    destruct (compute_step e _ c).2 as [[w' d]|s]; [|exact Hc].
    unfold coherent. cbn [ws firstStep]. split; discriminate.
  - exact Hc.
  - unfold iteration, shutdown. destruct (ws st) eqn:Ew; cbn [snd];
      rewrite <- ?Ew in *; exact Hc.
  - unfold iteration, shutdown. destruct (ws st) eqn:Ew; cbn [snd];
      rewrite <- ?Ew in *; exact Hc.
Qed.

Lemma iteration_keeps_workspace e st r w :
  ws st = Some w -> ws (iteration e st r).2 <> None.
Proof.
  intros Hw. destruct r as [c| | |].
  - rewrite iteration_step. cbv zeta.
    destruct (INT_MAX <? step_num st + 1); cbn [snd with_status ws];
      [congruence|].
    rewrite step_body_result.
    destruct (compute_step e _ c).2 as [[w' d]|s]; cbn [with_status ws];
      congruence.
  - cbn [iteration snd]. congruence.
  - unfold iteration, shutdown. rewrite Hw. cbn. congruence.
  - unfold iteration, shutdown. rewrite Hw. cbn. congruence.
Qed.

Lemma first_step_block_acquires e fft_only su sv w :
  (first_step_block e fft_only su sv).2 = Ok w ->
  count is_alloc (first_step_block e fft_only su sv).1 = 2%nat
  /\ count is_plan (first_step_block e fft_only su sv).1 = 1%nat.
Proof.
  destruct su as [[d0 d1] d2]. intros H. apply first_step_block_ok in H.
  destruct H as (Hok & H1 & H2 & _).
  unfold first_step_block. rewrite Hok.
  replace ((d1 =? 0) || (d2 =? 0)) with false
    by (symmetry; apply orb_false_iff; split; apply Z.eqb_neq; assumption).
  repeat rewrite bind_events. cbn [emit ret fst snd].
  destruct (_ =? _ / _), fft_only; split; reflexivity.
Qed.

(** Allocations and plans of a step are those of its first-step block, which
    a step of a process group too large for dimension 0 does not reach. *)
Lemma iteration_setup_count p e st c :
  (forall ev, p ev = true -> origin_of ev = Setup) ->
  (~ group_fits e c /\ count p (iteration e st (Step c)).1 = 0%nat)
  \/ (group_fits e c
      /\ count p (iteration e st (Step c)).1
         = if INT_MAX <? step_num st + 1 then 0%nat
           else count p (step_workspace e st (Shape c "u_real")
                           (Shape c "v_real")).1).
Proof.
  intros Hp. rewrite iteration_step. cbv zeta.
  assert (Hbegin : p (EvBeginStep OK) = false).
  { destruct (p (EvBeginStep OK)) eqn:E; [|reflexivity].
    apply Hp in E. discriminate. }
  match goal with |- context [step_body e ?s c] => set (st1 := s) end.
  assert (Hbanner : count p (step_banner e st1).1 = 0%nat).
  { apply (count_origin p Setup [Banner]); [exact Hp|not_in|].
    apply step_banner_from. }
  assert (Hwrite : count p match (compute_step e st1 c).2 with
                           | Ok (w, d) => (write_step (output_fft_only st1) w d).1
                           | Halt _ => []
                           end = 0%nat).
  { destruct (compute_step e st1 c).2 as [[w d]|s]; [|reflexivity].
    apply (count_origin p Setup [Output]); [exact Hp|not_in|].
    apply write_step_from. }
  destruct (compute_step_from e st1 c) as (tl & Hev & Htl).
  destruct Htl as [(Hno & -> & _)|(Hfit & sels & post & -> & Hsel & Hpost & _)].
  - left. split; [exact Hno|].
    destruct (INT_MAX <? step_num st + 1); cbn [fst].
    { rewrite count_cons, Hbegin. reflexivity. }
    rewrite step_body_events, Hev, count_cons, !count_app, Hbegin, Hbanner,
      Hwrite.
    rewrite (count_origin p Setup [Decompose; Abort]
               [EvPrint MsgTooManyProcesses; EvAbort] Hp ltac:(not_in)
               ltac:(origin_list)).
    reflexivity.
  - right. split; [exact Hfit|].
    destruct (INT_MAX <? step_num st + 1); cbn [fst].
    { rewrite count_cons, Hbegin. reflexivity. }
    rewrite step_body_events, Hev, count_cons, !count_app, Hbegin, Hbanner,
      Hwrite.
    rewrite (count_origin p Setup [Select] sels Hp ltac:(not_in) Hsel).
    rewrite (count_origin p Setup [Read; Transform] post Hp ltac:(not_in)
               Hpost).
    unfold step_workspace. cbn [firstStep ws output_fft_only st1]. lia.
Qed.

Lemma iteration_acquires e st r :
  coherent st ->
  (ws st = None -> ws (iteration e st r).2 <> None ->
     count is_alloc (iteration e st r).1 = 2%nat
     /\ count is_plan (iteration e st r).1 = 1%nat)
  /\ ((ws st <> None
       \/ (status (iteration e st r).2 = Running
           /\ ws (iteration e st r).2 = None)) ->
      count is_alloc (iteration e st r).1 = 0%nat
      /\ count is_plan (iteration e st r).1 = 0%nat).
Proof.
  intros Hfirst. unfold coherent in Hfirst. destruct r as [c| | |].
  - pose proof (iteration_setup_count is_alloc e st c is_alloc_origin) as Ha.
    pose proof (iteration_setup_count is_plan e st c is_plan_origin) as Hp.
    revert Ha Hp. rewrite iteration_step. cbv zeta.
    destruct (INT_MAX <? step_num st + 1).
    + cbn [fst snd with_status ws status]. intros _ _. split.
      * intros H H'. contradiction.
      * intros _. split; reflexivity.
    + cbn [fst snd]. rewrite step_body_result.
      match goal with |- context [compute_step e ?s c] => set (st1 := s) end.
      intros Ha Hp.
      destruct (compute_step e st1 c).2 as [[w' d]|s] eqn:E.
      * cbn [ws status]. apply compute_step_ok in E.
        destruct E as (Hfit & w0 & Hw0).
        destruct Ha as [[Hno _]|[_ ->]]; [contradiction|].
        destruct Hp as [[Hno _]|[_ ->]]; [contradiction|].
        unfold step_workspace in *.
        cbn [firstStep ws output_fft_only st1] in Hw0.
        split.
        -- intros Hnone _. apply Hfirst in Hnone. rewrite Hnone in *.
           apply (first_step_block_acquires _ _ _ _ _ Hw0).
        -- intros [Hsome|[_ Hno]]; [|discriminate].
           destruct (firstStep st) eqn:Ef.
           ++ contradiction Hsome. apply Hfirst. reflexivity.
           ++ rewrite defined_events. split; reflexivity.
      * cbn [with_status ws status st1]. split.
        -- intros H H'. contradiction.
        -- intros [Hsome|[Hrun _]].
           ++ destruct Ha as [[_ ->]|[_ ->]], Hp as [[_ ->]|[_ ->]];
                unfold step_workspace;
                (destruct (firstStep st) eqn:Ef;
                 [contradiction Hsome; apply Hfirst; reflexivity|]);
                rewrite ?defined_events; split; reflexivity.
           ++ contradiction (compute_step_halts e st1 c s E).
  - cbn [iteration fst snd]. split.
    + intros H H'. contradiction.
    + intros _. split; reflexivity.
  - unfold iteration, shutdown.
    destruct (ws st) eqn:Ew; cbn [fst snd with_status ws status];
      rewrite ?Ew;
      (split; [intros H H'; try discriminate; try contradiction
              |intros _; split; reflexivity]).
  - unfold iteration, shutdown.
    destruct (ws st) eqn:Ew; cbn [fst snd with_status ws status];
      rewrite ?Ew;
      (split; [intros H H'; try discriminate; try contradiction
              |intros _; split; reflexivity]).
Qed.

Lemma loop_acquires e script :
  forall st, coherent st ->
    (ws st = None -> ws (loop e st script).2 <> None ->
       count is_alloc (loop e st script).1 = 2%nat
       /\ count is_plan (loop e st script).1 = 1%nat)
    /\ (ws st <> None ->
        count is_alloc (loop e st script).1 = 0%nat
        /\ count is_plan (loop e st script).1 = 0%nat).
Proof.
  induction script as [|r rest IH]; intros st Hc.
  - cbn [loop fst snd]. split.
    + intros H H'. contradiction.
    + intros _. split; reflexivity.
  - rewrite loop_cons.
    pose proof (iteration_coherent e st r Hc) as Hc'.
    destruct (iteration_acquires e st r Hc) as [Hnew Hold].
    destruct (IH _ Hc') as [IHnew IHold].
    destruct (status (iteration e st r).2) eqn:E; cbn [fst snd];
      try (split; [exact Hnew|intros H; apply Hold; left; exact H]).
    rewrite !count_app. split.
    + intros Hnone Hfinal.
      destruct (ws (iteration e st r).2) as [w1|] eqn:E1.
      * destruct Hnew as [-> ->]; [exact Hnone|discriminate|].
        destruct IHold as [-> ->]; [discriminate|]. split; reflexivity.
      * destruct Hold as [-> ->]; [right; split; reflexivity|].
        destruct IHnew as [-> ->]; [reflexivity|exact Hfinal|].
        split; reflexivity.
    + intros Hsome. destruct Hold as [-> ->]; [left; exact Hsome|].
      destruct IHold as [-> ->]; [|split; reflexivity].
      destruct (ws st) as [w|] eqn:Ew; [|contradiction].
      apply (iteration_keeps_workspace e st r w Ew).
Qed.

Lemma iteration_returned_workspace e st r code :
  status st = Running ->
  status (iteration e st r).2 = Returned code ->
  ws (iteration e st r).2 <> None.
Proof.
  intros Hrun Hret.
  destruct (iteration_returned e st r code Hrun Hret) as (_ & Hws & Ht & _).
  destruct r as [c| | |]; cbn [status_of] in Ht.
  - destruct Ht; discriminate.
  - destruct Ht; discriminate.
  - unfold iteration, shutdown. destruct (ws st) eqn:Ew; [|contradiction].
    cbn [snd with_status ws]. rewrite Ew. discriminate.
  - unfold iteration, shutdown. destruct (ws st) eqn:Ew; [|contradiction].
    cbn [snd with_status ws]. rewrite Ew. discriminate.
Qed.

Lemma loop_returned_workspace e script code :
  forall st, status st = Running ->
    status (loop e st script).2 = Returned code ->
    ws (loop e st script).2 <> None.
Proof.
  induction script as [|r rest IH]; intros st Hrun.
  - cbn [loop snd]. congruence.
  - rewrite loop_cons.
    destruct (status (iteration e st r).2) eqn:E; cbn [snd].
    + apply IH. exact E.
    + intros _. eapply iteration_returned_workspace; [exact Hrun|exact E].
    + rewrite E. discriminate.
    + rewrite E. discriminate.
Qed.

(** X11.  Lines 176-177, 197-198 and 338-340: a run that returns has
    released exactly what it acquired.  [fftw_alloc_complex] was called
    twice and [fftw_free] twice, the plan was created once and destroyed
    once, whatever the stream delivered in between. *)
Theorem returned_run_releases_what_it_acquired (e : env)
    (argv : list string) (script : list reply) (code : Z) :
  status (main e argv script).2 = Returned code ->
  count is_alloc (main e argv script).1 = 2%nat
  /\ count is_free (main e argv script).1 = 2%nat
  /\ count is_plan (main e argv script).1 = 1%nat
  /\ count is_destroy (main e argv script).1 = 1%nat.
Proof.
  destruct (le_lt_dec 3 (length argv)) as [Hargs|Hargs].
  - rewrite main_valid by exact Hargs. cbn [fst snd]. intros Hret.
    assert (Hc : counted (startup e argv).2).
    { rewrite startup_valid by exact Hargs. split; [cbn; lia|].
      intros H. contradiction H. reflexivity. }
    assert (Hrun : status (startup e argv).2 = Running)
      by (rewrite startup_valid by exact Hargs; reflexivity).
    assert (Hnone : ws (startup e argv).2 = None)
      by (rewrite startup_valid by exact Hargs; reflexivity).
    pose proof (startup_from_valid e argv Hargs) as Hstart.
    destruct (loop_acquires e script _ (startup_coherent e argv))
      as [Hacq _].
    destruct (Hacq Hnone
                (loop_returned_workspace e script code _ Hrun Hret))
      as [Halloc Hplan].
    destruct (loop_returned e script code (startup e argv).2 Hc Hrun Hret)
      as (_ & pre & t & Hev & _ & _ & Hpre).
    rewrite !count_app, Halloc, Hplan.
    rewrite (count_origin is_alloc Setup [Startup] _ is_alloc_origin
               ltac:(not_in) Hstart).
    rewrite (count_origin is_plan Setup [Startup] _ is_plan_origin
               ltac:(not_in) Hstart).
    assert (Hfree : forall ev, is_free ev = true -> origin_of ev = Shutdown)
      by by_cases_on_event.
    assert (Hdestroy : forall ev, is_destroy ev = true
                                  -> origin_of ev = Shutdown)
      by by_cases_on_event.
    rewrite (count_origin is_free Shutdown [Startup] _ Hfree
               ltac:(not_in) Hstart).
    rewrite (count_origin is_destroy Shutdown [Startup] _ Hdestroy
               ltac:(not_in) Hstart).
    rewrite Hev, !count_app.
    rewrite (count_origin is_free Shutdown
               [Poll; Banner; Select; Read; Transform; Setup; Output] pre
               Hfree ltac:(not_in) Hpre).
    rewrite (count_origin is_destroy Shutdown
               [Poll; Banner; Select; Read; Transform; Setup; Output] pre
               Hdestroy ltac:(not_in) Hpre).
    repeat split; reflexivity.
  - destruct (main_invalid e argv script Hargs) as (-> & Hab). congruence.
Qed.

Lemma returned_run_releases_what_it_acquired_witness :
  let t := (main (Sample.process 0 2 [0; 0]) ["analysis"; "gs.bp"; "fft.bp"]
              [Step (Sample.content 4 2 2); NoStepYet;
               Step (Sample.content 4 2 2); StreamEnded]).1 in
  count is_alloc t = 2%nat /\ count is_free t = 2%nat
  /\ count is_plan t = 1%nat /\ count is_destroy t = 1%nat.
Proof.
  cbv zeta.
  apply (returned_run_releases_what_it_acquired (Sample.process 0 2 [0; 0])
           ["analysis"; "gs.bp"; "fft.bp"]
           [Step (Sample.content 4 2 2); NoStepYet;
            Step (Sample.content 4 2 2); StreamEnded] 0).
  vm_compute. reflexivity.
Defined.


(** ** The result vectors in a run (lines 95-98, 192-195, 287-291) *)

Lemma transform_pair_empty e x a d1 d2 re im input out fi :
  to_size_t a <> 0 ->
  exists s,
    (transform_pair e x a d1 d2 re im input out [] fi).2 = Halt s
    /\ (length (executes (transform_pair e x a d1 d2 re im input out [] fi).1)
        <= 1)%nat.
Proof.
  intros Hn. unfold transform_pair.
  destruct (stage_in x d1 d2 re im input) as [input'|].
  - cbn [defined ret emit bind fst snd app].
    rewrite (stage_out_empty a _ fi Hn). cbn [defined halt bind fst snd app].
    eexists. split; [reflexivity|]. cbn. lia.
  - cbn [defined halt bind fst snd]. eexists. split; [reflexivity|].
    cbn. lia.
Qed.

(** A first step on a nonempty allocation stops before the end of the
    transform of the u pair. *)
Lemma process_slabs_first e st c su cu sv cv d0 d1 d2 :
  firstStep st = true ->
  Shape c "u_real" = (d0, d1, d2) ->
  to_size_t (fftw_mpi_local_size_3d e (wrank e) d0 d1 d2) <> 0 ->
  exists s,
    (process_slabs e st c su cu sv cv).2 = Halt s
    /\ (length (executes (process_slabs e st c su cu sv cv).1) <= 1)%nat.
Proof.
  intros Hfirst Hshape Hn. unfold process_slabs. cbv zeta. rewrite Hshape.
  rewrite bind_events, bind_result. cbn [select_inputs emit snd fst].
  rewrite executes_app, bind_events, bind_result, executes_app.
  unfold step_workspace. rewrite Hfirst.
  rewrite (executes_from [Select]);
    [|not_in|apply (select_inputs_from su cu sv cv)].
  rewrite (executes_from [Setup; Abort]);
    [|not_in|apply first_step_block_from].
  cbn [app].
  destruct (first_step_block e (output_fft_only st) (d0, d1, d2)
              (Shape c "v_real")).2 as [w|s] eqn:Ew.
  2:{ exists s. split; [reflexivity|]. cbn. lia. }
  apply first_step_block_ok in Ew.
  destruct Ew as (_ & _ & _ & Ha & _ & _ & _ & Hur & _).
  rewrite bind_events, bind_result, executes_app.
  cbn [read_inputs emit ret bind fst snd app executes omap].
  rewrite bind_events, bind_result, Hur, Ha.
  match goal with
  | |- context [transform_pair e ?x ?a d1 d2 ?re ?im ?i ?o [] ?fi] =>
      destruct (transform_pair_empty e x a d1 d2 re im i o fi Hn)
        as (s & -> & Hex)
  end.
  exists s. split; [reflexivity|]. rewrite app_nil_r. exact Hex.
Qed.

Lemma compute_step_first e st c d0 d1 d2 :
  firstStep st = true ->
  Shape c "u_real" = (d0, d1, d2) ->
  to_size_t (fftw_mpi_local_size_3d e (wrank e) d0 d1 d2) <> 0 ->
  exists s,
    (compute_step e st c).2 = Halt s
    /\ (length (executes (compute_step e st c).1) <= 1)%nat.
Proof.
  intros Hfirst Hshape Hn.
  assert (Hb : executes (step_banner e st).1 = [])
    by (apply (executes_from [Banner]); [not_in|apply step_banner_from]).
  destruct (compute_step_cases e st c) as [[_ ->]|[_ ->]];
    cbn [fst snd]; rewrite executes_app, Hb.
  - eexists. split; [reflexivity|]. cbn. lia.
  - apply (process_slabs_first e st c _ _ _ _ d0 d1 d2); assumption.
Qed.

(** X13.  Lines 95-98, 192-195 and 287-291: the four result vectors are
    declared empty and only get [reserve], so the first step of a run, when
    FFTW reports a local allocation that is not 0, has no defined way past
    the output loop of the u pair.  Whatever the arguments, the NotReady
    answers before that step and the answers after it, the run ends
    aborted or with undefined behaviour, and up to there [fftw_execute]
    was called at most once, no output step was begun and no variable was
    put. *)
Theorem first_step_is_not_written (e : env) (argv : list string) (k : nat)
    (c : step_content) (later : list reply) (d0 d1 d2 : Z) :
  Shape c "u_real" = (d0, d1, d2) ->
  to_size_t (fftw_mpi_local_size_3d e (wrank e) d0 d1 d2) <> 0 ->
  let r := main e argv (repeat NoStepYet k ++ Step c :: later) in
  (length (executes r.1) <= 1)%nat
  /\ count is_writer_begin r.1 = 0%nat
  /\ written_vars None r.1 = []
  /\ (forall var, data_put var r.1 = [])
  /\ (status r.2 = Aborted \/ status r.2 = Undefined).
Proof.
  intros Hshape Hn. cbv zeta.
  destruct (le_lt_dec 3 (length argv)) as [Hargs|Hargs].
  - rewrite first_step_run by exact Hargs. cbv zeta.
    pose proof (startup_from_valid e argv Hargs) as Hstart.
    pose proof (waits_from k) as Hwaits.
    assert (Hst : firstStep (startup e argv).2 = true
                  /\ step_num (startup e argv).2 = 0)
      by (rewrite startup_valid by exact Hargs; split; reflexivity).
    destruct Hst as [Hfirst Hzero].
    rewrite iteration_step. cbv zeta. rewrite Hzero.
    change (INT_MAX <? 0 + 1) with false. cbn [fst snd].
    rewrite step_body_result, step_body_events.
    match goal with |- context [compute_step e ?s c] => set (st1 := s) end.
    destruct (compute_step_first e st1 c d0 d1 d2 Hfirst Hshape Hn)
      as (s & Hs & Hex).
    pose proof (compute_step_halt e st1 c s Hs) as Hhalt.
    pose proof (compute_step_origins e st1 c) as Hor.
    rewrite Hs in *. cbn [with_status status]. rewrite app_nil_r.
    assert (Hstatus : s = Aborted \/ s = Undefined)
      by (destruct Hhalt as [->|[(-> & _)|(-> & _)]]; tauto).
    assert (Hall : from [Startup; Poll; Banner; Decompose; Select; Read;
                         Transform; Setup; Abort]
                     ((startup e argv).1
                        ++ concat (repeat [EvBeginStep NotReady;
                                           EvSleep 1000] k)
                        ++ EvBeginStep OK :: (compute_step e st1 c).1)).
    { repeat apply from_app.
      - revert Hstart. apply from_incl. cbn. tauto.
      - revert Hwaits. apply from_incl. cbn. tauto.
      - constructor; [cbn; tauto|].
        revert Hor. apply from_incl. cbn. tauto. }
    destruct Hstatus as [->| ->]; cbn [fst snd status];
      (split;
       [rewrite !executes_app;
        rewrite (executes_from [Startup] _ ltac:(not_in) Hstart);
        rewrite (executes_from [Poll] _ ltac:(not_in) Hwaits);
        exact Hex|]);
      (split;
       [revert Hall; apply count_origin with (o := Output);
        [apply is_writer_begin_origin|not_in]|]);
      (split;
       [rewrite <- (app_nil_r (_ ++ _ ++ _ :: _));
        rewrite written_vars_not_writing; [reflexivity|];
        revert Hall; apply from_not_writing; not_in|]);
      (split; [intros var; revert Hall; apply data_put_from; not_in|]);
      tauto.
  - destruct (main_invalid e argv (repeat NoStepYet k ++ Step c :: later)
                Hargs) as (-> & Hab).
    pose proof (startup_from e argv) as Hstart.
    split; [rewrite (executes_from [Startup; Abort] _ ltac:(not_in) Hstart);
            cbn; lia|].
    split; [revert Hstart; apply count_origin with (o := Output);
            [apply is_writer_begin_origin|not_in]|].
    split; [rewrite <- (app_nil_r (startup e argv).1);
            rewrite written_vars_not_writing; [reflexivity|];
            revert Hstart; apply from_not_writing; not_in|].
    split; [intros var; revert Hstart; apply data_put_from; not_in|].
    left. exact Hab.
Qed.

Lemma first_step_is_not_written_witness :
  let r := main (Sample.process 0 2 [64; 64])
             ["analysis"; "gs.bp"; "fft.bp"; "0"]
             (repeat NoStepYet 2
                ++ Step (Sample.content 8 4 4)
                   :: [Step (Sample.content 8 4 4); StreamEnded]) in
  (length (executes r.1) <= 1)%nat
  /\ count is_writer_begin r.1 = 0%nat
  /\ written_vars None r.1 = []
  /\ (forall var, data_put var r.1 = [])
  /\ (status r.2 = Aborted \/ status r.2 = Undefined).
Proof.
  cbv zeta.
  apply (first_step_is_not_written (Sample.process 0 2 [64; 64])
           ["analysis"; "gs.bp"; "fft.bp"; "0"] 2 (Sample.content 8 4 4)
           [Step (Sample.content 8 4 4); StreamEnded] 8 4 4).
  - reflexivity.
  - vm_compute. discriminate.
Defined.
